(** * OSS maintenance-cost analyser: a shallow embedding and its properties

    The first part embeds the JavaScript sources, one module per file:

    - [Js]          the JavaScript idioms the code relies on (truthiness,
                    [||], [??], [Math.round], rounding to double precision,
                    [Array.prototype.sort], [Array.prototype.slice],
                    insertion-ordered [Map], [Object.entries],
                    [toUpperCase]);
    - [DepsDev]     src/api/depsDev.js (maintenance and complexity metrics,
                    graph extraction);
    - [Osv]         src/api/osv.js (batched, cached vulnerability queries,
                    deduplication, the severity counters of
                    [calculateCVEMetrics]);
    - [Calculator]  src/scoring/calculator.js (sub-scores, composite score,
                    risk level, hours estimate);
    - [Semver]      a model of the part of the external semver package
                    that src/utils/version.js calls;
    - [Version]     src/utils/version.js ([resolveVersion], over the two
                    functions of the package it calls);
    - [Analyzer]    src/analyzer.js ([getTransitiveCVEMetrics],
                    [analyzePackage], [calculateProjectSummary],
                    [extractDependencies]);
    - [Formatter]   src/utils/formatter.js (the colours of [formatScore]
                    and [formatRisk]);
    - [Cli]         src/cli.js (the exit codes of the two commands).

    The second part holds the definitions that word the specification and
    the sample data; the third part the proofs of the specification's
    claims; the fourth part further properties of the code.

    Numbers.  JavaScript numbers are IEEE doubles.  Every score, count and
    day difference the code computes is an integer far below 2^53 and is
    modelled as [Z]; per-year rates, weights and weighted sums are modelled
    as exact rationals [Q].  A comparison of a double with one of the
    thresholds of the code (10, 5, 3, 2, 1, 0.5) is exact, so [Q] is
    faithful there.  For the products with the weights 0.10 and 0.15 exact
    arithmetic idealises double arithmetic; [totalScore_double] shows that
    for the composite score the two agree on every value the sub-score
    calculators produce, and [double_differs_out_of_range] that they can
    differ elsewhere.  The hours estimate adds rates that are not bounded,
    and there the two do differ: [estimateMaintenanceHours] rounds every
    intermediate result to the nearest double ([Js.double]).

    Time and network.  [Date.now()] is a parameter [now] (milliseconds);
    publish timestamps are already-parsed millisecond values; every network
    call is a parameter giving the answer of the service. *)

From Stdlib Require Import ZArith NArith QArith Qround Qpower Lia Lqa.
From Stdlib Require Import Bool Ascii.
From Stdlib Require Import String.
From Stdlib Require Import Permutation Sorted.
From stdpp Require Import gmap strings list.
From Corelib Require PrimFloat.

Open Scope Z_scope.

(* ===================================================================== *)
(** * JavaScript idioms *)
(* ===================================================================== *)

Module Js.

(** Truthiness of a string: every string but the empty one. *)
Definition truthy (s : string) : bool :=
  match s with
  | EmptyString => false
  | String _ _ => true
  end.

(** [x || d] on a number that may be missing: [undefined], [null] and [0]
    are falsy. *)
Definition num_or (x : option Z) (d : Z) : Z :=
  match x with
  | Some n => if n =? 0 then d else n
  | None => d
  end.

(** [x ?? d]: only [undefined] and [null] give the default. *)
Definition nullish (x : option Z) (d : Z) : Z :=
  match x with
  | Some n => n
  | None => d
  end.

(** [Math.max(0, Math.min(100, score))]. *)
Definition clamp (score : Z) : Z := Z.max 0 (Z.min 100 score).

(** [Math.round]: the nearest integer, ties towards plus infinity. *)
Definition round (x : Q) : Z := Qfloor (x + (1 # 2))%Q.

(** [a > b] on rationals. *)
Definition Qgtb (a b : Q) : bool := negb (Qle_bool a b).

(** Double precision, with the rounding written out.  A finite double is
    modelled by the rational number it holds, and [double x] is the double
    nearest to [x] (IEEE 754 binary64, round to nearest, ties to even):
    an integer multiple [m * 2^e] of the unit in the last place, where
    [2^52 <= m <= 2^53] and [e >= -1074].  The result of an arithmetic
    operation of the code is [double] of the exact result.  Numbers beyond
    the largest double, which the arithmetic of the code turns into
    [Infinity], are outside the model. *)
Definition roundHalfEven (x : Q) : Z :=
  let f := Qfloor x in
  let r := (x - inject_Z f)%Q in
  if Qle_bool r (1 # 2) then
    if Qle_bool (1 # 2) r then (if Z.even f then f else f + 1) else f
  else f + 1.

(** For a positive [x], the exponent [e] of its unit in the last place:
    [2^(e + 52) <= x < 2^(e + 53)], and -1074 for the subnormal numbers. *)
Definition ulpExponent (x : Q) : Z :=
  let k := Z.log2 (Qnum x) - Z.log2 (Zpos (Qden x)) in
  let k := if Qle_bool (Qpower 2 k) x then k else k - 1 in
  Z.max (k - 52) (-1074).

Definition nearest (x : Q) : Q :=
  let e := ulpExponent x in
  Qred (inject_Z (roundHalfEven (x / Qpower 2 e)) * Qpower 2 e)%Q.

Definition double (x : Q) : Q :=
  match Qnum x with
  | Z0 => 0%Q
  | Zpos _ => nearest x
  | Zneg _ => (- nearest (- x))%Q
  end.

(** A number that may be [null], in a comparison: [null] counts as [0]. *)
Definition null_num (x : option Z) : Z := nullish x 0.

(** [Array.prototype.sort(cmp)]: a stable sort; [cmp a b <= 0] keeps [a]
    before [b]. *)
Section Sort.
Context {A : Type} (cmp : A → A → Z).

Fixpoint insert_sorted (x : A) (l : list A) : list A :=
  match l with
  | [] => [x]
  | y :: l' => if cmp x y <=? 0 then x :: y :: l' else y :: insert_sorted x l'
  end.

Fixpoint sort (l : list A) : list A :=
  match l with
  | [] => []
  | x :: l' => insert_sorted x (sort l')
  end.
End Sort.

(** [Array.prototype.slice(start, end)], with the relative-index rule for
    negative arguments. *)
Definition rel_index (len k : Z) : Z :=
  if k <? 0 then Z.max (len + k) 0 else Z.min k len.

Definition slice {A : Type} (l : list A) (start stop : Z) : list A :=
  let len := Z.of_nat (length l) in
  let from := rel_index len start in
  let to := rel_index len stop in
  take (Z.to_nat (to - from)) (drop (Z.to_nat from) l).

(** [Map]: string keys, iteration in insertion order.  [set] on a key that
    is present replaces the value and keeps the key's position; on a new
    key it appends. *)
Section OrderedMap.
Context {V : Type}.

Definition Map : Type := list (string * V).

Fixpoint get (m : Map) (k : string) : option V :=
  match m with
  | [] => None
  | (k', v) :: m' => if decide (k = k') then Some v else get m' k
  end.

Definition has (m : Map) (k : string) : bool :=
  match get m k with
  | Some _ => true
  | None => false
  end.

Fixpoint set (m : Map) (k : string) (v : V) : Map :=
  match m with
  | [] => [(k, v)]
  | (k', v') :: m' =>
    if decide (k = k') then (k, v) :: m' else (k', v') :: set m' k v
  end.

Definition keys (m : Map) : list string := m.*1.
Definition values (m : Map) : list V := m.*2.
End OrderedMap.

Arguments Map : clear implicits.

(** An object is given by the list of its own properties in the order of
    their creation, each name once; [JSON.parse] creates the properties in
    the order of the text.  A property name is an array index when it is
    the canonical decimal form of an integer from 0 to 2^32 - 2. *)
Fixpoint decimal (s : string) (acc : N) : option N :=
  match s with
  | EmptyString => Some acc
  | String c s' =>
    let n := N_of_ascii c in
    if ((48 <=? n) && (n <=? 57))%N then decimal s' (10 * acc + (n - 48))%N
    else None
  end.

Definition arrayIndex (key : string) : option N :=
  match key with
  | EmptyString => None
  | String "0"%char EmptyString => Some 0%N
  | String "0"%char _ => None
  | _ =>
    n ← decimal key 0%N;
    if (n <? 4294967295)%N then Some n else None
  end.

Definition indexOf {V : Type} (property : string * V) : Z :=
  from_option Z.of_N 0 (arrayIndex property.1).

(** [Object.entries(o)]: the properties whose names are array indices, in
    ascending order of the index, then the other properties in the order
    of their creation. *)
Definition entries {V : Type} (o : list (string * V)) : list (string * V) :=
  sort (λ a b, indexOf a - indexOf b)
    (filter (λ p, is_Some (arrayIndex p.1)) o)
  ++ filter (λ p, arrayIndex p.1 = None) o.

(** [String.prototype.toUpperCase], on ASCII text: the letters a to z are
    mapped to A to Z, every other character stays. *)
Definition upperChar (c : ascii) : ascii :=
  let n := N_of_ascii c in
  if ((97 <=? n) && (n <=? 122))%N then ascii_of_N (n - 32) else c.

Fixpoint toUpperCase (s : string) : string :=
  match s with
  | EmptyString => EmptyString
  | String c s' => String (upperChar c) (toUpperCase s')
  end.

End Js.

(* ===================================================================== *)
(** * src/api/depsDev.js *)
(* ===================================================================== *)

Module DepsDev.

(** Registry shapes, as far as the code reads them. *)
Record VersionKey := { name : string; version : string }.

(** One entry of [packageInfo.versions]; [publishedAt] is the parsed
    timestamp, [None] when the field is missing. *)
Record VersionEntry := {
  versionKey : option VersionKey;
  publishedAt : option Z
}.

Record PackageInfo := { versions : option (list VersionEntry) }.

Record VersionInfo := { dependencies : option (list string) }.

(** The record [calculateMaintenanceMetrics] returns.  [lastReleaseDate] is
    kept as the timestamp (the code formats it as a date string);
    [releasesPerYear] is missing in the record for an unknown package. *)
Record MaintenanceMetrics := {
  score : Z;
  lastReleaseDate : option Z;
  daysSinceLastRelease : option Z;
  releaseFrequency : string;
  releasesPerYear : option Q;
  totalVersions : Z;
  activelyMaintained : bool
}.

(** The record [calculateComplexityMetrics] returns; [complexityScore] is
    its field [score]. *)
Record ComplexityMetrics := {
  complexityScore : Z;
  directDependencies : Z;
  totalDependencies : Z;
  complexityLevel : string
}.

(** The optional argument [overrides]. *)
Record Overrides := {
  ov_directDependencies : option Z;
  ov_totalDependencies : option Z
}.

(** [overrides = {}]. *)
Definition no_overrides : Overrides :=
  {| ov_directDependencies := None; ov_totalDependencies := None |}.

(** [new Date(v.publishedAt || 0)]. *)
Definition dateOf (v : VersionEntry) : Z := Js.nullish (publishedAt v) 0.

(** The comparator [(a, b) => dateB - dateA]: newest first. *)
Definition byDateDesc (a b : VersionEntry) : Z := dateOf b - dateOf a.

Definition msPerDay : Z := 1000 * 60 * 60 * 24.

Definition unknownMaintenance : MaintenanceMetrics :=
  {| score := 0;
     lastReleaseDate := None;
     daysSinceLastRelease := None;
     releaseFrequency := "unknown";
     releasesPerYear := None;
     totalVersions := 0;
     activelyMaintained := false |}.

Definition calculateMaintenanceMetrics
    (now : Z) (packageInfo : option PackageInfo) : MaintenanceMetrics :=
  match packageInfo ≫= versions with
  | None => unknownMaintenance
  | Some versions =>
    let sortedVersions := Js.sort byDateDesc versions in
    let latestVersion := head sortedVersions in
    let lastReleaseDate := latestVersion ≫= publishedAt in
    let daysSinceLastRelease :=
      (λ d, (now - d) / msPerDay) <$> lastReleaseDate in
    let twoYearsAgo := now - 2 * 365 * 24 * 60 * 60 * 1000 in
    let recentReleases :=
      filter (λ v, twoYearsAgo < dateOf v) versions in
    let releasesPerYear : Q := Z.of_nat (length recentReleases) # 2 in
    let releaseFrequency :=
      if Js.Qgtb releasesPerYear 12 then "very active"
      else if Js.Qgtb releasesPerYear 6 then "active"
      else if Js.Qgtb releasesPerYear 2 then "moderate"
      else if Js.Qgtb releasesPerYear 0 then "low"
      else "abandoned" in
    let score := 100 in
    let days := Js.null_num daysSinceLastRelease in
    let score :=
      if 730 <? days then score - 60
      else if 365 <? days then score - 40
      else if 180 <? days then score - 20
      else if 90 <? days then score - 10
      else score in
    let score :=
      if String.eqb releaseFrequency "abandoned" then score - 30
      else if String.eqb releaseFrequency "low" then score - 15
      else score in
    let score := Js.clamp score in
    let activelyMaintained :=
      (days <? 365) && negb (String.eqb releaseFrequency "abandoned") in
    {| score := score;
       lastReleaseDate := lastReleaseDate;
       daysSinceLastRelease := daysSinceLastRelease;
       releaseFrequency := releaseFrequency;
       releasesPerYear := Some releasesPerYear;
       totalVersions := Z.of_nat (length versions);
       activelyMaintained := activelyMaintained |}
  end.

Definition calculateComplexityMetrics
    (versionInfo : option VersionInfo) (overrides : Overrides)
    : ComplexityMetrics :=
  match versionInfo ≫= dependencies with
  | None =>
    {| complexityScore := 100;
       directDependencies := Js.num_or (ov_directDependencies overrides) 0;
       totalDependencies := Js.num_or (ov_totalDependencies overrides) 0;
       complexityLevel := "low" |}
  | Some dependencies =>
    let directDeps :=
      Js.nullish (ov_directDependencies overrides)
                 (Z.of_nat (length dependencies)) in
    let totalDeps :=
      Js.nullish (ov_totalDependencies overrides) (directDeps * 15) in
    let score := 100 in
    let score :=
      if 500 <? totalDeps then score - 50
      else if 200 <? totalDeps then score - 35
      else if 100 <? totalDeps then score - 20
      else if 50 <? totalDeps then score - 10
      else score in
    let score :=
      if 50 <? directDeps then score - 20
      else if 30 <? directDeps then score - 15
      else if 15 <? directDeps then score - 10
      else if 5 <? directDeps then score - 5
      else score in
    let score := Js.clamp score in
    let complexityLevel :=
      if 500 <? totalDeps then "very high"
      else if 200 <? totalDeps then "high"
      else if 50 <? totalDeps then "moderate"
      else "low" in
    {| complexityScore := score;
       directDependencies := directDeps;
       totalDependencies := totalDeps;
       complexityLevel := complexityLevel |}
  end.

(** A node of the dependency graph; [relation] is [""] when missing. *)
Record GraphNode := {
  node_versionKey : option VersionKey;
  node_relation : string
}.

Record DependencyGraph := { nodes : option (list GraphNode) }.

Record TreePackage := {
  pkg_name : string;
  pkg_version : option string;
  relation : string
}.

(** The key [`${name}@${version}`] of the [seen] set. *)
Definition nodeKey (k : VersionKey) : string :=
  name k +:+ "@" +:+ version k.

(** The loop of [extractPackagesFromGraph], threading [seen] and [packages]. *)
Fixpoint extractLoop (nodes : list GraphNode) (seen : gset string)
    (packages : list TreePackage) : list TreePackage :=
  match nodes with
  | [] => packages
  | node :: rest =>
    match node_versionKey node with
    | None => extractLoop rest seen packages
    | Some k =>
      let key := nodeKey k in
      if decide (key ∈ seen) then extractLoop rest seen packages
      else
        extractLoop rest ({[key]} ∪ seen)
          (packages ++
           [{| pkg_name := name k;
               pkg_version := Some (version k);
               relation :=
                 if Js.truthy (node_relation node) then node_relation node
                 else "UNKNOWN" |}])
    end
  end.

Definition extractPackagesFromGraph
    (dependencyGraph : option DependencyGraph) : list TreePackage :=
  match dependencyGraph ≫= nodes with
  | None => []
  | Some nodes => extractLoop nodes ∅ []
  end.

(** The pure part of [getPackageMetrics]: [packageInfo] is the answer of
    [getPackageInfo], [versionInfo] the answer of [getVersionInfo] for the
    version the function asks for ([None] when it asks for none). *)
Record PackageMetrics := {
  found : bool;
  maintenance : option MaintenanceMetrics;
  complexity : option ComplexityMetrics
}.

Definition getPackageMetrics (now : Z) (packageInfo : option PackageInfo)
    (versionInfo : option VersionInfo) : PackageMetrics :=
  match packageInfo with
  | None =>
    {| found := false;
       maintenance := Some (calculateMaintenanceMetrics now None);
       complexity := Some (calculateComplexityMetrics None no_overrides) |}
  | Some info =>
    {| found := true;
       maintenance := Some (calculateMaintenanceMetrics now (Some info));
       complexity :=
         Some (calculateComplexityMetrics versionInfo no_overrides) |}
  end.

End DepsDev.

(* ===================================================================== *)
(** * src/api/osv.js *)
(* ===================================================================== *)

Module Osv.

(** A finding as the service returns it.  The code reads [id] (and, for the
    metrics, [published] and the severity fields); [summary] stands for the
    rest of the advisory. *)
Record Vuln := {
  id : option string;
  published : option string;
  summary : string
}.

(** The body of a 2xx answer: [{ vulns: [...] }], [vulns] possibly missing. *)
Record OsvData := { vulns : option (list Vuln) }.

(** What one [fetch] of [/query] can end in. *)
Inductive Response :=
| NetworkError
| HttpError (status : Z)
| Ok (data : OsvData).

(** [bySeverity] of the metrics. *)
Record BySeverity := {
  CRITICAL : Z;
  HIGH : Z;
  MODERATE : Z;
  LOW : Z;
  UNKNOWN : Z
}.

Record CVEMetrics := {
  totalCVEs : Z;
  avgCVEsPerYear : Q;
  criticalCVEsPerYear : Q;
  highCVEsPerYear : Q;
  moderateCVEsPerYear : Q;
  lowCVEsPerYear : Q;
  bySeverity : BySeverity;
  byYear : list (Z * Z);
  oldestCVE : option string;
  newestCVE : option string;
  yearsOfData : option Q
}.

Section Network.
(** The answer of the vulnerability service for each package name. *)
Variable fetch : string → Response.

(** [queryVulnerabilities]: a non-2xx answer throws inside the [try], and
    every exception is turned into [{ vulns: [] }]. *)
Definition queryVulnerabilities (packageName : string) : OsvData :=
  match fetch packageName with
  | Ok data => data
  | HttpError _ | NetworkError => {| vulns := Some [] |}
  end.

(** [data.vulns || []]. *)
Definition vulnsOf (data : OsvData) : list Vuln := default [] (vulns data).

(** The state [queryVulnerabilitiesBatch] works on: the shared [cache], the
    [results] map it returns, and the queries issued so far (oldest first). *)
Record BatchState := {
  cache : gmap string (list Vuln);
  results : Js.Map (list Vuln);
  queried : list string
}.

(** First loop: separate cached from uncached names. *)
Fixpoint partitionNames (cache : gmap string (list Vuln))
    (packageNames : list string) (results : Js.Map (list Vuln))
    (uncachedNames : list string) : Js.Map (list Vuln) * list string :=
  match packageNames with
  | [] => (results, uncachedNames)
  | name :: rest =>
    match cache !! name with
    | Some cached =>
      partitionNames cache rest (Js.set results name cached) uncachedNames
    | None => partitionNames cache rest results (uncachedNames ++ [name])
    end
  end.

(** One batch: [batch.map] issues the queries of the batch in batch order,
    and [Promise.all] yields the answers in batch order. *)
Definition issue (st : BatchState) (batch : list string) : BatchState :=
  {| cache := cache st;
     results := results st;
     queried := queried st ++ batch |}.

Definition runBatch (batch : list string) : list (string * list Vuln) :=
  (λ name, (name, vulnsOf (queryVulnerabilities name))) <$> batch.

(** [for (const { name, vulns } of batchResults) { cache.set; results.set }]. *)
Definition storeBatch (st : BatchState)
    (batchResults : list (string * list Vuln)) : BatchState :=
  foldl (λ st r,
           {| cache := <[r.1 := r.2]> (cache st);
              results := Js.set (results st) r.1 r.2;
              queried := queried st |})
        st batchResults.

(** Second loop: [for (let i = 0; i < uncachedNames.length; i += concurrency)].
    The loop need not terminate (a [concurrency] of 0 never advances [i]), so
    it runs on fuel: [None] means the fuel ran out. *)
Fixpoint batchLoop (fuel : nat) (uncachedNames : list string)
    (concurrency : Z) (i : Z) (st : BatchState) : option BatchState :=
  if i <? Z.of_nat (length uncachedNames) then
    match fuel with
    | O => None
    | S fuel' =>
      let batch := Js.slice uncachedNames i (i + concurrency) in
      let batchResults := runBatch batch in
      batchLoop fuel' uncachedNames concurrency (i + concurrency)
        (storeBatch (issue st batch) batchResults)
    end
  else Some st.

Definition queryVulnerabilitiesBatch (fuel : nat) (packageNames : list string)
    (cache : gmap string (list Vuln)) (concurrency : Z)
    : option BatchState :=
  let '(results, uncachedNames) := partitionNames cache packageNames [] [] in
  batchLoop fuel uncachedNames concurrency 0
    {| cache := cache; results := results; queried := [] |}.

End Network.

(** [deduplicateVulnerabilities]: [seen] maps an id to the first finding met
    with it. *)
Definition seenStep (seen : Js.Map Vuln) (vuln : Vuln) : Js.Map Vuln :=
  match id vuln with
  | Some i =>
    if Js.truthy i && negb (Js.has seen i) then Js.set seen i vuln else seen
  | None => seen
  end.

Definition deduplicateVulnerabilities
    (vulnsByPackage : Js.Map (list Vuln)) : list Vuln :=
  Js.values
    (foldl (λ seen entry, foldl seenStep seen entry.2) [] vulnsByPackage).

(** [calculateCVEMetrics], the counting loop: [totalCVEs] and [bySeverity].
    (The rates, the years and the dates of the result come from date
    arithmetic and decimal rounding of doubles and are not embedded.)

    A finding as the loop reads it for the severity:
    [database_specific?.severity] ([None] when missing) and the [severity]
    array ([None] when missing), each entry with its [type] and with the
    number [parseFloat(sev.score)] yields, [None] for [NaN]. *)
Record SeverityEntry := {
  sev_type : string;
  sev_score : option Q
}.

Record Advisory := {
  database_severity : option string;
  severity : option (list SeverityEntry)
}.

(** The [for (const sev of vuln.severity)] loop: the first entry of type
    CVSS_V3 decides and ends the loop. *)
Fixpoint cvssSeverity (entries : list SeverityEntry) : string :=
  match entries with
  | [] => "UNKNOWN"
  | sev :: rest =>
    if String.eqb (sev_type sev) "CVSS_V3" then
      match sev_score sev with
      | Some score =>
        if Qle_bool 9 score then "CRITICAL"
        else if Qle_bool 7 score then "HIGH"
        else if Qle_bool 4 score then "MODERATE"
        else "LOW"
      | None => "LOW"
      end
    else cvssSeverity rest
  end.

(** The severity label of one finding. *)
Definition severityOf (vuln : Advisory) : string :=
  let fromCvss :=
    match severity vuln with
    | Some entries => cvssSeverity entries
    | None => "UNKNOWN"
    end in
  match database_severity vuln with
  | Some s => if Js.truthy s then Js.toUpperCase s else fromCvss
  | None => fromCvss
  end.

(** The object [bySeverity] at the start of the loop. *)
Definition noSeverities : gmap string Z :=
  {[ "CRITICAL" := 0; "HIGH" := 0; "MODERATE" := 0; "LOW" := 0;
     "UNKNOWN" := 0 ]}.

(** [bySeverity[severity] = (bySeverity[severity] || 0) + 1]. *)
Definition countSeverity (bySeverity : gmap string Z) (vuln : Advisory)
    : gmap string Z :=
  let severity := severityOf vuln in
  <[severity := Js.num_or (bySeverity !! severity) 0 + 1]> bySeverity.

(** [bySeverity] of the result; for an empty array the function returns
    early with the same five zero counters. *)
Definition severityCounts (vulnerabilities : list Advisory) : gmap string Z :=
  foldl countSeverity noSeverities vulnerabilities.

(** [totalCVEs] of the result. *)
Definition countCVEs (vulnerabilities : list Advisory) : Z :=
  Z.of_nat (length vulnerabilities).

End Osv.

(* ===================================================================== *)
(** * src/scoring/calculator.js *)
(* ===================================================================== *)

Module Calculator.

Record Weights := {
  w_historicalCVEs : Q;
  w_maintenance : Q;
  w_complexity : Q;
  w_technicalLag : Q;
  w_communitySignals : Q
}.

Definition WEIGHTS : Weights :=
  {| w_historicalCVEs := 50 # 100;
     w_maintenance := 10 # 100;
     w_complexity := 15 # 100;
     w_technicalLag := 15 # 100;
     w_communitySignals := 10 # 100 |}.

(** [calculateCVEScore]; [None] is a missing metrics object.  The rates are
    numbers, on which [x || 0] is the identity. *)
Definition calculateCVEScore (cveMetrics : option Osv.CVEMetrics) : Z :=
  match cveMetrics with
  | None => 100
  | Some m =>
    if Osv.totalCVEs m =? 0 then 100
    else
      let score := 100 in
      let avgPerYear := Osv.avgCVEsPerYear m in
      let score :=
        if Js.Qgtb avgPerYear 10 then score - 70
        else if Js.Qgtb avgPerYear 5 then score - 50
        else if Js.Qgtb avgPerYear 2 then score - 30
        else if Js.Qgtb avgPerYear 1 then score - 20
        else if Js.Qgtb avgPerYear (1 # 2) then score - 10
        else score in
      let criticalPerYear := Osv.criticalCVEsPerYear m in
      let highPerYear := Osv.highCVEsPerYear m in
      let score :=
        if Js.Qgtb criticalPerYear 2 then score - 20
        else if Js.Qgtb criticalPerYear 1 then score - 15
        else if Js.Qgtb criticalPerYear (1 # 2) then score - 10
        else score in
      let score :=
        if Js.Qgtb highPerYear 3 then score - 15
        else if Js.Qgtb highPerYear 1 then score - 10
        else score in
      Js.clamp score
  end.

(** [calculateTechnicalLagScore]; [maintenanceMetrics] is [None] for the
    empty object the caller passes when there is no maintenance record. *)
Definition calculateTechnicalLagScore (cveMetrics : Osv.CVEMetrics)
    (maintenanceMetrics : option DepsDev.MaintenanceMetrics) : Z :=
  let score := 100 in
  let daysSinceRelease :=
    Js.num_or (maintenanceMetrics ≫= DepsDev.daysSinceLastRelease) 0 in
  let score :=
    if 730 <? daysSinceRelease then score - 50
    else if 365 <? daysSinceRelease then score - 30
    else if 180 <? daysSinceRelease then score - 15
    else score in
  let recentCVEs :=
    Osv.CRITICAL (Osv.bySeverity cveMetrics)
    + Osv.HIGH (Osv.bySeverity cveMetrics) in
  let score :=
    if 5 <? recentCVEs then score - 40
    else if 2 <? recentCVEs then score - 25
    else if 0 <? recentCVEs then score - 15
    else score in
  Js.clamp score.

(** [estimateMaintenanceHours], on the pair [{ cve, metadata }].  The
    hours are added up in double precision: the rates and the dependency
    count enter as the doubles nearest to them, [0.2] is the double nearest
    to 2/10, and every product and every sum is rounded to the nearest
    double. *)
Definition estimateMaintenanceHours (cve : Osv.CVEMetrics)
    (metadata : DepsDev.PackageMetrics) : Z :=
  let hours : Q := 0%Q in
  let hours := Js.double (hours + 2) in
  let avgCVEsPerYear := Js.double (Osv.avgCVEsPerYear cve) in
  let hours := Js.double (hours + Js.double (avgCVEsPerYear * 2)) in
  let criticalPerYear := Js.double (Osv.criticalCVEsPerYear cve) in
  let hours := Js.double (hours + Js.double (criticalPerYear * 4)) in
  let directDeps :=
    Js.double
      (inject_Z
         (Js.num_or
            (DepsDev.directDependencies <$> DepsDev.complexity metadata) 0)) in
  let hours :=
    Js.double (hours + Js.double (directDeps * Js.double (2 # 10))) in
  let releaseFrequency :=
    DepsDev.releaseFrequency <$> DepsDev.maintenance metadata in
  let hours :=
    if bool_decide (releaseFrequency = Some "abandoned")
    then Js.double (hours + 10)
    else if bool_decide (releaseFrequency = Some "low")
    then Js.double (hours + 5)
    else hours in
  Js.round hours.

Inductive RiskLevel := LOW | MEDIUM | ELEVATED | HIGH | CRITICAL.

Definition getRiskLevel (score : Z) : RiskLevel :=
  if 80 <=? score then LOW
  else if 60 <=? score then MEDIUM
  else if 40 <=? score then ELEVATED
  else if 20 <=? score then HIGH
  else CRITICAL.

(** One entry of [breakdown]: the fields every factor has. *)
Record Factor := {
  factorScore : Z;
  weight : Q;
  weightedScore : Z
}.

Record Breakdown := {
  historicalCVEs : Factor;
  maintenanceHealth : Factor;
  dependencyComplexity : Factor;
  technicalLag : Factor;
  communitySignals : Factor
}.

Record CompositeScore := {
  totalScore : Z;
  riskLevel : RiskLevel;
  estimatedAnnualMaintenanceHours : Z;
  breakdown : Breakdown
}.

Definition factor (score : Z) (weight : Q) : Factor :=
  {| factorScore := score;
     weight := weight;
     weightedScore := Js.round (inject_Z score * weight)%Q |}.

Definition calculateCompositeScore (cveMetrics : Osv.CVEMetrics)
    (packageMetrics : DepsDev.PackageMetrics) : CompositeScore :=
  let cveScore := calculateCVEScore (Some cveMetrics) in
  let maintenanceScore :=
    Js.num_or (DepsDev.score <$> DepsDev.maintenance packageMetrics) 50 in
  let complexityScore :=
    Js.num_or
      (DepsDev.complexityScore <$> DepsDev.complexity packageMetrics) 50 in
  let technicalLagScore :=
    calculateTechnicalLagScore cveMetrics
      (DepsDev.maintenance packageMetrics) in
  let communityScore := 50 in
  let compositeScore :=
    Js.round
      (inject_Z cveScore * w_historicalCVEs WEIGHTS
       + inject_Z maintenanceScore * w_maintenance WEIGHTS
       + inject_Z complexityScore * w_complexity WEIGHTS
       + inject_Z technicalLagScore * w_technicalLag WEIGHTS
       + inject_Z communityScore * w_communitySignals WEIGHTS)%Q in
  let estimatedHours := estimateMaintenanceHours cveMetrics packageMetrics in
  let riskLevel := getRiskLevel compositeScore in
  {| totalScore := compositeScore;
     riskLevel := riskLevel;
     estimatedAnnualMaintenanceHours := estimatedHours;
     breakdown :=
       {| historicalCVEs := factor cveScore (w_historicalCVEs WEIGHTS);
          maintenanceHealth := factor maintenanceScore (w_maintenance WEIGHTS);
          dependencyComplexity :=
            factor complexityScore (w_complexity WEIGHTS);
          technicalLag := factor technicalLagScore (w_technicalLag WEIGHTS);
          communitySignals :=
            factor communityScore (w_communitySignals WEIGHTS) |} |}.

End Calculator.

(* ===================================================================== *)
(** * The semver package, as far as src/utils/version.js uses it *)
(* ===================================================================== *)

Module Semver.

(** Modelled from the spec: the semver package is an external dependency,
    its code is not part of the sources.  The model covers what the
    specification names: plain release versions MAJOR.MINOR.PATCH (numeric
    identifiers without leading zeros, none above the largest safe integer)
    and ranges made of caret, tilde and comparison-operator terms with such
    a version as operand, joined by single spaces, all of which must hold.
    Pre-release and build tags, a leading [v], surrounding blanks, partial
    versions, x-ranges, hyphen ranges and [||] are outside the model, which
    treats them as not valid.  [Version.resolveVersionOver] does not depend
    on the model: it takes the two functions of the package as parameters;
    the model serves the examples of the specification and the dependency
    trees of the analyzer. *)
Record SemVer := { major : N; minor : N; patch : N }.

Definition is_digit (c : ascii) : bool :=
  let n := N_of_ascii c in ((48 <=? n) && (n <=? 57))%N.

Fixpoint digits (s : string) (acc : N) : option N :=
  match s with
  | EmptyString => Some acc
  | String c s' =>
    if is_digit c then digits s' (10 * acc + (N_of_ascii c - 48))%N
    else None
  end.

(** [Number.MAX_SAFE_INTEGER]. *)
Definition MAX_SAFE_INTEGER : N := 9007199254740991.

(** A numeric identifier: ["0"], or digits not starting with ["0"]; the
    constructor refuses a number above [MAX_SAFE_INTEGER]. *)
Definition numericIdentifier (s : string) : option N :=
  match s with
  | EmptyString => None
  | String "0"%char EmptyString => Some 0%N
  | String "0"%char _ => None
  | _ =>
    n ← digits s 0%N;
    if (n <=? MAX_SAFE_INTEGER)%N then Some n else None
  end.

(** [s.split(sep)] for a one-character separator. *)
Fixpoint split (sep : ascii) (s : string) : list string :=
  match s with
  | EmptyString => [EmptyString]
  | String c s' =>
    if Ascii.eqb c sep then EmptyString :: split sep s'
    else
      match split sep s' with
      | [] => [String c EmptyString]
      | w :: ws => String c w :: ws
      end
  end.

(** [new SemVer(v)], [None] where the constructor throws. *)
Definition parse (v : string) : option SemVer :=
  match split "." v with
  | [a; b; c] =>
    ma ← numericIdentifier a;
    mi ← numericIdentifier b;
    pa ← numericIdentifier c;
    Some {| major := ma; minor := mi; patch := pa |}
  | _ => None
  end.

(** [semver.valid(v)], as the truth value the caller tests. *)
Definition valid (v : string) : bool :=
  match parse v with
  | Some _ => true
  | None => false
  end.

(** [a.compare(b)]: major, then minor, then patch. *)
Definition compare (a b : SemVer) : comparison :=
  match (major a ?= major b)%N with
  | Eq =>
    match (minor a ?= minor b)%N with
    | Eq => (patch a ?= patch b)%N
    | c => c
    end
  | c => c
  end.

Inductive Operator := OpGe | OpGt | OpLe | OpLt | OpEq.

Record Comparator := { operator : Operator; operand : SemVer }.

Definition testComparator (v : SemVer) (c : Comparator) : bool :=
  match operator c, compare v (operand c) with
  | OpGe, (Gt | Eq) => true
  | OpGt, Gt => true
  | OpLe, (Lt | Eq) => true
  | OpLt, Lt => true
  | OpEq, Eq => true
  | _, _ => false
  end.

(** The upper bounds of caret and tilde terms. *)
Definition caretUpper (v : SemVer) : SemVer :=
  if (0 <? major v)%N then
    {| major := major v + 1; minor := 0; patch := 0 |}
  else if (0 <? minor v)%N then
    {| major := 0; minor := minor v + 1; patch := 0 |}
  else {| major := 0; minor := 0; patch := patch v + 1 |}.

Definition tildeUpper (v : SemVer) : SemVer :=
  {| major := major v; minor := minor v + 1; patch := 0 |}.

Definition withOperand (ops : SemVer → list Comparator) (s : string)
    : option (list Comparator) :=
  ops <$> parse s.

(** One space-separated term of a range. *)
Definition parseTerm (t : string) : option (list Comparator) :=
  match t with
  | String "^"%char s =>
    withOperand (λ v, [ {| operator := OpGe; operand := v |};
                        {| operator := OpLt; operand := caretUpper v |} ]) s
  | String "~"%char s =>
    withOperand (λ v, [ {| operator := OpGe; operand := v |};
                        {| operator := OpLt; operand := tildeUpper v |} ]) s
  | String ">"%char (String "="%char s) =>
    withOperand (λ v, [ {| operator := OpGe; operand := v |} ]) s
  | String "<"%char (String "="%char s) =>
    withOperand (λ v, [ {| operator := OpLe; operand := v |} ]) s
  | String ">"%char s =>
    withOperand (λ v, [ {| operator := OpGt; operand := v |} ]) s
  | String "<"%char s =>
    withOperand (λ v, [ {| operator := OpLt; operand := v |} ]) s
  | String "="%char s =>
    withOperand (λ v, [ {| operator := OpEq; operand := v |} ]) s
  | s => withOperand (λ v, [ {| operator := OpEq; operand := v |} ]) s
  end.

Fixpoint parseTerms (ts : list string) : option (list Comparator) :=
  match ts with
  | [] => Some []
  | t :: ts' =>
    if Js.truthy t then
      cs ← parseTerm t; rest ← parseTerms ts'; Some (cs ++ rest)
    else parseTerms ts'
  end.

(** [new Range(range)], [None] where the constructor throws. *)
Definition parseRange (range : string) : option (list Comparator) :=
  parseTerms (split " " range).

(** [rangeObj.test(v)]: a string that is no version satisfies nothing. *)
Definition test (rangeObj : list Comparator) (v : string) : bool :=
  match parse v with
  | Some sv => forallb (testComparator sv) rangeObj
  | None => false
  end.

(** [maxSV.compare(v) === -1], on the version strings. *)
Definition lessThan (a b : string) : bool :=
  match parse a, parse b with
  | Some sa, Some sb => bool_decide (compare sa sb = Lt)
  | _, _ => false
  end.

(** [semver.maxSatisfying(versions, range)]: the loop keeps the first of
    the largest versions that pass [test]; an unparsable range gives
    [null]. *)
Definition maxStep (rangeObj : list Comparator) (max : option string)
    (v : string) : option string :=
  if test rangeObj v then
    match max with
    | None => Some v
    | Some m => if lessThan m v then Some v else max
    end
  else max.

Definition maxSatisfying (versions : list string) (range : string)
    : option string :=
  match parseRange range with
  | None => None
  | Some rangeObj => foldl (maxStep rangeObj) None versions
  end.

(** [semver.satisfies(v, range)]. *)
Definition satisfies (v range : string) : bool :=
  match parseRange range with
  | Some rangeObj => test rangeObj v
  | None => false
  end.

End Semver.

(* ===================================================================== *)
(** * src/utils/version.js *)
(* ===================================================================== *)

Module Version.

Section Library.
(** The two functions of the semver package that [resolveVersion] calls:
    [semver.valid(v)], as the truth value the caller tests, and
    [semver.maxSatisfying(versions, range)]. *)
Variable valid : string → bool.
Variable maxSatisfying : list string → string → option string.

(** [resolveVersion]; [None] arguments are [null] / [undefined]. *)
Definition resolveVersionOver (range : option string)
    (availableVersions : option (list string)) : option string :=
  match range, availableVersions with
  | Some range, Some availableVersions =>
    if negb (Js.truthy range) || (length availableVersions =? 0)%nat
    then None
    else if valid range then
      if bool_decide (range ∈ availableVersions) then Some range else None
    else
      let validVersions := List.filter (λ v, valid v) availableVersions in
      maxSatisfying validVersions range
  | _, _ => None
  end.
End Library.

(** [resolveVersion] with the model of the package. *)
Definition resolveVersion (range : option string)
    (availableVersions : option (list string)) : option string :=
  resolveVersionOver Semver.valid Semver.maxSatisfying
    range availableVersions.

End Version.

(* ===================================================================== *)
(** * src/analyzer.js *)
(* ===================================================================== *)

Module Analyzer.

(** [[...new Set(names)]]: the distinct names, each at its first position. *)
Fixpoint uniqueFrom (seen : list string) (names : list string) : list string :=
  match names with
  | [] => []
  | n :: rest =>
    if bool_decide (n ∈ seen) then uniqueFrom seen rest
    else n :: uniqueFrom (n :: seen) rest
  end.

Definition unique (names : list string) : list string := uniqueFrom [] names.

(** What [getTransitiveCVEMetrics] returns. *)
Record TransitiveResult := {
  cveMetrics : Osv.CVEMetrics;
  transitivePackageCount : Z;
  directPackageCount : Z;
  totalPackagesInTree : Z;
  packageNames : list string
}.

(** What the function leaves behind besides its result: the final value of
    its variable [resolvedVersion], the versions whose graph it requested
    (oldest request first), the shared cache and the vulnerability queries
    it issued. *)
Record Effects := {
  resolvedVersion : option string;
  graphRequests : list string;
  vulnCache : gmap string (list Osv.Vuln);
  vulnQueries : list string
}.

Section Engine.
(** [calculateCVEMetrics] of src/api/osv.js works on dates and decimal
    rounding of doubles; the functions below only pass its result on. *)
Variable calculateCVEMetrics : list Osv.Vuln → Osv.CVEMetrics.
(** The answers of the services. *)
Variable fetch : string → Osv.Response.
Variable getPackageInfo : string → option DepsDev.PackageInfo.
Variable getDependencyGraph :
  string → string → option DepsDev.DependencyGraph.

(** [v.versionKey?.version]. *)
Definition versionOf (v : DepsDev.VersionEntry) : option string :=
  DepsDev.version <$> DepsDev.versionKey v.

(** A value used as a condition: a string that is present and not empty. *)
Definition truthyVersion (v : option string) : bool :=
  match v with
  | Some s => Js.truthy s
  | None => false
  end.

(** Step 1: resolve the range to a concrete version. *)
Definition resolveStep (packageName : string) (versionRange : option string)
    : option string :=
  match getPackageInfo packageName ≫= DepsDev.versions with
  | Some versions =>
    let availableVersions :=
      List.filter Js.truthy (omap versionOf versions) in
    if truthyVersion versionRange then
      Version.resolveVersion versionRange (Some availableVersions)
    else
      let sortedVersions := Js.sort DepsDev.byDateDesc versions in
      head sortedVersions ≫= versionOf
  | None => None
  end.

(** The fallback loop over [sortedVersions[0 .. min(10, length) - 1]];
    [requests] collects the versions whose graph was requested.  It returns
    the graph found (if any), the value of [resolvedVersion] and the
    requests. *)
Fixpoint fallbackLoop (packageName : string)
    (candidates : list DepsDev.VersionEntry) (resolvedVersion : string)
    (requests : list string)
    : option DepsDev.DependencyGraph * string * list string :=
  match candidates with
  | [] => (None, resolvedVersion, requests)
  | entry :: rest =>
    match versionOf entry with
    | Some fallbackVersion =>
      if Js.truthy fallbackVersion
         && negb (bool_decide (fallbackVersion = resolvedVersion))
      then
        match getDependencyGraph packageName fallbackVersion with
        | Some graph =>
          (Some graph, fallbackVersion, requests ++ [fallbackVersion])
        | None =>
          fallbackLoop packageName rest resolvedVersion
            (requests ++ [fallbackVersion])
        end
      else fallbackLoop packageName rest resolvedVersion requests
    | None => fallbackLoop packageName rest resolvedVersion requests
    end
  end.

(** Step 2: the packages of the tree, with the final [resolvedVersion] and
    the graph requests made. *)
Definition treeStep (packageName : string) (resolved : option string)
    : list DepsDev.TreePackage * option string * list string :=
  let root :=
    [ {| DepsDev.pkg_name := packageName;
         DepsDev.pkg_version := resolved;
         DepsDev.relation := "SELF" |} ] in
  match resolved with
  | Some resolvedVersion =>
    if Js.truthy resolvedVersion then
      let '(graph, resolvedVersion', requests) :=
        match getDependencyGraph packageName resolvedVersion with
        | Some graph => (Some graph, resolvedVersion, [resolvedVersion])
        | None =>
          match getPackageInfo packageName ≫= DepsDev.versions with
          | Some versions =>
            let sortedVersions := Js.sort DepsDev.byDateDesc versions in
            fallbackLoop packageName (take 10 sortedVersions)
              resolvedVersion [resolvedVersion]
          | None => (None, resolvedVersion, [resolvedVersion])
          end
        end in
      match graph with
      | Some g =>
        (DepsDev.extractPackagesFromGraph (Some g),
         Some resolvedVersion', requests)
      | None => (root, Some resolvedVersion', requests)
      end
    else (root, resolved, [])
  | None => (root, resolved, [])
  end.

Definition countRelation (r : string) (treePackages : list DepsDev.TreePackage)
    : Z :=
  Z.of_nat
    (length (List.filter (λ p, String.eqb (DepsDev.relation p) r)
               treePackages)).

(** [getTransitiveCVEMetrics].  [fuel] bounds the batch loop of
    [queryVulnerabilitiesBatch]; [None] means it ran out. *)
Definition getTransitiveCVEMetrics (fuel : nat) (packageName : string)
    (versionRange : option string) (vulnCache : gmap string (list Osv.Vuln))
    (concurrency : Z) (shallow : bool)
    : option (TransitiveResult * Effects) :=
  if shallow then
    let directVulns :=
      calculateCVEMetrics
        (Osv.vulnsOf (Osv.queryVulnerabilities fetch packageName)) in
    Some ({| cveMetrics := directVulns;
             transitivePackageCount := 0;
             directPackageCount := 0;
             totalPackagesInTree := 1;
             packageNames := [packageName] |},
          {| resolvedVersion := None;
             graphRequests := [];
             vulnCache := vulnCache;
             vulnQueries := [packageName] |})
  else
    let resolved := resolveStep packageName versionRange in
    let '(treePackages, resolved', requests) :=
      treeStep packageName resolved in
    let uniqueNames := unique (DepsDev.pkg_name <$> treePackages) in
    st ← Osv.queryVulnerabilitiesBatch fetch fuel uniqueNames vulnCache
           concurrency;
    let deduplicatedVulns :=
      Osv.deduplicateVulnerabilities (Osv.results st) in
    Some ({| cveMetrics := calculateCVEMetrics deduplicatedVulns;
             transitivePackageCount := countRelation "INDIRECT" treePackages;
             directPackageCount := countRelation "DIRECT" treePackages;
             totalPackagesInTree := Z.of_nat (length uniqueNames);
             packageNames := uniqueNames |},
          {| resolvedVersion := resolved';
             graphRequests := requests;
             vulnCache := Osv.cache st;
             vulnQueries := Osv.queried st |}).

End Engine.

(** [analyzePackage], after the network calls: the counts of the complexity
    record are replaced by those of the tree, then the score is computed. *)
Definition overrideCounts (packageMetrics : DepsDev.PackageMetrics)
    (transitiveResult : TransitiveResult) : DepsDev.PackageMetrics :=
  match DepsDev.complexity packageMetrics with
  | Some c =>
    if 0 <? totalPackagesInTree transitiveResult then
      {| DepsDev.found := DepsDev.found packageMetrics;
         DepsDev.maintenance := DepsDev.maintenance packageMetrics;
         DepsDev.complexity :=
           Some {| DepsDev.complexityScore := DepsDev.complexityScore c;
                   DepsDev.directDependencies :=
                     directPackageCount transitiveResult;
                   DepsDev.totalDependencies :=
                     totalPackagesInTree transitiveResult;
                   DepsDev.complexityLevel := DepsDev.complexityLevel c |} |}
    else packageMetrics
  | None => packageMetrics
  end.

(** One element of the [packages] array.  [score] and [pkgCveMetrics] are
    missing in the object the [catch] branch of [analyzePackage] returns. *)
Record PackageResult := {
  packageName : string;
  pkgFound : bool;
  score : option Calculator.CompositeScore;
  pkgCveMetrics : option Osv.CVEMetrics
}.

Definition analyzed (packageName : string)
    (transitiveResult : TransitiveResult)
    (packageMetrics : DepsDev.PackageMetrics) : PackageResult :=
  let packageMetrics := overrideCounts packageMetrics transitiveResult in
  {| packageName := packageName;
     pkgFound := DepsDev.found packageMetrics;
     score :=
       Some (Calculator.calculateCompositeScore
               (cveMetrics transitiveResult) packageMetrics);
     pkgCveMetrics := Some (cveMetrics transitiveResult) |}.

Definition failed (packageName : string) : PackageResult :=
  {| packageName := packageName;
     pkgFound := false;
     score := None;
     pkgCveMetrics := None |}.

(** [calculateProjectSummary]. *)
Record RiskCounts := {
  nLOW : Z;
  nMEDIUM : Z;
  nELEVATED : Z;
  nHIGH : Z;
  nCRITICAL : Z
}.

Record RiskEntry := {
  entryName : string;
  entryScore : Z;
  entryRisk : Calculator.RiskLevel
}.

Record ProjectSummary := {
  averageScore : Z;
  totalMaintenanceHours : Z;
  totalCVEs : Z;
  totalCriticalCVEs : Z;
  riskDistribution : RiskCounts;
  highestRiskPackages : list RiskEntry
}.

(** [riskCounts[level]++]. *)
Definition increment (level : Calculator.RiskLevel) (c : RiskCounts)
    : RiskCounts :=
  match level with
  | Calculator.LOW =>
    {| nLOW := nLOW c + 1; nMEDIUM := nMEDIUM c; nELEVATED := nELEVATED c;
       nHIGH := nHIGH c; nCRITICAL := nCRITICAL c |}
  | Calculator.MEDIUM =>
    {| nLOW := nLOW c; nMEDIUM := nMEDIUM c + 1; nELEVATED := nELEVATED c;
       nHIGH := nHIGH c; nCRITICAL := nCRITICAL c |}
  | Calculator.ELEVATED =>
    {| nLOW := nLOW c; nMEDIUM := nMEDIUM c; nELEVATED := nELEVATED c + 1;
       nHIGH := nHIGH c; nCRITICAL := nCRITICAL c |}
  | Calculator.HIGH =>
    {| nLOW := nLOW c; nMEDIUM := nMEDIUM c; nELEVATED := nELEVATED c;
       nHIGH := nHIGH c + 1; nCRITICAL := nCRITICAL c |}
  | Calculator.CRITICAL =>
    {| nLOW := nLOW c; nMEDIUM := nMEDIUM c; nELEVATED := nELEVATED c;
       nHIGH := nHIGH c; nCRITICAL := nCRITICAL c + 1 |}
  end.

(** A package that passed the filter [p => p.score], with its score. *)
Definition scored (p : PackageResult)
    : option (PackageResult * Calculator.CompositeScore) :=
  (λ s, (p, s)) <$> score p.

(** The running totals of the [for] loop:
    counts, hours, findings, critical findings. *)
Definition tally (acc : RiskCounts * Z * Z * Z)
    (pkg : PackageResult * Calculator.CompositeScore)
    : RiskCounts * Z * Z * Z :=
  let '(riskCounts, hours, cves, criticals) := acc in
  (increment (Calculator.riskLevel pkg.2) riskCounts,
   hours + Calculator.estimatedAnnualMaintenanceHours pkg.2,
   cves + Js.num_or (Osv.totalCVEs <$> pkgCveMetrics pkg.1) 0,
   criticals
   + Js.num_or
       ((λ m, Osv.CRITICAL (Osv.bySeverity m)) <$> pkgCveMetrics pkg.1) 0).

(** The comparator [(a, b) => a.score.totalScore - b.score.totalScore]. *)
Definition byScoreAsc (a b : PackageResult * Calculator.CompositeScore) : Z :=
  Calculator.totalScore a.2 - Calculator.totalScore b.2.

Definition riskEntry (p : PackageResult * Calculator.CompositeScore)
    : RiskEntry :=
  {| entryName := packageName p.1;
     entryScore := Calculator.totalScore p.2;
     entryRisk := Calculator.riskLevel p.2 |}.

(** [analysisDate], the day of the call, is left out of the summary. *)
Definition calculateProjectSummary (packages : list PackageResult)
    : option ProjectSummary :=
  let validPackages : list _ := omap scored packages in
  if (length validPackages =? 0)%nat then None
  else
    let scores := (λ p, Calculator.totalScore p.2) <$> validPackages in
    let averageScore :=
      Js.round (inject_Z (foldl Z.add 0%Z scores)
                / inject_Z (Z.of_nat (length scores)))%Q in
    let riskCounts :=
      {| nLOW := 0; nMEDIUM := 0; nELEVATED := 0; nHIGH := 0;
         nCRITICAL := 0 |} in
    let '(riskCounts, hours, cves, criticals) :=
      foldl tally (riskCounts, 0, 0, 0) validPackages in
    let highestRisk :=
      riskEntry <$> take 5 (Js.sort byScoreAsc validPackages) in
    Some {| averageScore := averageScore;
            totalMaintenanceHours := hours;
            totalCVEs := cves;
            totalCriticalCVEs := criticals;
            riskDistribution := riskCounts;
            highestRiskPackages := highestRisk |}.

(** [extractDependencies].  The two sections of package.json are objects
    from package names to version ranges, given by their properties in the
    order of the manifest; [None] is a section that is missing. *)
Record PackageJson := {
  pj_dependencies : option (list (string * string));
  pj_devDependencies : option (list (string * string))
}.

Record Dependency := {
  dep_name : string;
  dep_version : string;
  dep_type : string
}.

Definition dependency (type : string) (entry : string * string)
    : Dependency :=
  {| dep_name := entry.1; dep_version := entry.2; dep_type := type |}.

Definition extractDependencies (packageJson : PackageJson)
    (includeDev : bool) : list Dependency :=
  let dependencies := [] in
  let dependencies :=
    match pj_dependencies packageJson with
    | Some section =>
      dependencies ++ (dependency "production" <$> Js.entries section)
    | None => dependencies
    end in
  let dependencies :=
    match includeDev, pj_devDependencies packageJson with
    | true, Some section =>
      dependencies ++ (dependency "development" <$> Js.entries section)
    | _, _ => dependencies
    end in
  dependencies.

End Analyzer.

(* ===================================================================== *)
(** * src/utils/formatter.js *)
(* ===================================================================== *)

Module Formatter.

(** The chalk styles of [formatScore] and [formatRisk]; all are bold. *)
Inductive Style := green | yellow | orange | red | whiteOnRed.

Definition formatScore (score : Z) : Style :=
  if 80 <=? score then green
  else if 60 <=? score then yellow
  else if 40 <=? score then orange
  else red.

(** [formatRisk], on the five levels (the fallback [chalk.white] is for a
    string that names no level). *)
Definition formatRisk (risk : Calculator.RiskLevel) : Style :=
  match risk with
  | Calculator.LOW => green
  | Calculator.MEDIUM => yellow
  | Calculator.ELEVATED => orange
  | Calculator.HIGH => red
  | Calculator.CRITICAL => whiteOnRed
  end.

End Formatter.

(* ===================================================================== *)
(** * src/cli.js *)
(* ===================================================================== *)

Module Cli.

(** What the [try] block of the [analyze] command meets: it reaches the
    exit logic with the summary of the results ([null] for a project
    without dependencies or without a scored package), or an exception is
    thrown before; [analyzeProject] throws one when [readPackageJson]
    cannot read or parse the manifest. *)
Inductive ProjectRun :=
  | Returned (summary : option Analyzer.ProjectSummary)
  | Thrown.

(** The exit code of the [analyze] command: the [catch] branch answers an
    exception with [process.exit(1)]; with results, [process.exit(1)] when
    the summary counts a CRITICAL package or more than three HIGH ones, and
    a normal end (0) otherwise. *)
Definition analyzeExitCode (run : ProjectRun) : Z :=
  match run with
  | Returned (Some s) =>
    let criticalCount :=
      Js.num_or (Some (Analyzer.nCRITICAL (Analyzer.riskDistribution s))) 0 in
    let highCount :=
      Js.num_or (Some (Analyzer.nHIGH (Analyzer.riskDistribution s))) 0 in
    if 0 <? criticalCount then 1
    else if 3 <? highCount then 1
    else 0
  | Returned None => 0
  | Thrown => 1
  end.

(** The exit code of the [check] command once [analyzePackage] has
    returned.  A result that is found always carries a score; reading the
    level of a missing score would throw, which the command also answers
    with [process.exit(1)]. *)
Definition checkExitCode (result : Analyzer.PackageResult) : Z :=
  if negb (Analyzer.pkgFound result) then 1
  else
    match Analyzer.score result with
    | Some score =>
      match Calculator.riskLevel score with
      | Calculator.CRITICAL | Calculator.HIGH => 1
      | _ => 0
      end
    | None => 1
    end.

End Cli.

(* ===================================================================== *)
(** * Specification: what the claims say, and sample data *)
(* ===================================================================== *)

(** The penalty bands as the specification words them. *)
Definition avgBand (r : Q) : Z :=
  if Qlt_le_dec 10 r then 70
  else if Qlt_le_dec 5 r then 50
  else if Qlt_le_dec 2 r then 30
  else if Qlt_le_dec 1 r then 20
  else if Qlt_le_dec (1 # 2) r then 10
  else 0.

Definition criticalBand (r : Q) : Z :=
  if Qlt_le_dec 2 r then 20
  else if Qlt_le_dec 1 r then 15
  else if Qlt_le_dec (1 # 2) r then 10
  else 0.

Definition highBand (r : Q) : Z :=
  if Qlt_le_dec 3 r then 15
  else if Qlt_le_dec 1 r then 10
  else 0.

(** Sample metrics: no finding at all; and 12 findings a year, 3 of them
    critical and 4 high. *)
Definition noSeverity : Osv.BySeverity :=
  {| Osv.CRITICAL := 0; Osv.HIGH := 0; Osv.MODERATE := 0; Osv.LOW := 0;
     Osv.UNKNOWN := 0 |}.

Definition noFindings : Osv.CVEMetrics :=
  {| Osv.totalCVEs := 0;
     Osv.avgCVEsPerYear := 0;
     Osv.criticalCVEsPerYear := 0;
     Osv.highCVEsPerYear := 0;
     Osv.moderateCVEsPerYear := 0;
     Osv.lowCVEsPerYear := 0;
     Osv.bySeverity := noSeverity;
     Osv.byYear := [];
     Osv.oldestCVE := None;
     Osv.newestCVE := None;
     Osv.yearsOfData := None |}.

Definition manyFindings : Osv.CVEMetrics :=
  {| Osv.totalCVEs := 24;
     Osv.avgCVEsPerYear := 12;
     Osv.criticalCVEsPerYear := 3;
     Osv.highCVEsPerYear := 4;
     Osv.moderateCVEsPerYear := 5;
     Osv.lowCVEsPerYear := 0;
     Osv.bySeverity :=
       {| Osv.CRITICAL := 6; Osv.HIGH := 8; Osv.MODERATE := 10;
          Osv.LOW := 0; Osv.UNKNOWN := 0 |};
     Osv.byYear := [(2022, 12); (2024, 12)];
     Osv.oldestCVE := Some "2022-01-01";
     Osv.newestCVE := Some "2024-01-01";
     Osv.yearsOfData := Some 2%Q |}.

(** The dependency bands as the specification words them. *)
Definition totalBand (total : Z) : Z :=
  if decide (500 < total) then 50
  else if decide (200 < total) then 35
  else if decide (100 < total) then 20
  else if decide (50 < total) then 10
  else 0.

Definition directBand (direct : Z) : Z :=
  if decide (50 < direct) then 20
  else if decide (30 < direct) then 15
  else if decide (15 < direct) then 10
  else if decide (5 < direct) then 5
  else 0.

(** The score as the claim C8 states it: 100 less the two bands of the
    counts, clamped. *)
Definition statedComplexityScore (direct total : Z) : Z :=
  Z.max 0 (Z.min 100 (100 - totalBand total - directBand direct)).

(** The sub-score the code takes from a metrics record: [score || 50]. *)
Definition effectiveScore (score : option Z) : Z :=
  match score with
  | Some s => if decide (s = 0) then 50 else s
  | None => 50
  end.

(** The weighted sum with the weights written as the specification gives
    them: 0.50, 0.10, 0.15, 0.15 and 0.10. *)
Definition weightedSum (cve maintenance complexity lag community : Z) : Q :=
  ((1 # 2) * inject_Z cve + (1 # 10) * inject_Z maintenance
   + (15 # 100) * inject_Z complexity + (15 # 100) * inject_Z lag
   + (1 # 10) * inject_Z community)%Q.

(** The total as the claim C1 states it: the [score] fields of the two
    metrics records enter the weighted sum as they are. *)
Definition statedTotal (cve : Osv.CVEMetrics)
    (m : DepsDev.MaintenanceMetrics) (c : DepsDev.ComplexityMetrics) : Z :=
  Js.round
    (weightedSum (Calculator.calculateCVEScore (Some cve))
       (DepsDev.score m) (DepsDev.complexityScore c)
       (Calculator.calculateTechnicalLagScore cve (Some m)) 50).

(** The metrics of a package the registry does not know (the answer of
    [getPackageMetrics] when [getPackageInfo] finds nothing): maintenance
    score 0, complexity score 100. *)
Definition unknownPackage : DepsDev.PackageMetrics :=
  DepsDev.getPackageMetrics 0 None None.

(** The risk table as the specification words it. *)
Definition riskTable (t : Z) : Calculator.RiskLevel :=
  if decide (80 <= t) then Calculator.LOW
  else if decide (60 <= t) then Calculator.MEDIUM
  else if decide (40 <= t) then Calculator.ELEVATED
  else if decide (20 <= t) then Calculator.HIGH
  else Calculator.CRITICAL.

Definition inRange (x : Z) : Prop := 0 <= x <= 100.

#[global] Instance RiskLevel_eq_dec : EqDecision Calculator.RiskLevel.
Proof. solve_decision. Defined.

(** What the specification reads off one analysed package. *)
Definition hasScore (p : Analyzer.PackageResult) : Prop :=
  is_Some (Analyzer.score p).

Definition totalOf (p : Analyzer.PackageResult) : Z :=
  from_option Calculator.totalScore 0 (Analyzer.score p).

Definition hoursOf (p : Analyzer.PackageResult) : Z :=
  from_option Calculator.estimatedAnnualMaintenanceHours 0 (Analyzer.score p).

Definition levelOf (p : Analyzer.PackageResult)
    : option Calculator.RiskLevel :=
  Calculator.riskLevel <$> Analyzer.score p.

Definition cvesOf (p : Analyzer.PackageResult) : Z :=
  from_option Osv.totalCVEs 0 (Analyzer.pkgCveMetrics p).

Definition criticalOf (p : Analyzer.PackageResult) : Z :=
  from_option (λ m, Osv.CRITICAL (Osv.bySeverity m)) 0
    (Analyzer.pkgCveMetrics p).

Definition entryOf (p : Analyzer.PackageResult) : Analyzer.RiskEntry :=
  {| Analyzer.entryName := Analyzer.packageName p;
     Analyzer.entryScore := totalOf p;
     Analyzer.entryRisk :=
       from_option Calculator.riskLevel Calculator.CRITICAL
         (Analyzer.score p) |}.

(** Arithmetic sum of a quantity over a list. *)
Definition sumOf {X : Type} (f : X → Z) (l : list X) : Z :=
  foldr (λ x acc, f x + acc) 0 l.

Definition countLevel (level : Calculator.RiskLevel)
    (l : list Analyzer.PackageResult) : Z :=
  Z.of_nat (length (filter (λ p, levelOf p = Some level) l)).

(** The summary the specification describes for the packages [l]: rounded
    mean of the totals, sums of hours, findings and critical findings, a
    count per tier, and the five lowest totals, equal totals in the order
    of [l]. *)
Definition summarises (l : list Analyzer.PackageResult)
    (s : Analyzer.ProjectSummary) : Prop :=
  Analyzer.averageScore s
  = Js.round (inject_Z (sumOf totalOf l) / inject_Z (Z.of_nat (length l)))%Q
  ∧ Analyzer.totalMaintenanceHours s = sumOf hoursOf l
  ∧ Analyzer.totalCVEs s = sumOf cvesOf l
  ∧ Analyzer.totalCriticalCVEs s = sumOf criticalOf l
  ∧ Analyzer.riskDistribution s
    = {| Analyzer.nLOW := countLevel Calculator.LOW l;
         Analyzer.nMEDIUM := countLevel Calculator.MEDIUM l;
         Analyzer.nELEVATED := countLevel Calculator.ELEVATED l;
         Analyzer.nHIGH := countLevel Calculator.HIGH l;
         Analyzer.nCRITICAL := countLevel Calculator.CRITICAL l |}
  ∧ ∃ sorted : list Analyzer.PackageResult,
      Analyzer.highestRiskPackages s = entryOf <$> take 5 sorted
      ∧ sorted ≡ₚ l
      ∧ StronglySorted (λ a b, totalOf a <= totalOf b) sorted
      ∧ ∀ k, filter (λ p, totalOf p = k) sorted
             = filter (λ p, totalOf p = k) l.

(** A pair of the filtered array: the package with its own score. *)
Definition linked (x : Analyzer.PackageResult * Calculator.CompositeScore)
    : Prop :=
  Analyzer.score x.1 = Some x.2.

(** Sample data: the two packages of the specification's example (scores
    80 / LOW and 60 / MEDIUM), and a package whose analysis failed. *)
Definition scoreRecord (total : Z) (level : Calculator.RiskLevel)
    (hours : Z) : Calculator.CompositeScore :=
  {| Calculator.totalScore := total;
     Calculator.riskLevel := level;
     Calculator.estimatedAnnualMaintenanceHours := hours;
     Calculator.breakdown :=
       {| Calculator.historicalCVEs := Calculator.factor 0 0;
          Calculator.maintenanceHealth := Calculator.factor 0 0;
          Calculator.dependencyComplexity := Calculator.factor 0 0;
          Calculator.technicalLag := Calculator.factor 0 0;
          Calculator.communitySignals := Calculator.factor 0 0 |} |}.

Definition findings (total critical : Z) : Osv.CVEMetrics :=
  {| Osv.totalCVEs := total;
     Osv.avgCVEsPerYear := 0;
     Osv.criticalCVEsPerYear := 0;
     Osv.highCVEsPerYear := 0;
     Osv.moderateCVEsPerYear := 0;
     Osv.lowCVEsPerYear := 0;
     Osv.bySeverity :=
       {| Osv.CRITICAL := critical; Osv.HIGH := 0; Osv.MODERATE := 0;
          Osv.LOW := 0; Osv.UNKNOWN := 0 |};
     Osv.byYear := [];
     Osv.oldestCVE := None;
     Osv.newestCVE := None;
     Osv.yearsOfData := None |}.

Definition packageA : Analyzer.PackageResult :=
  {| Analyzer.packageName := "a";
     Analyzer.pkgFound := true;
     Analyzer.score := Some (scoreRecord 80 Calculator.LOW 5);
     Analyzer.pkgCveMetrics := Some (findings 2 0) |}.

Definition packageB : Analyzer.PackageResult :=
  {| Analyzer.packageName := "b";
     Analyzer.pkgFound := true;
     Analyzer.score := Some (scoreRecord 60 Calculator.MEDIUM 10);
     Analyzer.pkgCveMetrics := Some (findings 5 1) |}.

Definition twoPackages : list Analyzer.PackageResult := [packageA; packageB].

(** What the loop of [maxSatisfying] has established after the versions
    [seen]: [max] is one of them, passes the test, and none that passes is
    higher; or none passes. *)
Definition isMax (rangeObj : list Semver.Comparator) (seen : list string)
    (max : option string) : Prop :=
  match max with
  | Some v =>
    v ∈ seen ∧ Semver.test rangeObj v = true
    ∧ ∀ w, w ∈ seen → Semver.test rangeObj w = true →
           Semver.lessThan v w = false
  | None => ∀ w, w ∈ seen → Semver.test rangeObj w = false
  end.

(** What the semver package documents of [maxSatisfying]: it returns the
    highest version of the list that satisfies the range, or [null] if none
    of them does.  [satisfies] and [gt] stand for the package's functions
    of these names: [satisfies v range] for "the version satisfies the
    range", [gt w v] for "[w] is greater than [v]". *)
Definition returnsHighest (satisfies gt : string → string → bool)
    (maxSatisfying : list string → string → option string) : Prop :=
  ∀ (versions : list string) (range : string),
    match maxSatisfying versions range with
    | Some v =>
      v ∈ versions ∧ satisfies v range = true
      ∧ ∀ w, w ∈ versions → satisfies w range = true → gt w v = false
    | None => ∀ w, w ∈ versions → satisfies w range = false
    end.

(** The published versions of the specification's example. *)
Definition published : list string :=
  ["1.0.0"; "1.2.0"; "1.2.5"; "2.0.0"; "2.1.0"; "3.0.0"; "4.17.21";
   "4.18.0"; "4.18.2"].

Definition uncachedOf (cache : gmap string (list Osv.Vuln))
    (names : list string) : list string :=
  filter (λ n, cache !! n = None) names.

Definition cachedOf (cache : gmap string (list Osv.Vuln))
    (names : list string) : list string :=
  filter (λ n, is_Some (cache !! n)) names.

(** The finding list one query yields for a name. *)
Definition fetched (fetch : string → Osv.Response) (name : string) : list Osv.Vuln :=
  Osv.vulnsOf (Osv.queryVulnerabilities fetch name).

(** Storing the answers for [names] into a state. *)
Definition stored (fetch : string → Osv.Response) (st : Osv.BatchState) (names : list string)
    : Osv.BatchState :=
  Osv.storeBatch st (Osv.runBatch fetch names).

(** Querying and storing [names]: what a run of batches amounts to. *)
Definition processed (fetch : string → Osv.Response)
    (st : Osv.BatchState) (names : list string)
    : Osv.BatchState :=
  Osv.issue (stored fetch st names) names.

(** The state the batch function ends in. *)
Definition batchEnd (fetch : string → Osv.Response) (names : list string)
    (cache : gmap string (list Osv.Vuln)) : Osv.BatchState :=
  processed fetch
    {| Osv.cache := cache;
       Osv.results := (Osv.partitionNames cache names [] []).1;
       Osv.queried := [] |}
    (uncachedOf cache names).

(** Sample service: package "a" has one finding, the query for "b" fails,
    every other package answers without a [vulns] field.  The cache holds
    "c". *)
Definition findingA : Osv.Vuln :=
  {| Osv.id := Some "CVE-1"; Osv.published := None; Osv.summary := "from a" |}.

Definition findingC : Osv.Vuln :=
  {| Osv.id := Some "CVE-1"; Osv.published := None; Osv.summary := "from c" |}.

Definition sampleFetch (name : string) : Osv.Response :=
  if decide (name = "a") then Osv.Ok {| Osv.vulns := Some [findingA] |}
  else if decide (name = "b") then Osv.NetworkError
  else Osv.Ok {| Osv.vulns := None |}.

Definition sampleCache : gmap string (list Osv.Vuln) :=
  {[ "c" := [findingC] ]}.

(** The identifier of a finding: an [id] that is present and not empty. *)
Definition identified (v : Osv.Vuln) : option string :=
  match Osv.id v with
  | Some i => if Js.truthy i then Some i else None
  | None => None
  end.

(** First occurrences: walk the findings in order and keep each one whose
    identifier has not been met ([seen] lists the identifiers met so far). *)
Fixpoint firstEntries (seen : list string) (l : list Osv.Vuln)
    : list (string * Osv.Vuln) :=
  match l with
  | [] => []
  | v :: l' =>
    match identified v with
    | Some i =>
      if decide (i ∈ seen) then firstEntries seen l'
      else (i, v) :: firstEntries (seen ++ [i]) l'
    | None => firstEntries seen l'
    end
  end.

Definition firstPerId (l : list Osv.Vuln) : list Osv.Vuln :=
  (firstEntries [] l).*2.

(** The first finding of [l] with identifier [i]. *)
Definition firstWith (i : string) (l : list Osv.Vuln) : option Osv.Vuln :=
  head (filter (λ v, identified v = Some i) l).

(** The findings of a mapping, read in the order in which the names were
    requested: the order the claim C5 states. *)
Definition inRequestOrder (names : list string) (m : Js.Map (list Osv.Vuln))
    : list Osv.Vuln :=
  concat ((λ n, default [] (Js.get m n)) <$> names).

(** A finding without an identifier, and one whose identifier is empty. *)
Definition anonymous : Osv.Vuln :=
  {| Osv.id := None; Osv.published := None; Osv.summary := "no id" |}.

Definition emptyId : Osv.Vuln :=
  {| Osv.id := Some ""; Osv.published := None; Osv.summary := "empty id" |}.



(** The entry of the tree that stands for the package itself. *)
Definition rootOnly (packageName : string) (resolved : option string)
    : list DepsDev.TreePackage :=
  [ {| DepsDev.pkg_name := packageName;
       DepsDev.pkg_version := resolved;
       DepsDev.relation := "SELF" |} ].

(** Sample registry: package "pkg" with three versions; only the oldest,
    1.0.0, has a dependency graph. *)
Definition release (v : string) (date : Z) : DepsDev.VersionEntry :=
  {| DepsDev.versionKey := Some {| DepsDev.name := "pkg"; DepsDev.version := v |};
     DepsDev.publishedAt := Some date |}.

Definition sampleVersions : list DepsDev.VersionEntry :=
  [release "1.0.0" 100; release "1.1.0" 200; release "2.0.0" 300].

Definition sampleInfo (name : string) : option DepsDev.PackageInfo :=
  if decide (name = "pkg")
  then Some {| DepsDev.versions := Some sampleVersions |}
  else None.

Definition sampleGraph : DepsDev.DependencyGraph :=
  {| DepsDev.nodes :=
       Some [ {| DepsDev.node_versionKey :=
                   Some {| DepsDev.name := "pkg"; DepsDev.version := "1.0.0" |};
                 DepsDev.node_relation := "SELF" |};
              {| DepsDev.node_versionKey :=
                   Some {| DepsDev.name := "dep"; DepsDev.version := "0.1.0" |};
                 DepsDev.node_relation := "DIRECT" |} ] |}.

Definition sampleGraphs (name v : string) : option DepsDev.DependencyGraph :=
  if decide (name = "pkg" ∧ v = "1.0.0") then Some sampleGraph else None.

Definition countFindings (vulns : list Osv.Vuln) : Osv.CVEMetrics :=
  findings (Z.of_nat (length vulns)) 0.

(** Double precision.  The weighted sum as the code computes it on IEEE
    doubles: the weights are the doubles nearest to 0.50, 0.10, 0.15, 0.15
    and 0.10, and the sum is taken from left to right. *)
Module Double.
Import PrimFloat.

Fixpoint ofPos (p : positive) : float :=
  match p with
  | xH => 1%float
  | xO p' => (2 * ofPos p')%float
  | xI p' => (2 * ofPos p' + 1)%float
  end.

(** The double for an integer below 2^53 in absolute value. *)
Definition ofZ (z : Z) : float :=
  match z with
  | Z0 => 0%float
  | Zpos p => ofPos p
  | Zneg p => (- ofPos p)%float
  end.

Definition weighted (cve maintenance complexity lag : Z)
    : float :=
  (ofZ cve * 0.5
   + ofZ maintenance * 0x1.999999999999ap-4
   + ofZ complexity * 0x1.3333333333333p-3
   + ofZ lag * 0x1.3333333333333p-3
   + ofZ 50 * 0x1.999999999999ap-4)%float.

(** [Math.round(x)] is [r]: [r - 0.5 <= x < r + 0.5]. *)
Definition roundsTo (x : float) (r : Z) : bool :=
  PrimFloat.leb (ofZ r - 0.5)%float x
  && PrimFloat.ltb x (ofZ r + 0.5)%float.

End Double.

(** The values the four computed sub-scores can take. *)
Definition cveScores : list Z :=
  [100; 90; 85; 80; 75; 70; 65; 60; 55; 50; 45; 40; 35; 30; 25; 20; 15; 10;
   5; 0].

Definition maintenanceScores : list Z :=
  [100; 90; 85; 80; 75; 70; 65; 60; 50; 45; 40; 30; 25; 10].

Definition complexityScores : list Z :=
  [100; 95; 90; 85; 80; 75; 70; 65; 60; 55; 50; 45; 40; 35; 30].

Definition lagScores : list Z :=
  [100; 85; 75; 70; 60; 55; 50; 45; 35; 30; 25; 10].

Definition doublesAgree : bool :=
  forallb (λ a, forallb (λ b, forallb (λ c, forallb (λ d,
    Double.roundsTo (Double.weighted a b c d)
      ((50 * a + 10 * b + 15 * c + 15 * d + 550) / 100))
    lagScores) complexityScores) maintenanceScores) cveScores.

(** ** Notions and sample data for the further properties *)

(** The days since the last release as [calculateTechnicalLagScore] reads
    them, and the critical and high findings it adds up. *)
Definition lagDays (m : option DepsDev.MaintenanceMetrics) : Z :=
  Js.num_or (m ≫= DepsDev.daysSinceLastRelease) 0.

Definition severeFindings (cve : Osv.CVEMetrics) : Z :=
  Osv.CRITICAL (Osv.bySeverity cve) + Osv.HIGH (Osv.bySeverity cve).

(** The risk levels from worst to best. *)
Definition riskRank (r : Calculator.RiskLevel) : Z :=
  match r with
  | Calculator.CRITICAL => 0
  | Calculator.HIGH => 1
  | Calculator.ELEVATED => 2
  | Calculator.MEDIUM => 3
  | Calculator.LOW => 4
  end.

(** The release frequency [estimateMaintenanceHours] reads. *)
Definition frequencyOf (pm : DepsDev.PackageMetrics) : option string :=
  DepsDev.releaseFrequency <$> DepsDev.maintenance pm.

(** The sum of the five [weightedScore] fields of a breakdown. *)
Definition weightedTotal (b : Calculator.Breakdown) : Z :=
  Calculator.weightedScore (Calculator.historicalCVEs b)
  + Calculator.weightedScore (Calculator.maintenanceHealth b)
  + Calculator.weightedScore (Calculator.dependencyComplexity b)
  + Calculator.weightedScore (Calculator.technicalLag b)
  + Calculator.weightedScore (Calculator.communitySignals b).

(** Sample metrics whose weighted scores all end in one half: CVE sub-score
    65, maintenance 45, complexity 90, technical lag 30. *)
Definition unevenFindings : Osv.CVEMetrics :=
  {| Osv.totalCVEs := 8;
     Osv.avgCVEsPerYear := 2;
     Osv.criticalCVEsPerYear := 3 # 2;
     Osv.highCVEsPerYear := 1 # 2;
     Osv.moderateCVEsPerYear := 0;
     Osv.lowCVEsPerYear := 0;
     Osv.bySeverity :=
       {| Osv.CRITICAL := 6; Osv.HIGH := 2; Osv.MODERATE := 0;
          Osv.LOW := 0; Osv.UNKNOWN := 0 |};
     Osv.byYear := [(2020, 4); (2024, 4)];
     Osv.oldestCVE := Some "2020-01-01";
     Osv.newestCVE := Some "2024-01-01";
     Osv.yearsOfData := Some 4%Q |}.

Definition unevenPackage : DepsDev.PackageMetrics :=
  {| DepsDev.found := true;
     DepsDev.maintenance :=
       Some {| DepsDev.score := 45;
               DepsDev.lastReleaseDate := Some 0;
               DepsDev.daysSinceLastRelease := Some 400;
               DepsDev.releaseFrequency := "low";
               DepsDev.releasesPerYear := Some (1 # 2);
               DepsDev.totalVersions := 3;
               DepsDev.activelyMaintained := false |};
     DepsDev.complexity :=
       Some {| DepsDev.complexityScore := 90;
               DepsDev.directDependencies := 4;
               DepsDev.totalDependencies := 60;
               DepsDev.complexityLevel := "moderate" |} |}.

(** The weighted score of one factor on doubles, for the sub-scores 0 to
    100 and the weights 0.50, 0.10 and 0.15. *)
Module DoubleFactor.
Import PrimFloat.

Definition agrees (score : Z) : bool :=
  Double.roundsTo (Double.ofZ score * 0.5)%float
    (Js.round (inject_Z score * (50 # 100))%Q)
  && Double.roundsTo (Double.ofZ score * 0x1.999999999999ap-4)%float
       (Js.round (inject_Z score * (10 # 100))%Q)
  && Double.roundsTo (Double.ofZ score * 0x1.3333333333333p-3)%float
       (Js.round (inject_Z score * (15 # 100))%Q).

End DoubleFactor.

Definition factorsAgree : bool :=
  forallb DoubleFactor.agrees (Z.of_nat <$> seq 0 101).

(** The hours estimate on the binary64 numbers of the kernel, as the code
    adds it up, for rates given in hundredths (the rates of
    [calculateCVEMetrics] have two decimals). *)
Module DoubleHours.
Import PrimFloat.

Definition hours (avgCVEsPerYear criticalPerYear directDeps : Z)
    (releaseFrequency : string) : float :=
  let hours := 0%float in
  let hours := (hours + 2)%float in
  let hours := (hours + (Double.ofZ avgCVEsPerYear / 100) * 2)%float in
  let hours := (hours + (Double.ofZ criticalPerYear / 100) * 4)%float in
  let hours :=
    (hours + Double.ofZ directDeps * 0x1.999999999999ap-3)%float in
  if bool_decide (releaseFrequency = "abandoned") then (hours + 10)%float
  else if bool_decide (releaseFrequency = "low") then (hours + 5)%float
  else hours.

End DoubleHours.

(** Metrics with the given rates (in hundredths), direct dependencies and
    release frequency. *)
Definition ratedFindings (avgCVEsPerYear criticalPerYear : Z)
    : Osv.CVEMetrics :=
  {| Osv.totalCVEs := 1;
     Osv.avgCVEsPerYear := inject_Z avgCVEsPerYear / 100;
     Osv.criticalCVEsPerYear := inject_Z criticalPerYear / 100;
     Osv.highCVEsPerYear := 0;
     Osv.moderateCVEsPerYear := 0;
     Osv.lowCVEsPerYear := 0;
     Osv.bySeverity :=
       {| Osv.CRITICAL := 0; Osv.HIGH := 0; Osv.MODERATE := 0;
          Osv.LOW := 0; Osv.UNKNOWN := 0 |};
     Osv.byYear := [];
     Osv.oldestCVE := None;
     Osv.newestCVE := None;
     Osv.yearsOfData := None |}.

Definition packageWith (directDeps : Z) (releaseFrequency : string)
    : DepsDev.PackageMetrics :=
  {| DepsDev.found := true;
     DepsDev.maintenance :=
       Some {| DepsDev.score := 50;
               DepsDev.lastReleaseDate := None;
               DepsDev.daysSinceLastRelease := None;
               DepsDev.releaseFrequency := releaseFrequency;
               DepsDev.releasesPerYear := None;
               DepsDev.totalVersions := 1;
               DepsDev.activelyMaintained := false |};
     DepsDev.complexity :=
       Some {| DepsDev.complexityScore := 50;
               DepsDev.directDependencies := directDeps;
               DepsDev.totalDependencies := directDeps;
               DepsDev.complexityLevel := "moderate" |} |}.

(** Sample rates, dependency counts and release frequencies; they include
    the rates 1.97 and 0.99 with three direct dependencies, where the sum
    on doubles is just below 10.5 and the exact sum is 10.5. *)
Definition sampleRates : list Z := [0; 7; 33; 99; 125; 197; 1001].

Definition sampleCounts : list Z := [0; 1; 3; 7; 57].

Definition sampleFrequencies : list string :=
  ["abandoned"; "low"; "moderate"].

Definition hoursAgree : bool :=
  forallb (λ a, forallb (λ c, forallb (λ d, forallb (λ f,
    Double.roundsTo (DoubleHours.hours a c d f)
      (Calculator.estimateMaintenanceHours
         (ratedFindings a c) (packageWith d f)))
    sampleFrequencies) sampleCounts) sampleRates) sampleRates.

(** A transitive result for a tree of one package with the given metrics. *)
Definition singleTree (cve : Osv.CVEMetrics) : Analyzer.TransitiveResult :=
  {| Analyzer.cveMetrics := cve;
     Analyzer.transitivePackageCount := 0;
     Analyzer.directPackageCount := 0;
     Analyzer.totalPackagesInTree := 1;
     Analyzer.packageNames := ["pkg"] |}.

(** The two years of [calculateMaintenanceMetrics], in milliseconds. *)
Definition twoYears : Z := 2 * 365 * 24 * 60 * 60 * 1000.

(** A version entry published within the last two years. *)
Definition recentRelease (now : Z) (v : DepsDev.VersionEntry) : Prop :=
  now - twoYears < DepsDev.dateOf v.

(** A package whose only release is 1000 days old. *)
Definition staleInfo : DepsDev.PackageInfo :=
  {| DepsDev.versions := Some [release "1.0.0" 0] |}.

(** Version metadata declaring the given dependencies. *)
Definition declaring (deps : list string) : option DepsDev.VersionInfo :=
  Some {| DepsDev.dependencies := Some deps |}.

(** The package a graph node stands for; none for a node without version
    key. *)
Definition packageOf (node : DepsDev.GraphNode)
    : option DepsDev.TreePackage :=
  (λ k, {| DepsDev.pkg_name := DepsDev.name k;
           DepsDev.pkg_version := Some (DepsDev.version k);
           DepsDev.relation :=
             if Js.truthy (DepsDev.node_relation node)
             then DepsDev.node_relation node else "UNKNOWN" |})
  <$> DepsDev.node_versionKey node.

(** The key name@version of a package. *)
Definition packageKey (p : DepsDev.TreePackage) : string :=
  DepsDev.pkg_name p +:+ "@" +:+ default "" (DepsDev.pkg_version p).

(** The first item per key, in the order of the list, leaving out the keys
    in [seen]. *)
Fixpoint firstBy {X : Type} (key : X → string) (seen : gset string)
    (l : list X) : list X :=
  match l with
  | [] => []
  | x :: l' =>
    if decide (key x ∈ seen) then firstBy key seen l'
    else x :: firstBy key ({[key x]} ∪ seen) l'
  end.

(** The release frequency by the number of releases of the last two years,
    and the complexity score by the number of declared dependencies. *)
Definition frequencyByCount (n : nat) : string :=
  if (24 <? n)%nat then "very active"
  else if (12 <? n)%nat then "active"
  else if (4 <? n)%nat then "moderate"
  else if (0 <? n)%nat then "low"
  else "abandoned".

Definition scoreByDeclared (n : nat) : Z :=
  if (50 <? n)%nat then 30
  else if (33 <? n)%nat then 35
  else if (30 <? n)%nat then 50
  else if (15 <? n)%nat then 55
  else if (13 <? n)%nat then 60
  else if (6 <? n)%nat then 75
  else if (5 <? n)%nat then 85
  else if (3 <? n)%nat then 90
  else 100.

Definition levelByDeclared (n : nat) : string :=
  if (33 <? n)%nat then "very high"
  else if (13 <? n)%nat then "high"
  else if (3 <? n)%nat then "moderate"
  else "low".

(** The number of findings that carry the severity label [k]. *)
Definition labelled (k : string) (vulnerabilities : list Osv.Advisory) : Z :=
  Z.of_nat (length (filter (λ v, Osv.severityOf v = k) vulnerabilities)).

(** The sum of all counters of a [bySeverity] object. *)
Definition sumCounters (bySeverity : gmap string Z) : Z :=
  map_fold (λ _ n acc, n + acc) 0 bySeverity.

(** A finding whose only severity information is one CVSS_V3 entry with
    the given score. *)
Definition cvssOnly (score : option Q) : Osv.Advisory :=
  {| Osv.database_severity := None;
     Osv.severity :=
       Some [ {| Osv.sev_type := "CVSS_V3"; Osv.sev_score := score |} ] |}.

(** Sample findings: one labelled by the database in lower case, one with a
    CVSS vector that is no number, one without any severity. *)
Definition labelledFinding : Osv.Advisory :=
  {| Osv.database_severity := Some "medium";
     Osv.severity :=
       Some [ {| Osv.sev_type := "CVSS_V3"; Osv.sev_score := Some (98 # 10) |} ] |}.

Definition vectorFinding : Osv.Advisory :=
  {| Osv.database_severity := None;
     Osv.severity :=
       Some [ {| Osv.sev_type := "CVSS_V2"; Osv.sev_score := Some (75 # 10) |};
              {| Osv.sev_type := "CVSS_V3"; Osv.sev_score := None |} ] |}.

Definition bareFinding : Osv.Advisory :=
  {| Osv.database_severity := None; Osv.severity := None |}.



(** A registry that knows no package. *)
Definition emptyRegistry (name : string) : option DepsDev.PackageInfo := None.

Definition noGraphs (name v : string) : option DepsDev.DependencyGraph := None.

(** The name and range of a dependency record. *)
Definition entryOfDependency (d : Analyzer.Dependency) : string * string :=
  (Analyzer.dep_name d, Analyzer.dep_version d).

(** [listed] enumerates the properties of [object] in the order of the
    language: each property once, those named by an array index first, in
    ascending order of the index, then the others in the order of the
    object. *)
Definition enumerates {V : Type} (object listed : list (string * V))
    : Prop :=
  listed ≡ₚ object
  ∧ ∃ indexed,
      listed = indexed ++ filter (λ p, Js.arrayIndex p.1 = None) object
      ∧ Forall (λ p, is_Some (Js.arrayIndex p.1)) indexed
      ∧ StronglySorted (λ a b, Js.indexOf a <= Js.indexOf b) indexed.

(** The number of packages a risk distribution counts. *)
Definition distributionTotal (c : Analyzer.RiskCounts) : Z :=
  Analyzer.nLOW c + Analyzer.nMEDIUM c + Analyzer.nELEVATED c
  + Analyzer.nHIGH c + Analyzer.nCRITICAL c.

(* ===================================================================== *)
(** * Properties *)
(* ===================================================================== *)

(** ** Arithmetic helpers *)

Lemma Qgtb_true (a b : Q) : Js.Qgtb a b = true ↔ (b < a)%Q.
Proof.
  unfold Js.Qgtb. rewrite negb_true_iff. split.
  - intros H. destruct (Qlt_le_dec b a) as [Hlt | Hle]; [exact Hlt |].
    apply Qle_bool_iff in Hle. congruence.
  - intros H. apply not_true_is_false. intros Hle.
    apply Qle_bool_iff in Hle. exact (Qlt_not_le _ _ H Hle).
Qed.

Lemma Qgtb_false (a b : Q) : Js.Qgtb a b = false ↔ (a <= b)%Q.
Proof.
  unfold Js.Qgtb. rewrite negb_false_iff. apply Qle_bool_iff.
Qed.

Lemma clamp_range (x : Z) : 0 <= Js.clamp x <= 100.
Proof. unfold Js.clamp. lia. Qed.

Lemma clamp_id (x : Z) : 0 <= x <= 100 → Js.clamp x = x.
Proof. unfold Js.clamp. lia. Qed.

(** [Math.round] of a fraction with a positive denominator. *)
Lemma round_fraction (n : Z) (d : positive) :
  Js.round (n # d) = (2 * n + Z.pos d) / (2 * Z.pos d).
Proof.
  unfold Js.round.
  assert (Heq : ((n # d) + (1 # 2) == (2 * n + Z.pos d) # (2 * d))%Q).
  { unfold Qeq, Qplus. simpl. lia. }
  rewrite (Qfloor_comp _ _ Heq). reflexivity.
Qed.

(** The weighted sum of [calculateCompositeScore] in integer arithmetic. *)
Lemma weighted_round (a b c d : Z) :
  Js.round
    (inject_Z a * Calculator.w_historicalCVEs Calculator.WEIGHTS
     + inject_Z b * Calculator.w_maintenance Calculator.WEIGHTS
     + inject_Z c * Calculator.w_complexity Calculator.WEIGHTS
     + inject_Z d * Calculator.w_technicalLag Calculator.WEIGHTS
     + inject_Z 50 * Calculator.w_communitySignals Calculator.WEIGHTS)%Q
  = (50 * a + 10 * b + 15 * c + 15 * d + 550) / 100.
Proof.
  unfold Js.round.
  assert (Heq :
    (inject_Z a * Calculator.w_historicalCVEs Calculator.WEIGHTS
     + inject_Z b * Calculator.w_maintenance Calculator.WEIGHTS
     + inject_Z c * Calculator.w_complexity Calculator.WEIGHTS
     + inject_Z d * Calculator.w_technicalLag Calculator.WEIGHTS
     + inject_Z 50 * Calculator.w_communitySignals Calculator.WEIGHTS
     + (1 # 2)
     == (50 * a + 10 * b + 15 * c + 15 * d + 550) # 100)%Q).
  { unfold Qeq, Qplus, Qmult, inject_Z. simpl. lia. }
  rewrite (Qfloor_comp _ _ Heq). reflexivity.
Qed.

(** ** The CVE sub-score *)

(** Decide one threshold test of the code on the specification's side. *)
Ltac band_case :=
  match goal with
  | |- context [Js.Qgtb ?a ?b] =>
    let H := fresh "H" in
    destruct (Js.Qgtb a b) eqn:H;
    [ apply Qgtb_true in H | apply Qgtb_false in H ]
  | |- context [Qlt_le_dec ?b ?a] =>
    let H := fresh "H" in destruct (Qlt_le_dec b a) as [H | H]
  end.

Ltac band_contradiction :=
  match goal with
  | H1 : (?b < ?a)%Q, H2 : (?a <= ?b)%Q |- _ =>
    exfalso; exact (Qlt_not_le _ _ H1 H2)
  end.

Lemma avgBand_code (r : Q) (score : Z) :
  (if Js.Qgtb r 10 then score - 70
   else if Js.Qgtb r 5 then score - 50
   else if Js.Qgtb r 2 then score - 30
   else if Js.Qgtb r 1 then score - 20
   else if Js.Qgtb r (1 # 2) then score - 10
   else score) = score - avgBand r.
Proof.
  unfold avgBand.
  repeat (band_case; try band_contradiction; try lia).
Qed.

Lemma criticalBand_code (r : Q) (score : Z) :
  (if Js.Qgtb r 2 then score - 20
   else if Js.Qgtb r 1 then score - 15
   else if Js.Qgtb r (1 # 2) then score - 10
   else score) = score - criticalBand r.
Proof.
  unfold criticalBand.
  repeat (band_case; try band_contradiction; try lia).
Qed.

Lemma highBand_code (r : Q) (score : Z) :
  (if Js.Qgtb r 3 then score - 15
   else if Js.Qgtb r 1 then score - 10
   else score) = score - highBand r.
Proof.
  unfold highBand.
  repeat (band_case; try band_contradiction; try lia).
Qed.

(** C7.  [calculateCVEScore] returns exactly 100 for metrics with zero total
    findings; for metrics with a non-zero total it returns 100 less the
    [avgCVEsPerYear] band (>10: 70, >5: 50, >2: 30, >1: 20, >0.5: 10), less
    the [criticalCVEsPerYear] band (>2: 20, >1: 15, >0.5: 10), less the
    [highCVEsPerYear] band (>3: 15, >1: 10), clamped to [0, 100]. *)
Theorem calculateCVEScore_bands (m : Osv.CVEMetrics) :
  (Osv.totalCVEs m = 0 → Calculator.calculateCVEScore (Some m) = 100)
  ∧ (Osv.totalCVEs m ≠ 0 →
     Calculator.calculateCVEScore (Some m)
     = Z.max 0
         (Z.min 100
            (100 - avgBand (Osv.avgCVEsPerYear m)
             - criticalBand (Osv.criticalCVEsPerYear m)
             - highBand (Osv.highCVEsPerYear m)))).
Proof.
  unfold Calculator.calculateCVEScore. split.
  - intros ->. reflexivity.
  - intros Hne. apply Z.eqb_neq in Hne. rewrite Hne. cbv zeta.
    rewrite avgBand_code, criticalBand_code, highBand_code.
    reflexivity.
Qed.

Lemma calculateCVEScore_bands_witness :
  Calculator.calculateCVEScore (Some noFindings) = 100
  ∧ Calculator.calculateCVEScore (Some manyFindings) = 0.
Proof.
  split.
  - apply (proj1 (calculateCVEScore_bands noFindings)). reflexivity.
  - rewrite (proj2 (calculateCVEScore_bands manyFindings)).
    + reflexivity.
    + discriminate.
Defined.

(** ** Complexity and maintenance metrics *)

Lemma totalBand_code (total score : Z) :
  (if 500 <? total then score - 50
   else if 200 <? total then score - 35
   else if 100 <? total then score - 20
   else if 50 <? total then score - 10
   else score) = score - totalBand total.
Proof.
  unfold totalBand.
  repeat case_decide; repeat (case_match; try lia).
Qed.

Lemma directBand_code (direct score : Z) :
  (if 50 <? direct then score - 20
   else if 30 <? direct then score - 15
   else if 15 <? direct then score - 10
   else if 5 <? direct then score - 5
   else score) = score - directBand direct.
Proof.
  unfold directBand.
  repeat case_decide; repeat (case_match; try lia).
Qed.

(** C8, counterexample.  Without version metadata but with an override of
    600 total dependencies, the code returns the override as the count and
    the score 100 and level "low"; the band for more than 500 dependencies
    would give 50. *)
Lemma calculateComplexityMetrics_override_only :
  let overrides :=
    {| DepsDev.ov_directDependencies := None;
       DepsDev.ov_totalDependencies := Some 600 |} in
  let m := DepsDev.calculateComplexityMetrics None overrides in
  DepsDev.totalDependencies m = 600
  ∧ DepsDev.directDependencies m = 0
  ∧ DepsDev.complexityScore m = 100
  ∧ DepsDev.complexityLevel m = "low"
  ∧ statedComplexityScore 0 600 = 50.
Proof. repeat split. Qed.

(** C8, as amended.  With version metadata that lists its dependencies,
    [calculateComplexityMetrics] takes [directDependencies] from the override
    when one is given and else the declared count, [totalDependencies] from
    the override when one is given and else [directDependencies * 15]; the
    score is 100 less the total-dependency band (>500: 50, >200: 35,
    >100: 20, >50: 10) and less the direct-dependency band (>50: 20,
    >30: 15, >15: 10, >5: 5), clamped to [0, 100].  Without such metadata
    it returns score 100 and level "low" whatever the overrides, and the
    counts are the overrides (0 for an override that is missing or 0); so
    with no input and no overrides it returns score 100, zero counts and
    level "low". *)
Theorem calculateComplexityMetrics_spec :
  (∀ (deps : list string) (overrides : DepsDev.Overrides),
     let m :=
       DepsDev.calculateComplexityMetrics
         (Some {| DepsDev.dependencies := Some deps |}) overrides in
     let direct :=
       match DepsDev.ov_directDependencies overrides with
       | Some n => n
       | None => Z.of_nat (length deps)
       end in
     let total :=
       match DepsDev.ov_totalDependencies overrides with
       | Some n => n
       | None => direct * 15
       end in
     DepsDev.directDependencies m = direct
     ∧ DepsDev.totalDependencies m = total
     ∧ DepsDev.complexityScore m = statedComplexityScore direct total
     ∧ 0 <= DepsDev.complexityScore m <= 100)
  ∧ (∀ (versionInfo : option DepsDev.VersionInfo)
       (overrides : DepsDev.Overrides),
       versionInfo ≫= DepsDev.dependencies = None →
       DepsDev.calculateComplexityMetrics versionInfo overrides
       = {| DepsDev.complexityScore := 100;
            DepsDev.directDependencies :=
              default 0 (DepsDev.ov_directDependencies overrides);
            DepsDev.totalDependencies :=
              default 0 (DepsDev.ov_totalDependencies overrides);
            DepsDev.complexityLevel := "low" |})
  ∧ DepsDev.calculateComplexityMetrics None DepsDev.no_overrides
    = {| DepsDev.complexityScore := 100;
         DepsDev.directDependencies := 0;
         DepsDev.totalDependencies := 0;
         DepsDev.complexityLevel := "low" |}.
Proof.
  split; [| split; [| reflexivity]].
  - intros deps overrides. cbv zeta.
    unfold DepsDev.calculateComplexityMetrics, statedComplexityScore. simpl.
    rewrite totalBand_code, directBand_code.
    repeat split; try reflexivity; apply clamp_range.
  - intros versionInfo overrides Hnone.
    unfold DepsDev.calculateComplexityMetrics. rewrite Hnone.
    assert (Hor : ∀ o, Js.num_or o 0 = default 0 o).
    { intros [n |]; simpl; [| reflexivity].
      destruct (Z.eqb_spec n 0); congruence. }
    rewrite !Hor. reflexivity.
Qed.

Lemma calculateComplexityMetrics_spec_witness :
  DepsDev.calculateComplexityMetrics
    (Some {| DepsDev.dependencies := None |})
    {| DepsDev.ov_directDependencies := Some 60;
       DepsDev.ov_totalDependencies := None |}
  = {| DepsDev.complexityScore := 100;
       DepsDev.directDependencies := 60;
       DepsDev.totalDependencies := 0;
       DepsDev.complexityLevel := "low" |}.
Proof.
  apply (proj1 (proj2 calculateComplexityMetrics_spec)). reflexivity.
Defined.

Lemma complexityScore_range (versionInfo : option DepsDev.VersionInfo)
    (overrides : DepsDev.Overrides) :
  0 <= DepsDev.complexityScore
         (DepsDev.calculateComplexityMetrics versionInfo overrides) <= 100.
Proof.
  unfold DepsDev.calculateComplexityMetrics.
  destruct (versionInfo ≫= DepsDev.dependencies); simpl.
  - apply clamp_range.
  - lia.
Qed.

Lemma maintenanceScore_range (now : Z)
    (packageInfo : option DepsDev.PackageInfo) :
  0 <= DepsDev.score (DepsDev.calculateMaintenanceMetrics now packageInfo)
    <= 100.
Proof.
  unfold DepsDev.calculateMaintenanceMetrics.
  destruct (packageInfo ≫= DepsDev.versions); simpl.
  - apply clamp_range.
  - lia.
Qed.

(** ** The composite score *)

Lemma cveScore_range (m : option Osv.CVEMetrics) :
  0 <= Calculator.calculateCVEScore m <= 100.
Proof.
  unfold Calculator.calculateCVEScore.
  destruct m as [m |]; [| lia].
  destruct (Osv.totalCVEs m =? 0); [lia |]. apply clamp_range.
Qed.

Lemma technicalLagScore_range (cve : Osv.CVEMetrics)
    (m : option DepsDev.MaintenanceMetrics) :
  0 <= Calculator.calculateTechnicalLagScore cve m <= 100.
Proof. unfold Calculator.calculateTechnicalLagScore. apply clamp_range. Qed.

Lemma num_or_effective (score : option Z) :
  Js.num_or score 50 = effectiveScore score.
Proof.
  unfold Js.num_or, effectiveScore. destruct score as [s |]; [| reflexivity].
  case_decide; destruct (Z.eqb_spec s 0); congruence.
Qed.

Lemma effectiveScore_range (score : option Z) :
  (∀ s, score = Some s → 0 <= s <= 100) →
  0 <= effectiveScore score <= 100.
Proof.
  intros H. unfold effectiveScore. destruct score as [s |]; [| lia].
  case_decide; [lia | apply H; reflexivity].
Qed.

Lemma weightedSum_round (a b c d : Z) :
  Js.round (weightedSum a b c d 50)
  = (50 * a + 10 * b + 15 * c + 15 * d + 550) / 100.
Proof.
  unfold Js.round, weightedSum.
  assert (Heq :
    ((1 # 2) * inject_Z a + (1 # 10) * inject_Z b + (15 # 100) * inject_Z c
     + (15 # 100) * inject_Z d + (1 # 10) * inject_Z 50 + (1 # 2)
     == (50 * a + 10 * b + 15 * c + 15 * d + 550) # 100)%Q).
  { unfold Qeq, Qplus, Qmult, inject_Z. simpl. lia. }
  rewrite (Qfloor_comp _ _ Heq). reflexivity.
Qed.

(** C1, counterexample.  For a package without findings that the registry
    does not know, the code returns 90: the maintenance score 0 is replaced
    by 50.  The total stated by the claim is 85. *)
Lemma calculateCompositeScore_zero_score :
  DepsDev.maintenance unknownPackage = Some DepsDev.unknownMaintenance
  ∧ DepsDev.score DepsDev.unknownMaintenance = 0
  ∧ Calculator.totalScore
      (Calculator.calculateCompositeScore noFindings unknownPackage) = 90
  ∧ statedTotal noFindings DepsDev.unknownMaintenance
      (DepsDev.calculateComplexityMetrics None DepsDev.no_overrides) = 85.
Proof. repeat split. Qed.

(** C1, as amended.  For every CVE metrics and every package-metrics record,
    [totalScore] is the rounded weighted sum 0.50 * (CVE sub-score)
    + 0.10 * (maintenance sub-score) + 0.15 * (complexity sub-score)
    + 0.15 * (technical-lag sub-score) + 0.10 * 50, where the maintenance
    and complexity sub-scores are the [score] fields of the supplied
    records, except that a score that is 0 or missing counts as 50; the
    breakdown reports these sub-scores, and 50 for the community factor. *)
Theorem calculateCompositeScore_total (cve : Osv.CVEMetrics)
    (pm : DepsDev.PackageMetrics) :
  let s := Calculator.calculateCompositeScore cve pm in
  let maintenanceScore :=
    effectiveScore (DepsDev.score <$> DepsDev.maintenance pm) in
  let complexityScore :=
    effectiveScore (DepsDev.complexityScore <$> DepsDev.complexity pm) in
  Calculator.totalScore s
  = Js.round
      (weightedSum (Calculator.calculateCVEScore (Some cve))
         maintenanceScore complexityScore
         (Calculator.calculateTechnicalLagScore cve (DepsDev.maintenance pm))
         50)
  ∧ Calculator.factorScore (Calculator.maintenanceHealth
                              (Calculator.breakdown s)) = maintenanceScore
  ∧ Calculator.factorScore (Calculator.dependencyComplexity
                              (Calculator.breakdown s)) = complexityScore
  ∧ Calculator.factorScore (Calculator.communitySignals
                              (Calculator.breakdown s)) = 50.
Proof.
  cbv zeta. unfold Calculator.calculateCompositeScore. simpl.
  rewrite weighted_round, weightedSum_round, !num_or_effective.
  repeat split.
Qed.

(** With both records present and their scores not 0, the total is the one
    the claim states. *)
Lemma calculateCompositeScore_nonzero (cve : Osv.CVEMetrics)
    (found : bool) (m : DepsDev.MaintenanceMetrics)
    (c : DepsDev.ComplexityMetrics) :
  DepsDev.score m ≠ 0 → DepsDev.complexityScore c ≠ 0 →
  Calculator.totalScore
    (Calculator.calculateCompositeScore cve
       {| DepsDev.found := found;
          DepsDev.maintenance := Some m;
          DepsDev.complexity := Some c |})
  = statedTotal cve m c.
Proof.
  intros Hm Hc.
  unfold Calculator.calculateCompositeScore, statedTotal. simpl.
  rewrite weighted_round, weightedSum_round.
  destruct (Z.eqb_spec (DepsDev.score m) 0); [contradiction |].
  destruct (Z.eqb_spec (DepsDev.complexityScore c) 0); [contradiction |].
  reflexivity.
Qed.

(** The total in integer arithmetic. *)
Lemma totalScore_integer (cve : Osv.CVEMetrics) (pm : DepsDev.PackageMetrics) :
  Calculator.totalScore (Calculator.calculateCompositeScore cve pm)
  = (50 * Calculator.calculateCVEScore (Some cve)
     + 10 * effectiveScore (DepsDev.score <$> DepsDev.maintenance pm)
     + 15 * effectiveScore
              (DepsDev.complexityScore <$> DepsDev.complexity pm)
     + 15 * Calculator.calculateTechnicalLagScore cve (DepsDev.maintenance pm)
     + 550) / 100.
Proof.
  unfold Calculator.calculateCompositeScore. simpl.
  rewrite weighted_round, !num_or_effective. reflexivity.
Qed.

(** ** Score ranges and the risk level *)

Lemma getRiskLevel_table (t : Z) : Calculator.getRiskLevel t = riskTable t.
Proof.
  unfold Calculator.getRiskLevel, riskTable.
  repeat case_decide; repeat (case_match; try lia); reflexivity.
Qed.

(** The sub-scores the breakdown reports. *)
Lemma breakdown_scores (cve : Osv.CVEMetrics) (pm : DepsDev.PackageMetrics) :
  let b := Calculator.breakdown (Calculator.calculateCompositeScore cve pm) in
  Calculator.factorScore (Calculator.historicalCVEs b)
  = Calculator.calculateCVEScore (Some cve)
  ∧ Calculator.factorScore (Calculator.maintenanceHealth b)
    = effectiveScore (DepsDev.score <$> DepsDev.maintenance pm)
  ∧ Calculator.factorScore (Calculator.dependencyComplexity b)
    = effectiveScore (DepsDev.complexityScore <$> DepsDev.complexity pm)
  ∧ Calculator.factorScore (Calculator.technicalLag b)
    = Calculator.calculateTechnicalLagScore cve (DepsDev.maintenance pm)
  ∧ Calculator.factorScore (Calculator.communitySignals b) = 50.
Proof.
  cbv zeta. rewrite <- !num_or_effective. repeat split.
Qed.

(** The ranges for any metrics records whose scores are in range. *)
Lemma compositeScore_ranges (cve : Osv.CVEMetrics)
    (pm : DepsDev.PackageMetrics) :
  (∀ m, DepsDev.maintenance pm = Some m → inRange (DepsDev.score m)) →
  (∀ c, DepsDev.complexity pm = Some c →
        inRange (DepsDev.complexityScore c)) →
  let s := Calculator.calculateCompositeScore cve pm in
  let b := Calculator.breakdown s in
  inRange (Calculator.totalScore s)
  ∧ inRange (Calculator.factorScore (Calculator.historicalCVEs b))
  ∧ inRange (Calculator.factorScore (Calculator.maintenanceHealth b))
  ∧ inRange (Calculator.factorScore (Calculator.dependencyComplexity b))
  ∧ inRange (Calculator.factorScore (Calculator.technicalLag b))
  ∧ inRange (Calculator.factorScore (Calculator.communitySignals b)).
Proof.
  intros Hm Hc. cbv zeta.
  assert (Hms : inRange
            (effectiveScore (DepsDev.score <$> DepsDev.maintenance pm))).
  { apply effectiveScore_range. intros s Hs.
    destruct (DepsDev.maintenance pm) as [m |]; [| discriminate].
    injection Hs as <-. apply Hm. reflexivity. }
  assert (Hcs : inRange
            (effectiveScore
               (DepsDev.complexityScore <$> DepsDev.complexity pm))).
  { apply effectiveScore_range. intros s Hs.
    destruct (DepsDev.complexity pm) as [c |]; [| discriminate].
    injection Hs as <-. apply Hc. reflexivity. }
  pose proof (cveScore_range (Some cve)) as Hcve.
  pose proof (technicalLagScore_range cve (DepsDev.maintenance pm)) as Hlag.
  destruct (breakdown_scores cve pm) as (-> & -> & -> & -> & ->).
  rewrite totalScore_integer.
  unfold inRange in *.
  repeat split; try lia.
  - apply Z.div_pos; lia.
  - apply Z.div_le_upper_bound; lia.
Qed.

(** [analyzePackage] changes the counts of the complexity record, not its
    score, and leaves the maintenance record alone. *)
Lemma overrideCounts_scores (pm : DepsDev.PackageMetrics)
    (tr : Analyzer.TransitiveResult) :
  DepsDev.maintenance (Analyzer.overrideCounts pm tr) = DepsDev.maintenance pm
  ∧ DepsDev.complexityScore <$> DepsDev.complexity
                                  (Analyzer.overrideCounts pm tr)
    = DepsDev.complexityScore <$> DepsDev.complexity pm.
Proof.
  unfold Analyzer.overrideCounts.
  destruct (DepsDev.complexity pm) as [c |] eqn:Hc.
  - destruct (0 <? Analyzer.totalPackagesInTree tr); simpl;
      rewrite ?Hc; split; reflexivity.
  - rewrite Hc. split; reflexivity.
Qed.

(** C2.  For every composite score the engine produces (the score
    [analyzePackage] computes from the metrics [getPackageMetrics] returns,
    after the tree counts are written into the complexity record),
    [totalScore] and the five sub-scores lie in [0, 100], and [riskLevel]
    follows from [totalScore] by the table >= 80 LOW, >= 60 MEDIUM,
    >= 40 ELEVATED, >= 20 HIGH, else CRITICAL; in particular 80 is LOW,
    79 and 60 MEDIUM, 59 and 40 ELEVATED, 39 and 20 HIGH, 19 and 0
    CRITICAL. *)
Theorem compositeScore_invariants :
  (∀ (now : Z) (packageInfo : option DepsDev.PackageInfo)
     (versionInfo : option DepsDev.VersionInfo)
     (tr : Analyzer.TransitiveResult),
     let pm :=
       Analyzer.overrideCounts
         (DepsDev.getPackageMetrics now packageInfo versionInfo) tr in
     let s := Calculator.calculateCompositeScore (Analyzer.cveMetrics tr) pm in
     let b := Calculator.breakdown s in
     inRange (Calculator.totalScore s)
     ∧ inRange (Calculator.factorScore (Calculator.historicalCVEs b))
     ∧ inRange (Calculator.factorScore (Calculator.maintenanceHealth b))
     ∧ inRange (Calculator.factorScore (Calculator.dependencyComplexity b))
     ∧ inRange (Calculator.factorScore (Calculator.technicalLag b))
     ∧ inRange (Calculator.factorScore (Calculator.communitySignals b))
     ∧ Calculator.riskLevel s = riskTable (Calculator.totalScore s))
  ∧ (∀ t : Z, Calculator.getRiskLevel t = riskTable t)
  ∧ Calculator.getRiskLevel 80 = Calculator.LOW
  ∧ Calculator.getRiskLevel 79 = Calculator.MEDIUM
  ∧ Calculator.getRiskLevel 60 = Calculator.MEDIUM
  ∧ Calculator.getRiskLevel 59 = Calculator.ELEVATED
  ∧ Calculator.getRiskLevel 40 = Calculator.ELEVATED
  ∧ Calculator.getRiskLevel 39 = Calculator.HIGH
  ∧ Calculator.getRiskLevel 20 = Calculator.HIGH
  ∧ Calculator.getRiskLevel 19 = Calculator.CRITICAL
  ∧ Calculator.getRiskLevel 0 = Calculator.CRITICAL.
Proof.
  split; [| split; [exact getRiskLevel_table | repeat split]].
  intros now packageInfo versionInfo tr. cbv zeta.
  set (pm0 := DepsDev.getPackageMetrics now packageInfo versionInfo).
  destruct (overrideCounts_scores pm0 tr) as [Hm Hc].
  assert (Hranges := compositeScore_ranges (Analyzer.cveMetrics tr)
                       (Analyzer.overrideCounts pm0 tr)).
  cbv zeta in Hranges.
  destruct Hranges as (H1 & H2 & H3 & H4 & H5 & H6).
  - intros m Hm'. rewrite Hm in Hm'. subst pm0.
    unfold DepsDev.getPackageMetrics in Hm'.
    destruct packageInfo; cbn [DepsDev.maintenance] in Hm';
      apply (f_equal (from_option DepsDev.score 0)) in Hm';
      cbn [from_option] in Hm'; rewrite <- Hm';
      apply maintenanceScore_range.
  - intros c Hc'.
    assert (Hsc : Some (DepsDev.complexityScore c)
                  = DepsDev.complexityScore <$> DepsDev.complexity pm0).
    { rewrite <- Hc, Hc'. reflexivity. }
    subst pm0. unfold DepsDev.getPackageMetrics in Hsc.
    destruct packageInfo;
      cbn [DepsDev.complexity fmap option_fmap option_map] in Hsc;
      apply (f_equal (from_option (λ x, x) 0)) in Hsc;
      cbn [from_option] in Hsc; rewrite Hsc; apply complexityScore_range.
  - repeat split; try assumption; try apply H1; try apply H2; try apply H3;
      try apply H4; try apply H5; try apply H6.
    apply getRiskLevel_table.
Qed.

(** ** [Array.prototype.sort] with a comparator that compares keys *)

Section SortFacts.
Context {A : Type} (cmp : A → A → Z) (key : A → Z).
Hypothesis cmp_key : ∀ a b, cmp a b <= 0 ↔ key a <= key b.

Lemma insert_sorted_perm (x : A) (l : list A) :
  Js.insert_sorted cmp x l ≡ₚ x :: l.
Proof.
  induction l as [| y l IH]; simpl; [reflexivity |].
  destruct (cmp x y <=? 0); [reflexivity |].
  rewrite IH. apply perm_swap.
Qed.

Lemma sort_perm (l : list A) : Js.sort cmp l ≡ₚ l.
Proof.
  induction l as [| x l IH]; simpl; [reflexivity |].
  rewrite insert_sorted_perm, IH. reflexivity.
Qed.

Lemma sort_length (l : list A) : length (Js.sort cmp l) = length l.
Proof. apply Permutation_length, sort_perm. Qed.

Lemma insert_sorted_sorted (x : A) (l : list A) :
  StronglySorted (λ a b, key a <= key b) l →
  StronglySorted (λ a b, key a <= key b) (Js.insert_sorted cmp x l).
Proof.
  induction 1 as [| y l Hl IH Hy]; simpl.
  - repeat constructor.
  - destruct (Z.leb_spec (cmp x y) 0) as [Hle | Hgt].
    + apply cmp_key in Hle. constructor; [constructor; assumption |].
      constructor; [exact Hle |].
      eapply Forall_impl; [exact Hy |]. intros z Hz. simpl in Hz. lia.
    + assert (Hyx : key y <= key x).
      { destruct (Z.le_gt_cases (key x) (key y)) as [H | H]; [| lia].
        apply cmp_key in H. lia. }
      constructor; [exact IH |].
      rewrite insert_sorted_perm. constructor; assumption.
Qed.

Lemma sort_sorted (l : list A) :
  StronglySorted (λ a b, key a <= key b) (Js.sort cmp l).
Proof.
  induction l as [| x l IH]; simpl; [constructor |].
  apply insert_sorted_sorted, IH.
Qed.

(** Stability: elements with the same key keep their relative order. *)
Lemma insert_sorted_stable (k : Z) (x : A) (l : list A) :
  filter (λ a, key a = k) (Js.insert_sorted cmp x l)
  = filter (λ a, key a = k) (x :: l).
Proof.
  induction l as [| y l IH]; simpl; [reflexivity |].
  destruct (Z.leb_spec (cmp x y) 0) as [Hle | Hgt]; [reflexivity |].
  assert (Hyx : key y < key x).
  { destruct (Z.lt_ge_cases (key y) (key x)) as [H | H]; [exact H |].
    apply cmp_key in H. lia. }
  rewrite filter_cons, IH, !filter_cons.
  repeat case_decide; try reflexivity; lia.
Qed.

Lemma sort_stable (k : Z) (l : list A) :
  filter (λ a, key a = k) (Js.sort cmp l) = filter (λ a, key a = k) l.
Proof.
  induction l as [| x l IH]; simpl; [reflexivity |].
  rewrite insert_sorted_stable, !filter_cons, IH. reflexivity.
Qed.

End SortFacts.

(** ** The project summary *)

Lemma omap_scored_cons (p : Analyzer.PackageResult)
    (pkgs : list Analyzer.PackageResult) :
  omap Analyzer.scored (p :: pkgs)
  = match Analyzer.score p with
    | Some s => (p, s) :: omap Analyzer.scored pkgs
    | None => omap Analyzer.scored pkgs
    end.
Proof.
  change (omap Analyzer.scored (p :: pkgs))
    with (match Analyzer.scored p with
          | Some y => y :: omap Analyzer.scored pkgs
          | None => omap Analyzer.scored pkgs
          end).
  unfold Analyzer.scored at 1. destruct (Analyzer.score p); reflexivity.
Qed.

Lemma valid_packages (pkgs : list Analyzer.PackageResult) :
  (omap Analyzer.scored pkgs).*1 = filter hasScore pkgs
  ∧ Forall linked (omap Analyzer.scored pkgs).
Proof.
  induction pkgs as [| p pkgs [IH1 IH2]]; [split; [reflexivity | constructor] |].
  rewrite filter_cons, omap_scored_cons.
  destruct (decide (hasScore p)) as [[s Hs] | Hn].
  - rewrite Hs. split; [cbn; f_equal; exact IH1 |].
    constructor; [exact Hs | exact IH2].
  - destruct (Analyzer.score p) as [s |] eqn:Hs.
    + exfalso. apply Hn. exists s. exact Hs.
    + split; assumption.
Qed.

Lemma foldl_add_sum {X : Type} (f : X → Z) (l : list X) (a : Z) :
  foldl Z.add a (f <$> l) = a + sumOf f l.
Proof.
  revert a. induction l as [| x l IH]; intros a; simpl; [lia |].
  rewrite IH. lia.
Qed.

Lemma sumOf_linked (f : Calculator.CompositeScore → Z)
    (l : list (Analyzer.PackageResult * Calculator.CompositeScore)) :
  Forall linked l →
  sumOf (λ x, f x.2) l = sumOf (λ p, from_option f 0 (Analyzer.score p)) l.*1.
Proof.
  induction 1 as [| x l Hx _ IH]; simpl; [reflexivity |].
  rewrite IH, Hx. reflexivity.
Qed.

Lemma sumOf_fst {X Y : Type} (f : X → Z) (l : list (X * Y)) :
  sumOf (λ x, f x.1) l = sumOf f l.*1.
Proof. induction l as [| x l IH]; simpl; [| rewrite IH]; reflexivity. Qed.

Lemma countLevel_cons (level : Calculator.RiskLevel)
    (p : Analyzer.PackageResult) (l : list Analyzer.PackageResult) :
  countLevel level (p :: l)
  = (if decide (levelOf p = Some level) then 1 else 0) + countLevel level l.
Proof.
  unfold countLevel. rewrite filter_cons.
  case_decide; simpl length; lia.
Qed.

(** The [for] loop of the summary adds each package to the running totals. *)
Lemma tally_fold
    (l : list (Analyzer.PackageResult * Calculator.CompositeScore)) :
  Forall linked l →
  ∀ (rc : Analyzer.RiskCounts) (h c k : Z),
    foldl Analyzer.tally (rc, h, c, k) l
    = ({| Analyzer.nLOW := Analyzer.nLOW rc + countLevel Calculator.LOW l.*1;
          Analyzer.nMEDIUM :=
            Analyzer.nMEDIUM rc + countLevel Calculator.MEDIUM l.*1;
          Analyzer.nELEVATED :=
            Analyzer.nELEVATED rc + countLevel Calculator.ELEVATED l.*1;
          Analyzer.nHIGH := Analyzer.nHIGH rc + countLevel Calculator.HIGH l.*1;
          Analyzer.nCRITICAL :=
            Analyzer.nCRITICAL rc + countLevel Calculator.CRITICAL l.*1 |},
       h + sumOf hoursOf l.*1,
       c + sumOf cvesOf l.*1,
       k + sumOf criticalOf l.*1).
Proof.
  induction 1 as [| x l Hx _ IH]; intros rc h c k.
  - simpl. destruct rc. unfold countLevel. simpl.
    f_equal; [f_equal; [f_equal; [f_equal; lia | lia] | lia] | lia].
  - simpl foldl. rewrite IH. clear IH.
    cbn [fmap list_fmap]. rewrite !countLevel_cons.
    change (sumOf ?f (?y :: ?t)) with (f y + sumOf f t).
    unfold levelOf, hoursOf, cvesOf, criticalOf.
    unfold linked in Hx. rewrite Hx.
    assert (Hn : ∀ {X} (g : X → Z) (o : option X),
               Js.num_or (g <$> o) 0 = from_option g 0 o).
    { intros X g [y |]; simpl; [| reflexivity].
      destruct (Z.eqb_spec (g y) 0); congruence. }
    rewrite !Hn. simpl from_option. cbn [fmap option_fmap option_map].
    destruct (Calculator.riskLevel x.2); simpl;
      repeat (rewrite decide_True by reflexivity);
      repeat (rewrite decide_False by discriminate);
      (f_equal; [f_equal; [f_equal; [f_equal; lia | lia] | lia] | lia]).
Qed.

Lemma riskEntry_linked
    (l : list (Analyzer.PackageResult * Calculator.CompositeScore)) :
  Forall linked l → Analyzer.riskEntry <$> l = entryOf <$> l.*1.
Proof.
  induction 1 as [| x l Hx _ IH]; [reflexivity |].
  cbn [fmap list_fmap]. rewrite <- IH. f_equal.
  unfold Analyzer.riskEntry, entryOf, totalOf. rewrite Hx. reflexivity.
Qed.

Lemma sorted_linked
    (l : list (Analyzer.PackageResult * Calculator.CompositeScore)) :
  Forall linked l →
  StronglySorted
    (λ a b, Calculator.totalScore a.2 <= Calculator.totalScore b.2) l →
  StronglySorted (λ a b, totalOf a <= totalOf b) l.*1.
Proof.
  intros Hl Hs. induction Hs as [| x l Hs IH Hx]; [constructor |].
  apply Forall_cons in Hl as [Hlx Hl].
  cbn [fmap list_fmap]. constructor; [apply IH, Hl |].
  apply Forall_fmap. apply Forall_forall. intros y Hy.
  pose proof (proj1 (Forall_forall _ _) Hx y Hy) as Hxy.
  pose proof (proj1 (Forall_forall _ _) Hl y Hy) as Hly.
  unfold totalOf. simpl. unfold linked in Hlx, Hly.
  rewrite Hlx, Hly. exact Hxy.
Qed.

Lemma filter_linked (k : Z)
    (l : list (Analyzer.PackageResult * Calculator.CompositeScore)) :
  Forall linked l →
  filter (λ p, totalOf p = k) l.*1
  = (filter (λ x, Calculator.totalScore x.2 = k) l).*1.
Proof.
  induction 1 as [| x l Hx _ IH]; [reflexivity |].
  cbn [fmap list_fmap]. rewrite !filter_cons, IH.
  unfold totalOf. rewrite Hx. simpl.
  case_decide; reflexivity.
Qed.

Lemma byScoreAsc_key (a b : Analyzer.PackageResult * Calculator.CompositeScore) :
  Analyzer.byScoreAsc a b <= 0
  ↔ Calculator.totalScore a.2 <= Calculator.totalScore b.2.
Proof. unfold Analyzer.byScoreAsc. lia. Qed.

(** The summary of any list is the specified summary of its scored
    entries; there is none when no entry has a score. *)
Lemma calculateProjectSummary_scored (pkgs : list Analyzer.PackageResult) :
  filter hasScore pkgs ≠ [] →
  ∃ s, Analyzer.calculateProjectSummary pkgs = Some s
       ∧ summarises (filter hasScore pkgs) s.
Proof.
  intros Hne. destruct (valid_packages pkgs) as [Hfst Hlinked].
  unfold Analyzer.calculateProjectSummary.
  set (valid := omap Analyzer.scored pkgs) in *. cbv zeta.
  rewrite <- Hfst in *.
  destruct (Nat.eqb_spec (length valid) 0) as [H0 | _].
  { exfalso. apply Hne. destruct valid; [reflexivity | discriminate]. }
  rewrite (tally_fold valid Hlinked). cbn [Analyzer.nLOW Analyzer.nMEDIUM
    Analyzer.nELEVATED Analyzer.nHIGH Analyzer.nCRITICAL].
  eexists. split; [reflexivity |].
  unfold summarises. cbn [Analyzer.averageScore Analyzer.totalMaintenanceHours
    Analyzer.totalCVEs Analyzer.totalCriticalCVEs Analyzer.riskDistribution
    Analyzer.highestRiskPackages].
  rewrite !Z.add_0_l. repeat split.
  - rewrite foldl_add_sum, Z.add_0_l, !length_fmap.
    rewrite (sumOf_linked Calculator.totalScore valid Hlinked). reflexivity.
  - exists (Js.sort Analyzer.byScoreAsc valid).*1.
    assert (Hperm := sort_perm Analyzer.byScoreAsc valid).
    assert (Hsl : Forall linked (Js.sort Analyzer.byScoreAsc valid)).
    { rewrite Hperm. exact Hlinked. }
    repeat split.
    + rewrite <- fmap_take. apply riskEntry_linked.
      apply Forall_take, Hsl.
    + rewrite Hperm. reflexivity.
    + apply sorted_linked; [exact Hsl |].
      apply (sort_sorted Analyzer.byScoreAsc _ byScoreAsc_key).
    + intros k. rewrite !filter_linked by assumption.
      rewrite (sort_stable Analyzer.byScoreAsc
                 (λ x, Calculator.totalScore x.2) byScoreAsc_key).
      reflexivity.
Qed.

Lemma calculateProjectSummary_unscored (pkgs : list Analyzer.PackageResult) :
  filter hasScore pkgs = [] → Analyzer.calculateProjectSummary pkgs = None.
Proof.
  intros He. destruct (valid_packages pkgs) as [Hfst _].
  unfold Analyzer.calculateProjectSummary. cbv zeta.
  rewrite He in Hfst. apply fmap_nil_inv in Hfst. rewrite Hfst. reflexivity.
Qed.

Lemma filter_hasScore_all (pkgs : list Analyzer.PackageResult) :
  Forall hasScore pkgs → filter hasScore pkgs = pkgs.
Proof.
  induction 1 as [| p pkgs Hp _ IH]; [reflexivity |].
  rewrite filter_cons, decide_True by exact Hp. rewrite IH. reflexivity.
Qed.

(** C9.  For a non-empty list of analysed packages, each with its score,
    [calculateProjectSummary] returns a summary whose [averageScore] is the
    rounded mean of the totals, whose hours, findings and critical findings
    are the sums over the packages, with a count per risk tier and the five
    lowest-scoring packages, equal scores in encounter order.  The empty
    list has no summary, and the packages 80 / LOW and 60 / MEDIUM have
    [averageScore] 70 (hours 5 + 10, findings 2 + 5, critical 0 + 1). *)
Theorem calculateProjectSummary_spec :
  (∀ pkgs : list Analyzer.PackageResult,
     pkgs ≠ [] → Forall hasScore pkgs →
     ∃ s, Analyzer.calculateProjectSummary pkgs = Some s ∧ summarises pkgs s)
  ∧ Analyzer.calculateProjectSummary [] = None
  ∧ ∃ s, Analyzer.calculateProjectSummary twoPackages = Some s
         ∧ Analyzer.averageScore s = 70
         ∧ Analyzer.totalMaintenanceHours s = 15
         ∧ Analyzer.totalCVEs s = 7
         ∧ Analyzer.totalCriticalCVEs s = 1.
Proof.
  split; [| split; [reflexivity |]].
  - intros pkgs Hne Hall.
    destruct (calculateProjectSummary_scored pkgs) as (s & Hs & Hsum).
    { rewrite filter_hasScore_all by exact Hall. exact Hne. }
    rewrite filter_hasScore_all in Hsum by exact Hall.
    exists s. split; assumption.
  - eexists. split; [reflexivity |]. repeat split.
Qed.

Lemma twoPackages_scored : Forall hasScore twoPackages.
Proof. repeat constructor; eexists; reflexivity. Defined.

Lemma calculateProjectSummary_spec_witness :
  ∃ s, Analyzer.calculateProjectSummary twoPackages = Some s
       ∧ summarises twoPackages s.
Proof.
  apply (proj1 calculateProjectSummary_spec twoPackages).
  - discriminate.
  - exact twoPackages_scored.
Defined.

Lemma omap_scored_filter (pkgs : list Analyzer.PackageResult) :
  omap Analyzer.scored (filter hasScore pkgs) = omap Analyzer.scored pkgs.
Proof.
  induction pkgs as [| p pkgs IH]; [reflexivity |].
  rewrite filter_cons.
  destruct (decide (hasScore p)) as [Hp | Hn].
  - rewrite !omap_scored_cons, IH. reflexivity.
  - rewrite omap_scored_cons, IH.
    destruct (Analyzer.score p) as [s |] eqn:Hs; [| reflexivity].
    exfalso. apply Hn. exists s. exact Hs.
Qed.

Lemma filter_hasScore_nil (pkgs : list Analyzer.PackageResult) :
  filter hasScore pkgs = [] ↔ Forall (λ p, Analyzer.score p = None) pkgs.
Proof.
  induction pkgs as [| p pkgs IH]; [split; [constructor | reflexivity] |].
  rewrite filter_cons, Forall_cons.
  destruct (decide (hasScore p)) as [[s Hs] | Hn].
  - split; [discriminate |]. intros [Hp _]. congruence.
  - rewrite IH. split; [| tauto]. intros H. split; [| exact H].
    destruct (Analyzer.score p) as [s |] eqn:Hs; [| reflexivity].
    exfalso. apply Hn. exists s. exact Hs.
Qed.

(** C10.  [calculateProjectSummary] leaves every entry without a score out
    of every statistic: the result is the result for the list of scored
    entries alone, and when there is a summary it is the specified summary
    (average, hour and finding totals, tier counts, highest-risk list) of
    the scored entries.  It returns no summary exactly when no entry of
    the list carries a score, as for a list holding only a failed
    analysis. *)
Theorem calculateProjectSummary_excludes_unscored :
  (∀ pkgs : list Analyzer.PackageResult,
     Analyzer.calculateProjectSummary pkgs
     = Analyzer.calculateProjectSummary (filter hasScore pkgs)
     ∧ (Analyzer.calculateProjectSummary pkgs = None
        ↔ Forall (λ p, Analyzer.score p = None) pkgs)
     ∧ (∀ s, Analyzer.calculateProjectSummary pkgs = Some s →
             summarises (filter hasScore pkgs) s))
  ∧ Analyzer.calculateProjectSummary
      [Analyzer.failed "x"; packageA; Analyzer.failed "y"; packageB]
    = Analyzer.calculateProjectSummary twoPackages
  ∧ Analyzer.calculateProjectSummary [Analyzer.failed "x"] = None.
Proof.
  split; [| split; reflexivity].
  intros pkgs. split; [| split].
  - unfold Analyzer.calculateProjectSummary.
    rewrite omap_scored_filter. reflexivity.
  - rewrite <- filter_hasScore_nil. split.
    + intros Hnone.
      destruct (filter hasScore pkgs) as [| p l] eqn:Hf; [reflexivity |].
      destruct (calculateProjectSummary_scored pkgs) as (s & Hs & _).
      { rewrite Hf. discriminate. }
      congruence.
    + apply calculateProjectSummary_unscored.
  - intros s Hs.
    destruct (filter hasScore pkgs) as [| p l] eqn:Hf.
    + rewrite calculateProjectSummary_unscored in Hs by exact Hf.
      discriminate.
    + destruct (calculateProjectSummary_scored pkgs) as (s' & Hs' & Hsum).
      { rewrite Hf. discriminate. }
      rewrite Hf in Hsum. congruence.
Qed.

(** ** Version resolution *)

Lemma compare_refl (a : Semver.SemVer) : Semver.compare a a = Eq.
Proof. unfold Semver.compare. rewrite !N.compare_refl. reflexivity. Qed.

Lemma compare_lt_trans (a b c : Semver.SemVer) :
  Semver.compare a b = Lt → Semver.compare b c = Lt →
  Semver.compare a c = Lt.
Proof.
  unfold Semver.compare.
  destruct (N.compare_spec (Semver.major a) (Semver.major b)) as [E1 | L1 | G1];
    destruct (N.compare_spec (Semver.major b) (Semver.major c))
      as [E2 | L2 | G2];
    try discriminate; intros H1 H2.
  - rewrite E1, E2, N.compare_refl.
    destruct (N.compare_spec (Semver.minor a) (Semver.minor b))
      as [E3 | L3 | G3];
      destruct (N.compare_spec (Semver.minor b) (Semver.minor c))
        as [E4 | L4 | G4];
      try discriminate.
    + rewrite E3, E4, N.compare_refl.
      exact (N.lt_trans _ _ _ H1 H2).
    + rewrite E3. apply N.compare_lt_iff in L4. rewrite L4. reflexivity.
    + rewrite <- E4. apply N.compare_lt_iff in L3. rewrite L3. reflexivity.
    + assert (L : (Semver.minor a < Semver.minor c)%N) by lia.
      apply N.compare_lt_iff in L. rewrite L. reflexivity.
  - rewrite E1. apply N.compare_lt_iff in L2. rewrite L2. reflexivity.
  - rewrite <- E2. apply N.compare_lt_iff in L1. rewrite L1. reflexivity.
  - assert (L : (Semver.major a < Semver.major c)%N) by lia.
    apply N.compare_lt_iff in L. rewrite L. reflexivity.
Qed.

Lemma lessThan_irrefl (v : string) : Semver.lessThan v v = false.
Proof.
  unfold Semver.lessThan. destruct (Semver.parse v); [| reflexivity].
  rewrite compare_refl. reflexivity.
Qed.

Lemma lessThan_trans (a b c : string) :
  Semver.lessThan a b = true → Semver.lessThan b c = true →
  Semver.lessThan a c = true.
Proof.
  unfold Semver.lessThan.
  destruct (Semver.parse a), (Semver.parse b), (Semver.parse c);
    try discriminate.
  rewrite !bool_decide_eq_true. apply compare_lt_trans.
Qed.

Lemma maxStep_isMax (rangeObj : list Semver.Comparator)
    (seen : list string) (max : option string) (v : string) :
  isMax rangeObj seen max →
  isMax rangeObj (seen ++ [v]) (Semver.maxStep rangeObj max v).
Proof.
  unfold Semver.maxStep, isMax. intros H.
  destruct (Semver.test rangeObj v) eqn:Hv.
  - destruct max as [m |].
    + destruct H as (Hin & Hm & Hmax).
      destruct (Semver.lessThan m v) eqn:Hlt.
      * split; [set_solver |]. split; [exact Hv |].
        intros w Hw Htw. apply elem_of_app in Hw as [Hw | Hw].
        -- destruct (Semver.lessThan v w) eqn:Hvw; [| reflexivity].
           rewrite <- (Hmax w Hw Htw). symmetry.
           eapply lessThan_trans; eassumption.
        -- apply list_elem_of_singleton in Hw as ->. apply lessThan_irrefl.
      * split; [set_solver |]. split; [exact Hm |].
        intros w Hw Htw. apply elem_of_app in Hw as [Hw | Hw].
        -- apply Hmax; assumption.
        -- apply list_elem_of_singleton in Hw as ->. exact Hlt.
    + split; [set_solver |]. split; [exact Hv |].
      intros w Hw Htw. apply elem_of_app in Hw as [Hw | Hw].
      * rewrite (H w Hw) in Htw. discriminate.
      * apply list_elem_of_singleton in Hw as ->. apply lessThan_irrefl.
  - destruct max as [m |].
    + destruct H as (Hin & Hm & Hmax).
      split; [set_solver |]. split; [exact Hm |].
      intros w Hw Htw. apply elem_of_app in Hw as [Hw | Hw].
      * apply Hmax; assumption.
      * apply list_elem_of_singleton in Hw as ->. congruence.
    + intros w Hw. apply elem_of_app in Hw as [Hw | Hw].
      * apply H, Hw.
      * apply list_elem_of_singleton in Hw as ->. exact Hv.
Qed.

Lemma maxLoop_isMax (rangeObj : list Semver.Comparator)
    (versions seen : list string) (max : option string) :
  isMax rangeObj seen max →
  isMax rangeObj (seen ++ versions)
    (foldl (Semver.maxStep rangeObj) max versions).
Proof.
  revert seen max. induction versions as [| v versions IH]; intros seen max H.
  - rewrite app_nil_r. exact H.
  - simpl. rewrite cons_middle, app_assoc. apply IH, maxStep_isMax, H.
Qed.

(** [maxSatisfying] returns a highest version among those that satisfy the
    range, and nothing exactly when none does. *)
Lemma maxSatisfying_spec (versions : list string) (range : string) :
  match Semver.maxSatisfying versions range with
  | Some v =>
    v ∈ versions ∧ Semver.satisfies v range = true
    ∧ ∀ w, w ∈ versions → Semver.satisfies w range = true →
           Semver.lessThan v w = false
  | None => ∀ w, w ∈ versions → Semver.satisfies w range = false
  end.
Proof.
  unfold Semver.maxSatisfying, Semver.satisfies.
  destruct (Semver.parseRange range) as [rangeObj |]; [| reflexivity].
  apply (maxLoop_isMax rangeObj versions [] None).
  intros w Hw. inversion Hw.
Qed.

Lemma truthy_true (s : string) : s ≠ "" → Js.truthy s = true.
Proof. destruct s; [congruence | reflexivity]. Qed.

Lemma elem_of_List_filter (valid : string → bool) (w : string)
    (versions : list string) :
  w ∈ List.filter (λ v, valid v) versions ↔ w ∈ versions ∧ valid w = true.
Proof. rewrite !list_elem_of_In. apply filter_In. Qed.

(** C3.  [resolveVersion], for every behaviour of the semver package in
    which [maxSatisfying] returns the highest version of its list that
    satisfies the range, and nothing if none does: a constraint that is
    itself a valid version is returned exactly when it is in the list; an
    empty or absent constraint or list fails; any other constraint gives a
    published valid version that satisfies the range and that no other
    published valid version satisfying it exceeds, and fails exactly when
    no published valid version satisfies it.  Over the example list,
    "2.1.0" resolves to "2.1.0", "^4.18.0" to "4.18.2", "~1.2.0" to "1.2.5",
    ">=2.0.0" to "4.18.2", ">=1.0.0 <3.0.0" to "2.1.0", and "^10.0.0", an
    empty list and an absent constraint fail. *)
Theorem resolveVersion_spec (valid : string → bool)
    (satisfies gt : string → string → bool)
    (maxSatisfying : list string → string → option string) :
  returnsHighest satisfies gt maxSatisfying →
  let resolve := Version.resolveVersionOver valid maxSatisfying in
  (∀ (range : string) (versions : list string),
     range ≠ "" → valid range = true →
     resolve (Some range) (Some versions)
     = if decide (range ∈ versions) then Some range else None)
  ∧ (∀ (range : option string) (versions : option (list string)),
       range = None ∨ range = Some "" ∨ versions = None ∨ versions = Some [] →
       resolve range versions = None)
  ∧ (∀ (range : string) (versions : list string),
       range ≠ "" → versions ≠ [] → valid range = false →
       match resolve (Some range) (Some versions) with
       | Some v =>
         v ∈ versions ∧ valid v = true ∧ satisfies v range = true
         ∧ ∀ w, w ∈ versions → valid w = true → satisfies w range = true →
                gt w v = false
       | None =>
         ∀ w, w ∈ versions → valid w = true → satisfies w range = false
       end)
  ∧ Version.resolveVersion (Some "2.1.0") (Some published) = Some "2.1.0"
  ∧ Version.resolveVersion (Some "^4.18.0") (Some published) = Some "4.18.2"
  ∧ Version.resolveVersion (Some "~1.2.0") (Some published) = Some "1.2.5"
  ∧ Version.resolveVersion (Some ">=2.0.0") (Some published) = Some "4.18.2"
  ∧ Version.resolveVersion (Some ">=1.0.0 <3.0.0") (Some published)
    = Some "2.1.0"
  ∧ Version.resolveVersion (Some "^10.0.0") (Some published) = None
  ∧ Version.resolveVersion (Some "^1.0.0") (Some []) = None
  ∧ Version.resolveVersion None (Some published) = None.
Proof.
  intros Hmax. cbv zeta.
  split; [| split; [| split; [| repeat split]]].
  - intros range versions Hr Hvalid. unfold Version.resolveVersionOver.
    rewrite (truthy_true _ Hr), Hvalid. simpl negb. simpl orb.
    destruct versions as [| v versions].
    + cbn [length Nat.eqb]. case_decide as H; [inversion H | reflexivity].
    + cbn [length Nat.eqb]. case_bool_decide; case_decide;
        first [reflexivity | contradiction].
  - intros range versions [-> | [-> | [-> | ->]]];
      unfold Version.resolveVersionOver; try reflexivity.
    + destruct versions; reflexivity.
    + destruct range; reflexivity.
    + destruct range as [r |]; [| reflexivity].
      simpl. rewrite orb_true_r. reflexivity.
  - intros range versions Hr Hv Hvalid. unfold Version.resolveVersionOver.
    rewrite (truthy_true _ Hr), Hvalid. simpl negb. simpl orb.
    destruct versions as [| v0 versions]; [congruence |].
    simpl Nat.eqb. cbv iota zeta.
    pose proof (Hmax (List.filter (λ v, valid v) (v0 :: versions)) range)
      as Hres.
    destruct (maxSatisfying _ range) as [v |].
    + destruct Hres as (Hin & Hsat & Hhigh).
      apply elem_of_List_filter in Hin as [Hin Hval].
      repeat split; try assumption.
      intros w Hw Hwv Hws. apply Hhigh; [| exact Hws].
      apply elem_of_List_filter. split; assumption.
    + intros w Hw Hwv. apply Hres.
      apply elem_of_List_filter. split; assumption.
Qed.

Lemma resolveVersion_spec_witness :
  Version.resolveVersion (Some "3.0.0") (Some published) = Some "3.0.0"
  ∧ Version.resolveVersion (Some "~2.0.0") None = None
  ∧ match Version.resolveVersion (Some "<3.0.0") (Some published) with
    | Some v => v ∈ published ∧ Semver.satisfies v "<3.0.0" = true
    | None => False
    end.
Proof.
  destruct (resolveVersion_spec Semver.valid Semver.satisfies
              (λ w v, Semver.lessThan v w) Semver.maxSatisfying)
    as (Hexact & Hempty & Hrange & _).
  - intros versions range. apply maxSatisfying_spec.
  - split; [| split].
    + unfold Version.resolveVersion.
      rewrite (Hexact "3.0.0" published); [reflexivity | discriminate |].
      reflexivity.
    + apply (Hempty (Some "~2.0.0") None). right. right. left. reflexivity.
    + specialize (Hrange "<3.0.0" published).
      unfold Version.resolveVersion.
      destruct (Version.resolveVersionOver _ _ _ _) as [v |] eqn:Hv.
      * destruct Hrange as (Hin & _ & Hsat & _);
          [discriminate | discriminate | reflexivity |].
        split; assumption.
      * vm_compute in Hv. discriminate.
Defined.

(** ** Insertion-ordered maps *)

Section OrderedMapFacts.
Context {V : Type}.
Implicit Types (m : Js.Map V) (k : string) (v : V).

Lemma get_set_eq m k v : Js.get (Js.set m k v) k = Some v.
Proof.
  induction m as [| [k' v'] m IH]; simpl.
  - rewrite decide_True by reflexivity. reflexivity.
  - destruct (decide (k = k')) as [-> | Hne]; simpl.
    + rewrite decide_True by reflexivity. reflexivity.
    + rewrite decide_False by exact Hne. exact IH.
Qed.

Lemma get_set_ne m k k' v :
  k ≠ k' → Js.get (Js.set m k v) k' = Js.get m k'.
Proof.
  intros Hne. induction m as [| [k0 v0] m IH]; simpl.
  - rewrite decide_False by congruence. reflexivity.
  - destruct (decide (k = k0)) as [-> | Hne0]; simpl.
    + rewrite !decide_False by congruence. reflexivity.
    + destruct (decide (k' = k0)); [reflexivity | exact IH].
Qed.

Lemma get_set m k k' v :
  Js.get (Js.set m k v) k' = if decide (k = k') then Some v else Js.get m k'.
Proof.
  destruct (decide (k = k')) as [<- | Hne].
  - apply get_set_eq.
  - apply get_set_ne, Hne.
Qed.

Lemma get_keys m k : is_Some (Js.get m k) ↔ k ∈ Js.keys m.
Proof.
  unfold Js.keys. induction m as [| [k' v'] m IH]; simpl.
  - split; [intros [? ?]; discriminate | intros H; inversion H].
  - rewrite elem_of_cons. destruct (decide (k = k')) as [-> | Hne].
    + split; eauto.
    + rewrite IH. split; [auto | intros [? | ?]; [contradiction | assumption]].
Qed.

Lemma has_keys m k : Js.has m k = true ↔ k ∈ Js.keys m.
Proof.
  rewrite <- get_keys. unfold Js.has.
  destruct (Js.get m k); split; eauto; try discriminate.
  intros [? ?]; discriminate.
Qed.

Lemma has_false_keys m k : Js.has m k = false ↔ k ∉ Js.keys m.
Proof.
  rewrite <- has_keys. destruct (Js.has m k); split; congruence.
Qed.

(** Setting a key that is present keeps the order of the keys; a new key
    goes to the end. *)
Lemma set_present m k v : k ∈ Js.keys m → Js.keys (Js.set m k v) = Js.keys m.
Proof.
  unfold Js.keys. induction m as [| [k' v'] m IH]; simpl; intros Hin.
  - inversion Hin.
  - destruct (decide (k = k')) as [-> | Hne]; [reflexivity |].
    simpl. f_equal. apply IH.
    apply elem_of_cons in Hin as [? | ?]; [contradiction | assumption].
Qed.

Lemma set_new m k v : k ∉ Js.keys m → Js.set m k v = m ++ [(k, v)].
Proof.
  unfold Js.keys. induction m as [| [k' v'] m IH]; simpl; intros Hout.
  - reflexivity.
  - apply not_elem_of_cons in Hout as [Hne Hout].
    rewrite decide_False by exact Hne. f_equal. apply IH, Hout.
Qed.

End OrderedMapFacts.

(** ** Batched vulnerability queries *)

Lemma partitionNames_uncached (cache : gmap string (list Osv.Vuln))
    (names : list string) (results : Js.Map (list Osv.Vuln))
    (uncached : list string) :
  (Osv.partitionNames cache names results uncached).2
  = uncached ++ uncachedOf cache names.
Proof.
  revert results uncached.
  induction names as [| n names IH]; intros results uncached; cbn [Osv.partitionNames].
  - rewrite app_nil_r. reflexivity.
  - unfold uncachedOf. rewrite filter_cons.
    destruct (cache !! n) as [v |] eqn:Hc.
    + rewrite decide_False by discriminate. apply IH.
    + rewrite decide_True by reflexivity. rewrite IH.
      rewrite <- app_assoc. reflexivity.
Qed.

Lemma partitionNames_get (cache : gmap string (list Osv.Vuln))
    (names : list string) (results : Js.Map (list Osv.Vuln))
    (uncached : list string) (n : string) :
  Js.get (Osv.partitionNames cache names results uncached).1 n
  = if decide (n ∈ names ∧ is_Some (cache !! n)) then cache !! n
    else Js.get results n.
Proof.
  revert results uncached.
  induction names as [| k names IH]; intros results uncached; cbn [Osv.partitionNames].
  - rewrite decide_False; [reflexivity |]. intros [H _]. inversion H.
  - destruct (cache !! k) as [v |] eqn:Hc.
    + rewrite IH. rewrite get_set.
      destruct (decide (n ∈ names ∧ is_Some (cache !! n))) as [[Hin Hs] | Hn].
      * rewrite decide_True; [reflexivity |]. split; [set_solver | exact Hs].
      * destruct (decide (k = n)) as [-> | Hne].
        -- rewrite decide_True; [congruence |]. split; [set_solver | eauto].
        -- rewrite decide_False; [reflexivity |]. intros [Hin Hs].
           apply Hn. split; [set_solver | exact Hs].
    + rewrite IH.
      destruct (decide (n ∈ names ∧ is_Some (cache !! n))) as [[Hin Hs] | Hn].
      * rewrite decide_True; [reflexivity |]. split; [set_solver | exact Hs].
      * rewrite decide_False; [reflexivity |]. intros [Hin Hs].
        apply Hn. split; [| exact Hs].
        apply elem_of_cons in Hin as [-> | Hin]; [| exact Hin].
        rewrite Hc in Hs. destruct Hs; discriminate.
Qed.

Lemma partitionNames_keys (cache : gmap string (list Osv.Vuln))
    (names : list string) (results : Js.Map (list Osv.Vuln))
    (uncached : list string) :
  NoDup names → (∀ n, n ∈ names → n ∉ Js.keys results) →
  Js.keys (Osv.partitionNames cache names results uncached).1
  = Js.keys results ++ cachedOf cache names.
Proof.
  revert results uncached.
  induction names as [| k names IH]; intros results uncached Hnd Hfresh; cbn [Osv.partitionNames].
  - rewrite app_nil_r. reflexivity.
  - apply NoDup_cons in Hnd as [Hk Hnd]. unfold cachedOf. rewrite filter_cons.
    destruct (cache !! k) as [v |] eqn:Hc.
    + rewrite decide_True by eauto. rewrite IH; [| exact Hnd |].
      * rewrite set_new by (apply Hfresh; set_solver).
        unfold Js.keys. rewrite fmap_app, <- app_assoc. reflexivity.
      * intros n Hn. rewrite set_new by (apply Hfresh; set_solver).
        unfold Js.keys. rewrite fmap_app. simpl.
        intros Hin. apply elem_of_app in Hin as [Hin | Hin].
        -- eapply Hfresh; [| exact Hin]. set_solver.
        -- apply list_elem_of_singleton in Hin as ->. contradiction.
    + rewrite decide_False by (intros [? ?]; discriminate).
      apply IH; [exact Hnd |]. intros n Hn. apply Hfresh. set_solver.
Qed.

Section BatchFacts.
Variable fetch : string → Osv.Response.

Lemma stored_app (st : Osv.BatchState) (a b : list string) :
  stored fetch st (a ++ b) = stored fetch (stored fetch st a) b.
Proof.
  unfold stored, Osv.storeBatch, Osv.runBatch.
  rewrite fmap_app, foldl_app. reflexivity.
Qed.

Lemma stored_cons (st : Osv.BatchState) (n : string) (names : list string) :
  stored fetch st (n :: names)
  = stored fetch {| Osv.cache := <[n := fetched fetch n]> (Osv.cache st);
              Osv.results := Js.set (Osv.results st) n (fetched fetch n);
              Osv.queried := Osv.queried st |} names.
Proof. reflexivity. Qed.

Lemma stored_queried (st : Osv.BatchState) (names : list string) :
  Osv.queried (stored fetch st names) = Osv.queried st.
Proof.
  revert st. induction names as [| n names IH]; intros st; [reflexivity |].
  rewrite stored_cons, IH. reflexivity.
Qed.

Lemma stored_cache (st : Osv.BatchState) (names : list string) (n : string) :
  Osv.cache (stored fetch st names) !! n
  = if decide (n ∈ names) then Some (fetched fetch n) else Osv.cache st !! n.
Proof.
  revert st. induction names as [| k names IH]; intros st.
  - rewrite decide_False by (intros H; inversion H). reflexivity.
  - rewrite stored_cons, IH. simpl.
    destruct (decide (n ∈ names)) as [Hin | Hout].
    + rewrite decide_True by set_solver. reflexivity.
    + destruct (decide (k = n)) as [-> | Hne].
      * rewrite decide_True by set_solver. apply lookup_insert_eq.
      * rewrite decide_False by set_solver.
        apply lookup_insert_ne, Hne.
Qed.

Lemma stored_results (st : Osv.BatchState) (names : list string) (n : string) :
  Js.get (Osv.results (stored fetch st names)) n
  = if decide (n ∈ names) then Some (fetched fetch n)
    else Js.get (Osv.results st) n.
Proof.
  revert st. induction names as [| k names IH]; intros st.
  - rewrite decide_False by (intros H; inversion H). reflexivity.
  - rewrite stored_cons, IH. simpl.
    destruct (decide (n ∈ names)) as [Hin | Hout].
    + rewrite decide_True by set_solver. reflexivity.
    + destruct (decide (k = n)) as [-> | Hne].
      * rewrite decide_True by set_solver. apply get_set_eq.
      * rewrite decide_False by set_solver. apply get_set_ne, Hne.
Qed.

Lemma stored_keys (st : Osv.BatchState) (names : list string) :
  NoDup names → (∀ n, n ∈ names → n ∉ Js.keys (Osv.results st)) →
  Js.keys (Osv.results (stored fetch st names))
  = Js.keys (Osv.results st) ++ names.
Proof.
  revert st. induction names as [| k names IH]; intros st Hnd Hfresh.
  - rewrite app_nil_r. reflexivity.
  - apply NoDup_cons in Hnd as [Hk Hnd].
    rewrite stored_cons, IH; [| exact Hnd |]; simpl.
    + rewrite set_new by (apply Hfresh; set_solver).
      unfold Js.keys. rewrite fmap_app, <- app_assoc. reflexivity.
    + intros n Hn. rewrite set_new by (apply Hfresh; set_solver).
      unfold Js.keys. rewrite fmap_app. simpl.
      intros Hin. apply elem_of_app in Hin as [Hin | Hin].
      * eapply Hfresh; [| exact Hin]. set_solver.
      * apply list_elem_of_singleton in Hin as ->. contradiction.
Qed.

End BatchFacts.

Section BatchLoopFacts.
Variable fetch : string → Osv.Response.

Lemma stored_issue (st : Osv.BatchState) (a b : list string) :
  stored fetch (Osv.issue st a) b = Osv.issue (stored fetch st b) a.
Proof.
  revert st. induction b as [| n b IH]; intros st; [reflexivity |].
  rewrite !stored_cons. rewrite <- IH. reflexivity.
Qed.

Lemma processed_nil (st : Osv.BatchState) : processed fetch st [] = st.
Proof.
  unfold processed, Osv.issue. destruct st. simpl.
  rewrite app_nil_r. reflexivity.
Qed.

Lemma processed_app (st : Osv.BatchState) (a b : list string) :
  processed fetch (processed fetch st a) b = processed fetch st (a ++ b).
Proof.
  unfold processed. rewrite stored_issue, stored_app.
  unfold Osv.issue. simpl. rewrite app_assoc. reflexivity.
Qed.

Lemma slice_drop {X : Type} (l : list X) (i c : Z) :
  0 <= i < Z.of_nat (length l) → 1 <= c →
  drop (Z.to_nat i) l
  = Js.slice l i (i + c) ++ drop (Z.to_nat (i + c)) l.
Proof.
  intros Hi Hc. unfold Js.slice, Js.rel_index.
  destruct (Z.ltb_spec i 0) as [? | _]; [lia |].
  destruct (Z.ltb_spec (i + c) 0) as [? | _]; [lia |].
  rewrite (Z.min_l i) by lia.
  rewrite <- (take_drop (Z.to_nat (Z.min (i + c) (Z.of_nat (length l)) - i))
               (drop (Z.to_nat i) l)) at 1.
  f_equal. rewrite drop_drop.
  destruct (Z.le_gt_cases (i + c) (Z.of_nat (length l))) as [Hle | Hgt].
  - rewrite Z.min_l by lia. f_equal. lia.
  - rewrite Z.min_r by lia. rewrite !drop_ge by lia. reflexivity.
Qed.

(** With a concurrency of at least 1 and enough fuel the loop ends, having
    queried and stored every name from position [i] on. *)
Lemma batchLoop_spec (uncached : list string) (concurrency : Z) (fuel : nat) :
  1 <= concurrency →
  ∀ (i : Z) (st : Osv.BatchState),
    0 <= i → Z.of_nat (length uncached) - i <= Z.of_nat fuel →
    Osv.batchLoop fetch fuel uncached concurrency i st
    = Some (processed fetch st (drop (Z.to_nat i) uncached)).
Proof.
  intros Hc. induction fuel as [| fuel IH]; intros i st Hi Hfuel.
  - simpl. destruct (Z.ltb_spec i (Z.of_nat (length uncached))); [lia |].
    rewrite drop_ge by lia. rewrite processed_nil. reflexivity.
  - cbn [Osv.batchLoop].
    destruct (Z.ltb_spec i (Z.of_nat (length uncached))) as [Hlt | Hge].
    + rewrite IH by lia.
      rewrite (slice_drop uncached i concurrency) by lia.
      rewrite <- processed_app. unfold processed at 3.
      rewrite <- stored_issue. reflexivity.
    + rewrite drop_ge by lia. rewrite processed_nil. reflexivity.
Qed.

(** Without progress the loop never ends: with a concurrency of 0 and a
    name to fetch, no amount of fuel is enough. *)
Lemma batchLoop_stuck (uncached : list string) (fuel : nat)
    (st : Osv.BatchState) :
  uncached ≠ [] → Osv.batchLoop fetch fuel uncached 0 0 st = None.
Proof.
  intros Hne. revert st. induction fuel as [| fuel IH]; intros st;
    cbn [Osv.batchLoop];
    (destruct (Z.ltb_spec 0 (Z.of_nat (length uncached))) as [_ | Hge];
     [| destruct uncached; [congruence | simpl in Hge; lia]]).
  - reflexivity.
  - apply IH.
Qed.

Lemma queryVulnerabilitiesBatch_run (fuel : nat) (names : list string)
    (cache : gmap string (list Osv.Vuln)) (concurrency : Z) :
  1 <= concurrency → (length names <= fuel)%nat →
  Osv.queryVulnerabilitiesBatch fetch fuel names cache concurrency
  = Some (processed fetch
            {| Osv.cache := cache;
               Osv.results := (Osv.partitionNames cache names [] []).1;
               Osv.queried := [] |}
            (uncachedOf cache names)).
Proof.
  intros Hc Hfuel. unfold Osv.queryVulnerabilitiesBatch.
  pose proof (partitionNames_uncached cache names [] []) as Hu.
  destruct (Osv.partitionNames cache names [] []) as [results uncached].
  simpl in Hu. subst uncached.
  rewrite batchLoop_spec; [reflexivity | exact Hc | lia |].
  pose proof (length_filter (λ n, cache !! n = None) names) as Hlen.
  unfold uncachedOf. lia.
Qed.

End BatchLoopFacts.

Lemma elem_of_uncachedOf (cache : gmap string (list Osv.Vuln))
    (names : list string) (n : string) :
  n ∈ uncachedOf cache names ↔ n ∈ names ∧ cache !! n = None.
Proof. unfold uncachedOf. rewrite list_elem_of_filter. tauto. Qed.

Lemma batchEnd_results (fetch : string → Osv.Response) (names : list string)
    (cache : gmap string (list Osv.Vuln)) (n : string) :
  Js.get (Osv.results (batchEnd fetch names cache)) n
  = if decide (n ∈ names)
    then Some (default (fetched fetch n) (cache !! n))
    else None.
Proof.
  unfold batchEnd, processed. cbn [Osv.issue Osv.results].
  rewrite stored_results. cbn [Osv.results].
  rewrite partitionNames_get. simpl Js.get.
  destruct (decide (n ∈ uncachedOf cache names)) as [Hu | Hu].
  - apply elem_of_uncachedOf in Hu as [Hin Hc].
    rewrite decide_True by exact Hin. rewrite Hc. reflexivity.
  - destruct (decide (n ∈ names)) as [Hin | Hout].
    + destruct (cache !! n) as [v |] eqn:Hc.
      * rewrite decide_True by eauto. reflexivity.
      * exfalso. apply Hu, elem_of_uncachedOf. split; assumption.
    + rewrite decide_False by tauto. reflexivity.
Qed.

Lemma batchEnd_cache (fetch : string → Osv.Response) (names : list string)
    (cache : gmap string (list Osv.Vuln)) (n : string) :
  Osv.cache (batchEnd fetch names cache) !! n
  = match cache !! n with
    | Some v => Some v
    | None => if decide (n ∈ names) then Some (fetched fetch n) else None
    end.
Proof.
  unfold batchEnd, processed. cbn [Osv.issue Osv.cache].
  rewrite stored_cache. cbn [Osv.cache].
  destruct (decide (n ∈ uncachedOf cache names)) as [Hu | Hu].
  - apply elem_of_uncachedOf in Hu as [Hin Hc].
    rewrite Hc, decide_True by exact Hin. reflexivity.
  - destruct (cache !! n) as [v |] eqn:Hc; [reflexivity |].
    rewrite decide_False; [reflexivity |].
    intros Hin. apply Hu, elem_of_uncachedOf. split; assumption.
Qed.

Lemma batchEnd_queried (fetch : string → Osv.Response) (names : list string)
    (cache : gmap string (list Osv.Vuln)) :
  Osv.queried (batchEnd fetch names cache) = uncachedOf cache names.
Proof.
  unfold batchEnd, processed. cbn [Osv.issue Osv.queried].
  rewrite stored_queried. reflexivity.
Qed.

(** C4.  With a concurrency limit of at least 1 (and fuel for one batch per
    name) [queryVulnerabilitiesBatch] returns; the mapping it returns has a
    finding list for exactly the requested names; a name present in the
    cache gets the cached value and no query is issued for it; a name not in
    the cache gets the fetched list, which is also in the cache afterwards,
    an empty list included; cached entries stay; a failed query yields the
    empty list; and the result for a name depends on the answer for that
    name only, whatever happens to the queries for the other names. *)
Theorem queryVulnerabilitiesBatch_spec (fetch : string → Osv.Response)
    (fuel : nat) (names : list string)
    (cache : gmap string (list Osv.Vuln)) (concurrency : Z) :
  1 <= concurrency → (length names <= fuel)%nat →
  ∃ st,
    Osv.queryVulnerabilitiesBatch fetch fuel names cache concurrency = Some st
    ∧ (∀ n, n ∈ names ↔ is_Some (Js.get (Osv.results st) n))
    ∧ (∀ n v, n ∈ names → cache !! n = Some v →
              Js.get (Osv.results st) n = Some v ∧ n ∉ Osv.queried st)
    ∧ (∀ n, n ∈ names → cache !! n = None →
            Js.get (Osv.results st) n = Some (fetched fetch n)
            ∧ Osv.cache st !! n = Some (fetched fetch n)
            ∧ n ∈ Osv.queried st)
    ∧ (∀ n v, cache !! n = Some v → Osv.cache st !! n = Some v)
    ∧ (∀ n, (∀ data, fetch n ≠ Osv.Ok data) → fetched fetch n = [])
    ∧ (∀ n data, fetch n = Osv.Ok data →
                 fetched fetch n = default [] (Osv.vulns data))
    ∧ (∀ fetch' st',
         Osv.queryVulnerabilitiesBatch fetch' fuel names cache concurrency
         = Some st' →
         ∀ m, fetch' m = fetch m →
              Js.get (Osv.results st') m = Js.get (Osv.results st) m).
Proof.
  intros Hc Hfuel. exists (batchEnd fetch names cache).
  split; [apply queryVulnerabilitiesBatch_run; assumption |].
  repeat split.
  - intros Hin. rewrite batchEnd_results, decide_True by exact Hin. eauto.
  - rewrite batchEnd_results. case_decide; [auto |].
    intros [? ?]; discriminate.
  - rewrite batchEnd_results, decide_True by assumption.
    rewrite H0. reflexivity.
  - rewrite batchEnd_queried, elem_of_uncachedOf. intros [_ ?]. congruence.
  - rewrite batchEnd_results, decide_True by assumption.
    rewrite H0. reflexivity.
  - rewrite batchEnd_cache, H0, decide_True by assumption. reflexivity.
  - rewrite batchEnd_queried, elem_of_uncachedOf. split; assumption.
  - intros n v Hv. rewrite batchEnd_cache, Hv. reflexivity.
  - intros n Hfail. unfold fetched, Osv.queryVulnerabilities.
    destruct (fetch n) as [| status | data] eqn:Hf; try reflexivity.
    exfalso. exact (Hfail data eq_refl).
  - intros n data Hf. unfold fetched, Osv.queryVulnerabilities.
    rewrite Hf. reflexivity.
  - intros fetch' st' Hrun m Hm.
    rewrite queryVulnerabilitiesBatch_run in Hrun by assumption.
    injection Hrun as <-. fold (batchEnd fetch' names cache).
    rewrite !batchEnd_results.
    unfold fetched, Osv.queryVulnerabilities. rewrite Hm. reflexivity.
Qed.

(** Membership in a list that is written out. *)
Ltac elem_of_tac :=
  repeat first [apply list_elem_of_here | apply list_elem_of_further].

Lemma queryVulnerabilitiesBatch_spec_witness :
  ∃ st,
    Osv.queryVulnerabilitiesBatch sampleFetch 3 ["a"; "b"; "c"] sampleCache 2
    = Some st
    ∧ Js.get (Osv.results st) "a" = Some [findingA]
    ∧ Js.get (Osv.results st) "b" = Some []
    ∧ Js.get (Osv.results st) "c" = Some [findingC]
    ∧ Osv.cache st !! "b" = Some [].
Proof.
  destruct (queryVulnerabilitiesBatch_spec sampleFetch 3 ["a"; "b"; "c"]
              sampleCache 2) as (st & Hrun & _ & Hcached & Hfetched & _);
    [lia | simpl; lia |].
  exists st. split; [exact Hrun |].
  split; [| split; [| split]].
  - apply (Hfetched "a"); [elem_of_tac | reflexivity].
  - apply (Hfetched "b"); [elem_of_tac | reflexivity].
  - apply (Hcached "c" [findingC]); [elem_of_tac | reflexivity].
  - apply (Hfetched "b"); [elem_of_tac | reflexivity].
Defined.

(** ** Deduplication *)

Lemma seenStep_spec (seen : Js.Map Osv.Vuln) (v : Osv.Vuln) :
  Osv.seenStep seen v
  = match identified v with
    | Some i => if decide (i ∈ Js.keys seen) then seen else seen ++ [(i, v)]
    | None => seen
    end.
Proof.
  unfold Osv.seenStep, identified.
  destruct (Osv.id v) as [i |]; [| reflexivity].
  destruct (Js.truthy i); [| reflexivity]. simpl.
  destruct (decide (i ∈ Js.keys seen)) as [Hin | Hout].
  - apply has_keys in Hin. rewrite Hin. reflexivity.
  - pose proof Hout as Hh. apply has_false_keys in Hh. rewrite Hh.
    apply set_new, Hout.
Qed.

Lemma seenLoop_spec (l : list Osv.Vuln) (seen : Js.Map Osv.Vuln) :
  foldl Osv.seenStep seen l = seen ++ firstEntries (Js.keys seen) l.
Proof.
  revert seen. induction l as [| v l IH]; intros seen; simpl.
  - rewrite app_nil_r. reflexivity.
  - rewrite IH, seenStep_spec.
    destruct (identified v) as [i |]; [| reflexivity].
    destruct (decide (i ∈ Js.keys seen)); [reflexivity |].
    unfold Js.keys. rewrite fmap_app, <- app_assoc. reflexivity.
Qed.

Lemma dedupLoop_spec (m : Js.Map (list Osv.Vuln)) (seen : Js.Map Osv.Vuln) :
  foldl (λ seen entry, foldl Osv.seenStep seen entry.2) seen m
  = foldl Osv.seenStep seen (concat (Js.values m)).
Proof.
  revert seen. induction m as [| [k vs] m IH]; intros seen; simpl.
  - reflexivity.
  - rewrite IH, foldl_app. reflexivity.
Qed.

Lemma deduplicateVulnerabilities_first (m : Js.Map (list Osv.Vuln)) :
  Osv.deduplicateVulnerabilities m = firstPerId (concat (Js.values m)).
Proof.
  unfold Osv.deduplicateVulnerabilities, firstPerId.
  rewrite dedupLoop_spec, seenLoop_spec. reflexivity.
Qed.

Lemma firstEntries_elem (l : list Osv.Vuln) (seen : list string)
    (i : string) (v : Osv.Vuln) :
  (i, v) ∈ firstEntries seen l →
  identified v = Some i ∧ (i ∉ seen) ∧ (v ∈ l).
Proof.
  revert seen. induction l as [| x l IH]; intros seen; simpl.
  - intros H. inversion H.
  - destruct (identified x) as [j |] eqn:Hx.
    + destruct (decide (j ∈ seen)) as [Hin | Hout].
      * intros H. destruct (IH _ H) as (? & ? & ?).
        repeat split; [assumption | assumption | apply list_elem_of_further; assumption].
      * intros H. apply elem_of_cons in H as [H | H].
        -- injection H as -> ->.
           repeat split; [assumption | assumption | apply list_elem_of_here].
        -- destruct (IH _ H) as (? & Hn & ?).
           repeat split; [assumption | | apply list_elem_of_further; assumption].
           intros Hs. apply Hn. apply elem_of_app. left. exact Hs.
    + intros H. destruct (IH _ H) as (? & ? & ?).
      repeat split; [assumption | assumption | apply list_elem_of_further; assumption].
Qed.

Lemma firstEntries_ids (l : list Osv.Vuln) (seen : list string) :
  identified <$> (firstEntries seen l).*2
  = Some <$> (firstEntries seen l).*1.
Proof.
  revert seen. induction l as [| x l IH]; intros seen; simpl; [reflexivity |].
  destruct (identified x) as [j |] eqn:Hx; [| apply IH].
  destruct (decide (j ∈ seen)); [apply IH |].
  cbn [fmap list_fmap]. simpl. rewrite Hx. f_equal. apply IH.
Qed.

Lemma firstEntries_NoDup (l : list Osv.Vuln) (seen : list string) :
  NoDup (firstEntries seen l).*1.
Proof.
  revert seen. induction l as [| x l IH]; intros seen; simpl; [constructor |].
  destruct (identified x) as [j |]; [| apply IH].
  destruct (decide (j ∈ seen)); [apply IH |].
  cbn [fmap list_fmap]. simpl. constructor; [| apply IH].
  intros Hin. apply list_elem_of_fmap in Hin as ([i v] & Hj & Hiv).
  simpl in Hj. subst i.
  destruct (firstEntries_elem _ _ _ _ Hiv) as (_ & Hn & _).
  apply Hn. apply elem_of_app. right. apply list_elem_of_singleton. reflexivity.
Qed.

Lemma firstEntries_first (l : list Osv.Vuln) (seen : list string)
    (i : string) :
  i ∉ seen → firstWith i (firstEntries seen l).*2 = firstWith i l.
Proof.
  unfold firstWith. revert seen.
  induction l as [| x l IH]; intros seen Hi; simpl; [reflexivity |].
  rewrite (filter_cons _ x l).
  destruct (identified x) as [j |] eqn:Hx.
  - destruct (decide (j ∈ seen)) as [Hin | Hout].
    + rewrite decide_False by congruence. apply IH, Hi.
    + cbn [fmap list_fmap]. simpl. rewrite filter_cons, Hx.
      destruct (decide (Some j = Some i)) as [_ | Hne]; [reflexivity |].
      apply IH. intros Hs. apply elem_of_app in Hs as [Hs | Hs];
        [contradiction |].
      apply list_elem_of_singleton in Hs. congruence.
  - rewrite decide_False by discriminate. apply IH, Hi.
Qed.

Lemma batchEnd_keys (fetch : string → Osv.Response) (names : list string)
    (cache : gmap string (list Osv.Vuln)) :
  NoDup names →
  Js.keys (Osv.results (batchEnd fetch names cache))
  = cachedOf cache names ++ uncachedOf cache names.
Proof.
  intros Hnd. unfold batchEnd, processed. cbn [Osv.issue Osv.results].
  assert (Hk : Js.keys (Osv.partitionNames cache names [] []).1
               = cachedOf cache names).
  { rewrite partitionNames_keys; [reflexivity | exact Hnd |].
    intros n _ Hin. inversion Hin. }
  rewrite stored_keys; cbn [Osv.results].
  - rewrite Hk. reflexivity.
  - apply NoDup_filter, Hnd.
  - intros n Hn. rewrite Hk. apply elem_of_uncachedOf in Hn as [_ Hc].
    unfold cachedOf. rewrite list_elem_of_filter. intros [[v Hv] _].
    congruence.
Qed.

(** C5, counterexample.  "a" is requested before "c", "c" is served from
    the cache and "a" is fetched, and both lists hold a finding with the
    identifier CVE-1.  The mapping lists "c" first, so the copy kept is the
    one of "c"; in request order the first occurrence is the one of "a". *)
Lemma deduplicateVulnerabilities_cached_first :
  ∃ st,
    Osv.queryVulnerabilitiesBatch sampleFetch 2 ["a"; "c"] sampleCache 5
    = Some st
    ∧ Js.keys (Osv.results st) = ["c"; "a"]
    ∧ Osv.deduplicateVulnerabilities (Osv.results st) = [findingC]
    ∧ firstPerId (inRequestOrder ["a"; "c"] (Osv.results st)) = [findingA].
Proof.
  eexists. split; [vm_compute; reflexivity |].
  repeat split.
Qed.

(** C5, as amended.  For every mapping, [deduplicateVulnerabilities]
    returns a list with exactly one finding per distinct identifier: the
    first occurrence met while iterating the entries of the mapping in the
    mapping's own order and each list in list order, so of two copies under
    an earlier entry A and a later entry B the one kept is A's; a finding
    without identifier is left out.  The mapping [queryVulnerabilitiesBatch]
    returns for distinct names lists the names served from the cache first
    (in request order), then the fetched names (in request order). *)
Theorem deduplicateVulnerabilities_spec :
  (∀ m : Js.Map (list Osv.Vuln),
     let flat := concat (Js.values m) in
     let out := Osv.deduplicateVulnerabilities m in
     NoDup (identified <$> out)
     ∧ (∀ v, v ∈ out → is_Some (identified v) ∧ v ∈ flat)
     ∧ (∀ i, firstWith i out = firstWith i flat))
  ∧ (∀ (fetch : string → Osv.Response) (fuel : nat) (names : list string)
       (cache : gmap string (list Osv.Vuln)) (concurrency : Z),
       1 <= concurrency → (length names <= fuel)%nat → NoDup names →
       ∃ st,
         Osv.queryVulnerabilitiesBatch fetch fuel names cache concurrency
         = Some st
         ∧ Js.keys (Osv.results st)
           = cachedOf cache names ++ uncachedOf cache names)
  ∧ Osv.deduplicateVulnerabilities
      [("A", [findingA; anonymous]); ("B", [emptyId; findingC])]
    = [findingA].
Proof.
  split; [| split; [| reflexivity]].
  - intros m. cbv zeta. rewrite deduplicateVulnerabilities_first.
    unfold firstPerId. repeat split.
    + rewrite firstEntries_ids. apply NoDup_fmap; [apply _ |].
      apply firstEntries_NoDup.
    + apply list_elem_of_fmap in H as ([i x] & -> & Hix).
      destruct (firstEntries_elem _ _ _ _ Hix) as (Hid & _ & _).
      simpl. rewrite Hid. eauto.
    + apply list_elem_of_fmap in H as ([i x] & -> & Hix).
      destruct (firstEntries_elem _ _ _ _ Hix) as (_ & _ & Hin).
      exact Hin.
    + intros i. apply firstEntries_first. intros Hin. inversion Hin.
  - intros fetch fuel names cache concurrency Hc Hfuel Hnd.
    exists (batchEnd fetch names cache). split.
    + apply queryVulnerabilitiesBatch_run; assumption.
    + apply batchEnd_keys, Hnd.
Qed.

Lemma deduplicateVulnerabilities_spec_witness :
  ∃ st,
    Osv.queryVulnerabilitiesBatch sampleFetch 3 ["a"; "b"; "c"] sampleCache 2
    = Some st
    ∧ Js.keys (Osv.results st) = ["c"; "a"; "b"].
Proof.
  destruct (proj1 (proj2 deduplicateVulnerabilities_spec) sampleFetch 3%nat
              ["a"; "b"; "c"] sampleCache 2) as (st & Hrun & Hkeys).
  - lia.
  - simpl. lia.
  - repeat constructor; intros H; repeat (apply elem_of_cons in H as [H | H];
      [discriminate |]); inversion H.
  - exists st. split; [exact Hrun | exact Hkeys].
Defined.

(** ** The graph fallback of [getTransitiveCVEMetrics] *)

Section FallbackFacts.
Variable getDependencyGraph :
  string → string → option DepsDev.DependencyGraph.
Variable packageName : string.

Lemma truthy_nonempty (s : string) : Js.truthy s = true ↔ s ≠ "".
Proof. destruct s; simpl; split; congruence. Qed.



End FallbackFacts.

Lemma uniqueFrom_length (names seen : list string) :
  (length (Analyzer.uniqueFrom seen names) <= length names)%nat.
Proof.
  revert seen. induction names as [| n names IH]; intros seen; simpl.
  - lia.
  - case_bool_decide; simpl; [specialize (IH seen) | specialize (IH (n :: seen))];
      lia.
Qed.


Lemma byDateDesc_key (a b : DepsDev.VersionEntry) :
  DepsDev.byDateDesc a b <= 0 ↔ - DepsDev.dateOf a <= - DepsDev.dateOf b.
Proof. unfold DepsDev.byDateDesc. lia. Qed.

Lemma sorted_newest_first (versions : list DepsDev.VersionEntry) :
  StronglySorted (λ a b, DepsDev.dateOf b <= DepsDev.dateOf a)
    (Js.sort DepsDev.byDateDesc versions).
Proof.
  pose proof (sort_sorted DepsDev.byDateDesc (λ v, - DepsDev.dateOf v)
                byDateDesc_key versions) as Hs.
  induction Hs as [| x l Hl IH Hx]; constructor; [exact IH |].
  eapply Forall_impl; [exact Hx |]. intros y Hy. simpl in Hy. lia.
Qed.

Section EngineFacts.
Variable calculateCVEMetrics : list Osv.Vuln → Osv.CVEMetrics.
Variable fetch : string → Osv.Response.
Variable getPackageInfo : string → option DepsDev.PackageInfo.
Variable getDependencyGraph :
  string → string → option DepsDev.DependencyGraph.


(** The deep path of [getTransitiveCVEMetrics], given what step 2 yields. *)
Lemma getTransitiveCVEMetrics_run (fuel : nat) (packageName : string)
    (versionRange : option string) (cache : gmap string (list Osv.Vuln))
    (concurrency : Z) (tree : list DepsDev.TreePackage)
    (resolved : option string) (requests : list string) :
  Analyzer.treeStep getPackageInfo getDependencyGraph packageName
    (Analyzer.resolveStep getPackageInfo packageName versionRange)
  = (tree, resolved, requests) →
  1 <= concurrency → (length tree <= fuel)%nat →
  let names := Analyzer.unique (DepsDev.pkg_name <$> tree) in
  let st := batchEnd fetch names cache in
  Analyzer.getTransitiveCVEMetrics calculateCVEMetrics fetch getPackageInfo
    getDependencyGraph fuel packageName versionRange cache concurrency false
  = Some ({| Analyzer.cveMetrics :=
               calculateCVEMetrics
                 (Osv.deduplicateVulnerabilities (Osv.results st));
             Analyzer.transitivePackageCount :=
               Analyzer.countRelation "INDIRECT" tree;
             Analyzer.directPackageCount :=
               Analyzer.countRelation "DIRECT" tree;
             Analyzer.totalPackagesInTree := Z.of_nat (length names);
             Analyzer.packageNames := names |},
          {| Analyzer.resolvedVersion := resolved;
             Analyzer.graphRequests := requests;
             Analyzer.vulnCache := Osv.cache st;
             Analyzer.vulnQueries := Osv.queried st |}).
Proof.
  intros Htree Hc Hfuel. cbv zeta.
  unfold Analyzer.getTransitiveCVEMetrics. rewrite Htree.
  rewrite queryVulnerabilitiesBatch_run; [reflexivity | exact Hc |].
  pose proof (uniqueFrom_length (DepsDev.pkg_name <$> tree) []) as Hlen.
  rewrite length_fmap in Hlen. unfold Analyzer.unique. lia.
Qed.

Lemma batchEnd_single (packageName : string)
    (cache : gmap string (list Osv.Vuln)) :
  Osv.results (batchEnd fetch [packageName] cache)
  = [(packageName, default (fetched fetch packageName) (cache !! packageName))].
Proof.
  unfold batchEnd, processed, uncachedOf. cbn [Osv.issue Osv.results].
  rewrite filter_cons, filter_nil. cbn [Osv.partitionNames].
  destruct (cache !! packageName) as [v |] eqn:Hc.
  - rewrite decide_False by discriminate. reflexivity.
  - rewrite decide_True by reflexivity. reflexivity.
Qed.

End EngineFacts.



(** ** Double precision and exact arithmetic *)

(** On every combination of values the sub-scores can take, rounding the
    weighted sum computed on doubles gives the total of exact arithmetic. *)
Lemma doublesAgree_true : doublesAgree = true.
Proof. vm_compute. reflexivity. Qed.

Ltac in_list := vm_compute; repeat first [left; reflexivity | right].

Lemma cveScore_values (m : Osv.CVEMetrics) :
  In (Calculator.calculateCVEScore (Some m)) cveScores.
Proof.
  unfold Calculator.calculateCVEScore.
  destruct (Osv.totalCVEs m =? 0); [in_list |]. cbv zeta.
  repeat match goal with
         | |- context [Js.Qgtb ?a ?b] => destruct (Js.Qgtb a b)
         end; in_list.
Qed.

Lemma technicalLagScore_values (cve : Osv.CVEMetrics)
    (m : option DepsDev.MaintenanceMetrics) :
  In (Calculator.calculateTechnicalLagScore cve m) lagScores.
Proof.
  unfold Calculator.calculateTechnicalLagScore. cbv zeta.
  repeat match goal with
         | |- context [?a <? ?b] => destruct (a <? b)
         end; in_list.
Qed.

Lemma complexityScore_values (versionInfo : option DepsDev.VersionInfo)
    (overrides : DepsDev.Overrides) :
  In (DepsDev.complexityScore
        (DepsDev.calculateComplexityMetrics versionInfo overrides))
    complexityScores.
Proof.
  unfold DepsDev.calculateComplexityMetrics.
  destruct (versionInfo ≫= DepsDev.dependencies); [| in_list].
  cbv zeta. cbn [DepsDev.complexityScore].
  repeat match goal with
         | |- context [?a <? ?b] => destruct (a <? b)
         end; in_list.
Qed.

Lemma maintenanceScore_values (now : Z)
    (packageInfo : option DepsDev.PackageInfo) :
  In (effectiveScore
        (Some (DepsDev.score
                 (DepsDev.calculateMaintenanceMetrics now packageInfo))))
    maintenanceScores.
Proof.
  unfold DepsDev.calculateMaintenanceMetrics.
  destruct (packageInfo ≫= DepsDev.versions); [| in_list].
  cbv zeta. cbn [DepsDev.score].
  repeat match goal with
         | |- context [Js.Qgtb ?a ?b] => destruct (Js.Qgtb a b)
         end;
  repeat match goal with
         | |- context [?a <? ?b] => destruct (a <? b)
         end; in_list.
Qed.

Lemma effective_complexity_values (score : Z) :
  In score complexityScores →
  In (effectiveScore (Some score)) complexityScores.
Proof.
  intros H. unfold complexityScores in H. simpl in H.
  repeat destruct H as [<- | H]; [in_list .. | contradiction].
Qed.

(** X6.  For every composite score the engine produces, the total of the
    exact model is what [Math.round] yields on the weighted sum computed on
    IEEE doubles, the arithmetic of the source. *)
Lemma totalScore_double (now : Z) (packageInfo : option DepsDev.PackageInfo)
    (versionInfo : option DepsDev.VersionInfo)
    (tr : Analyzer.TransitiveResult) :
  let pm :=
    Analyzer.overrideCounts
      (DepsDev.getPackageMetrics now packageInfo versionInfo) tr in
  let s := Calculator.calculateCompositeScore (Analyzer.cveMetrics tr) pm in
  let b := Calculator.breakdown s in
  Double.roundsTo
    (Double.weighted
       (Calculator.factorScore (Calculator.historicalCVEs b))
       (Calculator.factorScore (Calculator.maintenanceHealth b))
       (Calculator.factorScore (Calculator.dependencyComplexity b))
       (Calculator.factorScore (Calculator.technicalLag b)))
    (Calculator.totalScore s) = true.
Proof.
  cbv zeta.
  set (pm0 := DepsDev.getPackageMetrics now packageInfo versionInfo).
  destruct (overrideCounts_scores pm0 tr) as [Hm Hc].
  destruct (breakdown_scores (Analyzer.cveMetrics tr)
              (Analyzer.overrideCounts pm0 tr)) as (-> & -> & -> & -> & _).
  rewrite totalScore_integer, Hm, Hc.
  pose proof (cveScore_values (Analyzer.cveMetrics tr)) as Ha.
  pose proof (technicalLagScore_values (Analyzer.cveMetrics tr)
                (DepsDev.maintenance pm0)) as Hd.
  assert (Hb : In (effectiveScore (DepsDev.score <$> DepsDev.maintenance pm0))
                 maintenanceScores).
  { subst pm0. unfold DepsDev.getPackageMetrics.
    destruct packageInfo; apply maintenanceScore_values. }
  assert (Hcx : In (effectiveScore
                      (DepsDev.complexityScore <$> DepsDev.complexity pm0))
                  complexityScores).
  { subst pm0. unfold DepsDev.getPackageMetrics.
    destruct packageInfo; cbn [DepsDev.complexity fmap option_fmap option_map];
      apply effective_complexity_values, complexityScore_values. }
  pose proof doublesAgree_true as Hall. unfold doublesAgree in Hall.
  rewrite forallb_forall in Hall. specialize (Hall _ Ha).
  rewrite forallb_forall in Hall. specialize (Hall _ Hb).
  rewrite forallb_forall in Hall. specialize (Hall _ Hcx).
  rewrite forallb_forall in Hall. exact (Hall _ Hd).
Qed.

(** Outside the values the calculators produce the two can differ: for
    sub-scores 0, 4, 109 and 45 the sum on doubles is just below 28.5 and
    rounds to 28, the exact sum is 28.5 and rounds to 29. *)
Lemma double_differs_out_of_range :
  Double.roundsTo (Double.weighted 0 4 109 45) 28 = true
  ∧ Js.round (weightedSum 0 4 109 45 50) = 29.
Proof. split; vm_compute; reflexivity. Qed.

(* ===================================================================== *)
(** * Further properties of the code *)
(* ===================================================================== *)

(** ** Further properties of the calculator *)

Lemma avgBand_mono (r r' : Q) : (r <= r')%Q → avgBand r <= avgBand r'.
Proof.
  intros H. unfold avgBand.
  repeat match goal with
         | |- context [Qlt_le_dec ?b ?a] => destruct (Qlt_le_dec b a)
         end; first [lia | exfalso; lra].
Qed.

Lemma criticalBand_mono (r r' : Q) :
  (r <= r')%Q → criticalBand r <= criticalBand r'.
Proof.
  intros H. unfold criticalBand.
  repeat match goal with
         | |- context [Qlt_le_dec ?b ?a] => destruct (Qlt_le_dec b a)
         end; first [lia | exfalso; lra].
Qed.

Lemma highBand_mono (r r' : Q) : (r <= r')%Q → highBand r <= highBand r'.
Proof.
  intros H. unfold highBand.
  repeat match goal with
         | |- context [Qlt_le_dec ?b ?a] => destruct (Qlt_le_dec b a)
         end; first [lia | exfalso; lra].
Qed.

Lemma cveScore_bands (m : Osv.CVEMetrics) :
  Osv.totalCVEs m ≠ 0 →
  Calculator.calculateCVEScore (Some m)
  = Js.clamp (100 - avgBand (Osv.avgCVEsPerYear m)
              - criticalBand (Osv.criticalCVEsPerYear m)
              - highBand (Osv.highCVEsPerYear m)).
Proof.
  intros Hne. unfold Calculator.calculateCVEScore.
  apply Z.eqb_neq in Hne. rewrite Hne. cbv zeta.
  rewrite avgBand_code, criticalBand_code, highBand_code. reflexivity.
Qed.

(** X1.  [calculateTechnicalLagScore] never rises when the last release is
    older or when there are more critical and high findings, and it stays
    between 10 and 100; it is 100 exactly when the last release is at most
    180 days old (or its age is unknown) and there is no critical or high
    finding. *)
Theorem calculateTechnicalLagScore_antitone :
  (∀ (cve cve' : Osv.CVEMetrics) (m m' : option DepsDev.MaintenanceMetrics),
     lagDays m <= lagDays m' →
     severeFindings cve <= severeFindings cve' →
     10 <= Calculator.calculateTechnicalLagScore cve' m'
     ∧ Calculator.calculateTechnicalLagScore cve' m'
       <= Calculator.calculateTechnicalLagScore cve m
     ∧ Calculator.calculateTechnicalLagScore cve m <= 100)
  ∧ (∀ (cve : Osv.CVEMetrics) (m : option DepsDev.MaintenanceMetrics),
       Calculator.calculateTechnicalLagScore cve m = 100
       ↔ lagDays m <= 180 ∧ severeFindings cve <= 0).
Proof.
  split.
  - intros cve cve' m m'.
    unfold lagDays, severeFindings, Calculator.calculateTechnicalLagScore.
    cbv zeta. intros Hd Hs.
    repeat match goal with
           | |- context [?a <? ?b] => destruct (Z.ltb_spec a b)
           end; unfold Js.clamp; lia.
  - intros cve m.
    unfold lagDays, severeFindings, Calculator.calculateTechnicalLagScore.
    cbv zeta.
    repeat match goal with
           | |- context [?a <? ?b] => destruct (Z.ltb_spec a b)
           end; unfold Js.clamp; lia.
Qed.

Lemma calculateTechnicalLagScore_antitone_witness :
  10 <= Calculator.calculateTechnicalLagScore manyFindings
          (DepsDev.maintenance unevenPackage)
  ∧ Calculator.calculateTechnicalLagScore manyFindings
      (DepsDev.maintenance unevenPackage)
    <= Calculator.calculateTechnicalLagScore noFindings None
  ∧ Calculator.calculateTechnicalLagScore noFindings None <= 100.
Proof.
  apply (proj1 calculateTechnicalLagScore_antitone noFindings manyFindings
           None (DepsDev.maintenance unevenPackage));
    vm_compute; discriminate.
Defined.

(** X2.  [calculateCVEScore] never rises when the three yearly rates rise:
    of two metrics records, the one whose rates are all at least as high
    (and which has at least one finding) has the lower or the same
    score. *)
Theorem calculateCVEScore_antitone (m m' : Osv.CVEMetrics) :
  Osv.totalCVEs m' ≠ 0 →
  (Osv.avgCVEsPerYear m <= Osv.avgCVEsPerYear m')%Q →
  (Osv.criticalCVEsPerYear m <= Osv.criticalCVEsPerYear m')%Q →
  (Osv.highCVEsPerYear m <= Osv.highCVEsPerYear m')%Q →
  Calculator.calculateCVEScore (Some m')
  <= Calculator.calculateCVEScore (Some m).
Proof.
  intros Hne Havg Hcrit Hhigh.
  destruct (Z.eq_dec (Osv.totalCVEs m) 0) as [H0 | Hm].
  - assert (H100 : Calculator.calculateCVEScore (Some m) = 100).
    { unfold Calculator.calculateCVEScore. rewrite H0. reflexivity. }
    rewrite H100. apply cveScore_range.
  - rewrite !cveScore_bands by assumption.
    pose proof (avgBand_mono _ _ Havg).
    pose proof (criticalBand_mono _ _ Hcrit).
    pose proof (highBand_mono _ _ Hhigh).
    unfold Js.clamp. lia.
Qed.

Lemma calculateCVEScore_antitone_witness :
  Calculator.calculateCVEScore (Some manyFindings)
  <= Calculator.calculateCVEScore (Some unevenFindings).
Proof.
  apply (calculateCVEScore_antitone unevenFindings manyFindings);
    vm_compute; discriminate.
Defined.

Lemma riskLevel_of_total (cve : Osv.CVEMetrics) (pm : DepsDev.PackageMetrics) :
  Calculator.riskLevel (Calculator.calculateCompositeScore cve pm)
  = Calculator.getRiskLevel
      (Calculator.totalScore (Calculator.calculateCompositeScore cve pm)).
Proof.
  unfold Calculator.calculateCompositeScore. cbv zeta.
  cbn [Calculator.riskLevel Calculator.totalScore]. reflexivity.
Qed.

Lemma round_lower (n : Z) (x : Q) : (inject_Z n <= x)%Q → n <= Js.round x.
Proof.
  intros H. unfold Js.round.
  rewrite <- (Qfloor_Z n). apply Qfloor_resp_le. lra.
Qed.

(** ** Rounding to double precision *)

Lemma pow2_pos (e : Z) : (0 < Qpower 2 e)%Q.
Proof. apply Qpower_0_lt. reflexivity. Qed.

Lemma pow2_plus (a b : Z) : (Qpower 2 (a + b) == Qpower 2 a * Qpower 2 b)%Q.
Proof. apply Qpower_plus. discriminate. Qed.

Lemma pow2_succ (e : Z) : (Qpower 2 (e + 1) == 2 * Qpower 2 e)%Q.
Proof. rewrite pow2_plus. change (Qpower 2 1) with 2%Q. ring. Qed.

Lemma pow2_le (a b : Z) : a <= b → (Qpower 2 a <= Qpower 2 b)%Q.
Proof. intros H. apply Qpower_le_compat_l; [exact H | discriminate]. Qed.

Lemma pow2_lt_inv (a b : Z) : (Qpower 2 a < Qpower 2 b)%Q → a < b.
Proof. intros H. apply (Qpower_lt_compat_l_inv 2); [exact H | reflexivity]. Qed.

Lemma pow2_Z (n : Z) : 0 <= n → (Qpower 2 n == inject_Z (2 ^ n))%Q.
Proof. intros H. rewrite Zpower_Qpower by exact H. reflexivity. Qed.

Lemma log2_bounds (p : positive) :
  (Qpower 2 (Z.log2 (Zpos p)) <= inject_Z (Zpos p))%Q
  ∧ (inject_Z (Zpos p) < 2 * Qpower 2 (Z.log2 (Zpos p)))%Q.
Proof.
  destruct (Z.log2_spec (Zpos p)) as [Hlo Hhi]; [reflexivity |].
  pose proof (Z.log2_nonneg (Zpos p)) as Hnn.
  rewrite <- pow2_succ, !pow2_Z by lia.
  rewrite <- Zle_Qle, <- Zlt_Qlt. split; [exact Hlo | exact Hhi].
Qed.

Lemma Qle_bool_gt (a b : Q) : Qle_bool a b = false → (b < a)%Q.
Proof.
  intros H. apply Qnot_le_lt. intros Hle.
  apply Qle_bool_iff in Hle. congruence.
Qed.

(** The binade of a positive number. *)
Lemma binade_spec (x : Q) :
  (0 < x)%Q →
  let k0 := Z.log2 (Qnum x) - Z.log2 (Zpos (Qden x)) in
  let k := if Qle_bool (Qpower 2 k0) x then k0 else k0 - 1 in
  (Qpower 2 k <= x)%Q ∧ (x < 2 * Qpower 2 k)%Q.
Proof.
  intros Hx. destruct x as [n d]. cbn [Qnum Qden].
  assert (Hn : 0 < n) by (unfold Qlt in Hx; simpl in Hx; lia).
  destruct n as [| pn | pn]; try lia.
  destruct (log2_bounds pn) as [HAlo HAhi].
  destruct (log2_bounds d) as [HBlo HBhi].
  set (a := Z.log2 (Z.pos pn)) in *. set (b := Z.log2 (Z.pos d)) in *.
  pose proof (pow2_pos a) as HA. pose proof (pow2_pos b) as HB.
  pose proof (pow2_pos (a - b)) as HK.
  assert (HKB : (Qpower 2 (a - b) * Qpower 2 b == Qpower 2 a)%Q).
  { rewrite <- pow2_plus. replace (a - b + b) with a by lia. reflexivity. }
  assert (HxD : ((Z.pos pn # d) * inject_Z (Z.pos d) == inject_Z (Z.pos pn))%Q).
  { rewrite (Qmake_Qdiv (Z.pos pn) d). field. discriminate. }
  assert (HD : (0 < inject_Z (Z.pos d))%Q) by reflexivity.
  revert HAlo HAhi HBlo HBhi HA HB HK HKB HxD HD Hx.
  generalize (Qpower 2 a) (Qpower 2 b) (inject_Z (Z.pos pn))
    (inject_Z (Z.pos d)) (Z.pos pn # d)%Q.
  intros A B N D x HAlo HAhi HBlo HBhi HA HB.
  cbv zeta.
  destruct (Qle_bool (Qpower 2 (a - b)) x) eqn:Hle.
  - apply Qle_bool_iff in Hle. revert Hle.
    generalize (Qpower 2 (a - b)). intros K Hle HK HKB HxD HD Hx.
    split; [exact Hle |].
    apply (Qmult_lt_r _ _ D HD).
    nra.
  - apply Qle_bool_gt in Hle. revert Hle.
    replace (a - b) with (a - b - 1 + 1) at 1 2 3 by lia.
    rewrite pow2_succ.
    generalize (Qpower 2 (a - b - 1)). intros K Hle HK HKB HxD HD Hx.
    split; [| exact Hle].
    apply Qlt_le_weak. apply (Qmult_lt_r _ _ B HB). nra.
Qed.

Lemma ulpExponent_spec (x : Q) :
  (0 < x)%Q →
  -1074 <= Js.ulpExponent x
  ∧ (x < Qpower 2 (Js.ulpExponent x + 53))%Q
  ∧ (-1074 < Js.ulpExponent x → (Qpower 2 (Js.ulpExponent x + 52) <= x)%Q).
Proof.
  intros Hx. pose proof (binade_spec x Hx) as H. cbv zeta in H.
  unfold Js.ulpExponent.
  set (k := if Qle_bool _ x then _ else _) in *. clearbody k.
  destruct H as [Hlo Hhi]. rewrite <- pow2_succ in Hhi.
  split; [lia | split].
  - eapply Qlt_le_trans; [exact Hhi |]. apply pow2_le. lia.
  - intros He. replace (Z.max (k - 52) (-1074) + 52) with k by lia.
    exact Hlo.
Qed.

Lemma ulpExponent_mono (x y : Q) :
  (0 < x)%Q → (x <= y)%Q → Js.ulpExponent x <= Js.ulpExponent y.
Proof.
  intros Hx Hxy.
  assert (Hy : (0 < y)%Q) by lra.
  destruct (ulpExponent_spec x Hx) as (Hx1 & _ & Hx3).
  destruct (ulpExponent_spec y Hy) as (Hy1 & Hy2 & _).
  destruct (Z.le_gt_cases (Js.ulpExponent x) (Js.ulpExponent y)) as [H | H];
    [exact H |].
  assert (Hlt : (Qpower 2 (Js.ulpExponent x + 52)
                 < Qpower 2 (Js.ulpExponent y + 53))%Q).
  { specialize (Hx3 ltac:(lia)). lra. }
  apply pow2_lt_inv in Hlt. lia.
Qed.

Lemma roundHalfEven_cases (x : Q) :
  let f := Qfloor x in
  let r := (x - inject_Z f)%Q in
  (Js.roundHalfEven x = f ∧ (r <= 1 # 2)%Q ∧ ((r == 1 # 2)%Q → Z.even f = true))
  ∨ (Js.roundHalfEven x = f + 1 ∧ (1 # 2 <= r)%Q
     ∧ ((r == 1 # 2)%Q → Z.even f = false)).
Proof.
  cbv zeta. unfold Js.roundHalfEven. cbv zeta.
  set (f := Qfloor x). set (r := (x - inject_Z f)%Q).
  destruct (Qle_bool r (1 # 2)) eqn:H1.
  - apply Qle_bool_iff in H1.
    destruct (Qle_bool (1 # 2) r) eqn:H2.
    + apply Qle_bool_iff in H2.
      destruct (Z.even f) eqn:He.
      * left. split; [reflexivity | split; [exact H1 | reflexivity]].
      * right. split; [reflexivity | split; [exact H2 | reflexivity]].
    + apply Qle_bool_gt in H2. left.
      split; [reflexivity | split; [exact H1 |]].
      intros Heq. rewrite Heq in H2. discriminate.
  - apply Qle_bool_gt in H1. right.
    split; [reflexivity | split; [lra |]].
    intros Heq. rewrite Heq in H1. discriminate.
Qed.

Lemma roundHalfEven_mono (x y : Q) :
  (x <= y)%Q → Js.roundHalfEven x <= Js.roundHalfEven y.
Proof.
  intros Hxy.
  pose proof (Qfloor_resp_le x y Hxy) as Hf.
  pose proof (Qfloor_le x) as Hx1. pose proof (Qlt_floor x) as Hx2.
  pose proof (Qfloor_le y) as Hy1. pose proof (Qlt_floor y) as Hy2.
  pose proof (roundHalfEven_cases x) as Cx.
  pose proof (roundHalfEven_cases y) as Cy.
  cbv zeta in Cx, Cy.
  destruct (Z.eq_dec (Qfloor x) (Qfloor y)) as [Heq | Hne].
  - rewrite <- Heq in *.
    destruct Cx as [(-> & Hx3 & Hx4) | (-> & Hx3 & Hx4)],
             Cy as [(-> & Hy3 & Hy4) | (-> & Hy3 & Hy4)]; try lia.
    assert (Hrx : (x - inject_Z (Qfloor x) == 1 # 2)%Q) by lra.
    assert (Hry : (y - inject_Z (Qfloor x) == 1 # 2)%Q) by lra.
    specialize (Hx4 Hrx). specialize (Hy4 Hry). congruence.
  - destruct Cx as [(-> & _) | (-> & _)], Cy as [(-> & _) | (-> & _)]; lia.
Qed.

Lemma roundHalfEven_Z (n : Z) : Js.roundHalfEven (inject_Z n) = n.
Proof.
  pose proof (roundHalfEven_cases (inject_Z n)) as C. cbv zeta in C.
  rewrite Qfloor_Z in C.
  destruct C as [(-> & _) | (_ & H & _)]; [reflexivity |].
  exfalso. lra.
Qed.

Lemma nearest_eq (x : Q) :
  (Js.nearest x
   == inject_Z (Js.roundHalfEven (x / Qpower 2 (Js.ulpExponent x)))
      * Qpower 2 (Js.ulpExponent x))%Q.
Proof. unfold Js.nearest. cbv zeta. apply Qred_correct. Qed.

Lemma scaled_mono (x y : Q) (e : Z) :
  (x <= y)%Q →
  (inject_Z (Js.roundHalfEven (x / Qpower 2 e)) * Qpower 2 e
   <= inject_Z (Js.roundHalfEven (y / Qpower 2 e)) * Qpower 2 e)%Q.
Proof.
  intros Hxy. pose proof (pow2_pos e) as He.
  apply Qmult_le_compat_r; [| lra].
  rewrite <- Zle_Qle. apply roundHalfEven_mono.
  apply Qmult_le_compat_r; [exact Hxy |].
  apply Qlt_le_weak, Qinv_lt_0_compat, He.
Qed.

Lemma nearest_mono (x y : Q) :
  (0 < x)%Q → (x <= y)%Q → (Js.nearest x <= Js.nearest y)%Q.
Proof.
  intros Hx Hxy. assert (Hy : (0 < y)%Q) by lra.
  rewrite !nearest_eq.
  pose proof (ulpExponent_mono x y Hx Hxy) as He.
  destruct (ulpExponent_spec x Hx) as (Hx1 & Hx2 & _).
  destruct (ulpExponent_spec y Hy) as (_ & _ & Hy3).
  set (ex := Js.ulpExponent x) in *. set (ey := Js.ulpExponent y) in *.
  destruct (Z.eq_dec ex ey) as [Heq | Hne].
  - rewrite <- Heq. apply scaled_mono, Hxy.
  - specialize (Hy3 ltac:(lia)).
    pose proof (pow2_pos ex) as Pex. pose proof (pow2_pos ey) as Pey.
    apply (Qle_trans _ (Qpower 2 (ex + 53))).
    + replace (ex + 53) with (53 + ex) by lia.
      rewrite pow2_plus, (pow2_Z 53) by lia.
      apply Qmult_le_compat_r; [| lra].
      rewrite <- Zle_Qle.
      rewrite <- (roundHalfEven_Z (2 ^ 53)).
      apply roundHalfEven_mono.
      apply Qle_shift_div_r; [exact Pex |].
      rewrite <- (pow2_Z 53), <- pow2_plus by lia.
      replace (53 + ex) with (ex + 53) by lia. lra.
    + apply (Qle_trans _ (Qpower 2 (ey + 52))); [apply pow2_le; lia |].
      replace (ey + 52) with (52 + ey) in * by lia.
      rewrite pow2_plus, (pow2_Z 52) in * by lia.
      apply Qmult_le_compat_r; [| lra].
      rewrite <- Zle_Qle.
      rewrite <- (roundHalfEven_Z (2 ^ 52)).
      apply roundHalfEven_mono.
      apply Qle_shift_div_l; [exact Pey | exact Hy3].
Qed.

Lemma nearest_nonneg (x : Q) : (0 < x)%Q → (0 <= Js.nearest x)%Q.
Proof.
  intros Hx. rewrite nearest_eq.
  pose proof (pow2_pos (Js.ulpExponent x)) as He.
  apply Qmult_le_0_compat; [| lra].
  change 0%Q with (inject_Z 0). rewrite <- Zle_Qle.
  rewrite <- (roundHalfEven_Z 0). apply roundHalfEven_mono.
  apply Qle_shift_div_l; [exact He |].
  change (inject_Z 0) with 0%Q. lra.
Qed.

Lemma Qnum_pos (x : Q) : (0 < x)%Q ↔ 0 < Qnum x.
Proof. unfold Qlt. simpl. lia. Qed.

Lemma double_pos (x : Q) : (0 < x)%Q → Js.double x = Js.nearest x.
Proof.
  intros H. apply Qnum_pos in H. unfold Js.double.
  destruct (Qnum x); try lia. reflexivity.
Qed.

Lemma double_zero (x : Q) : (x == 0)%Q → Js.double x = 0%Q.
Proof.
  intros H. unfold Js.double. unfold Qeq in H. simpl in H.
  replace (Qnum x) with 0 by lia. reflexivity.
Qed.

(** Rounding to the Js.nearest Js.double is monotone on the numbers that are not
    negative. *)
Lemma double_mono (x y : Q) :
  (0 <= x)%Q → (x <= y)%Q → (Js.double x <= Js.double y)%Q.
Proof.
  intros Hx Hxy.
  destruct (Qlt_le_dec 0 x) as [Hpos | Hzero].
  - rewrite (double_pos x Hpos), (double_pos y) by lra.
    apply nearest_mono; assumption.
  - rewrite (double_zero x) by lra.
    destruct (Qlt_le_dec 0 y) as [Hy | Hy].
    + rewrite (double_pos y Hy). apply nearest_nonneg, Hy.
    + rewrite (double_zero y) by lra. lra.
Qed.

(** A sum or product that is at least a Js.double [n] stays so when it is
    rounded. *)
Lemma double_lower (n x : Q) :
  (Js.double n == n)%Q → (0 <= n)%Q → (n <= x)%Q → (n <= Js.double x)%Q.
Proof.
  intros Hn H0 Hx. rewrite <- Hn. apply double_mono; assumption.
Qed.

(** On the sample rates, dependency counts and release frequencies, the
    sum on the binary64 numbers of the kernel rounds to the value of
    [estimateMaintenanceHours]. *)
Lemma hoursAgree_true : hoursAgree = true.
Proof. vm_compute. reflexivity. Qed.

(** X3.  [estimateMaintenanceHours], which adds the hours up in double
    precision, is at least the base of 2 hours, at least 7 for a package
    with release frequency "low" and at least 12 for an abandoned one, when
    the rates and the dependency count are not negative. *)
Theorem estimateMaintenanceHours_bounds (cve : Osv.CVEMetrics)
    (pm : DepsDev.PackageMetrics) :
  (0 <= Osv.avgCVEsPerYear cve)%Q →
  (0 <= Osv.criticalCVEsPerYear cve)%Q →
  (∀ c, DepsDev.complexity pm = Some c → 0 <= DepsDev.directDependencies c) →
  let hours := Calculator.estimateMaintenanceHours cve pm in
  2 <= hours
  ∧ (frequencyOf pm = Some "low" → 7 <= hours)
  ∧ (frequencyOf pm = Some "abandoned" → 12 <= hours).
Proof.
  intros Havg Hcrit Hdeps. cbv zeta.
  unfold Calculator.estimateMaintenanceHours, frequencyOf. cbv zeta.
  set (d := Js.num_or _ 0).
  assert (Hd : (0 <= inject_Z d)%Q).
  { change 0%Q with (inject_Z 0). rewrite <- Zle_Qle. subst d.
    destruct (DepsDev.complexity pm) as [c |]; simpl; [| lia].
    specialize (Hdeps c eq_refl).
    destruct (DepsDev.directDependencies c =? 0); lia. }
  clearbody d.
  assert (H0 : (Js.double 0 == 0)%Q) by reflexivity.
  assert (H2 : (Js.double 2 == 2)%Q) by reflexivity.
  assert (H7 : (Js.double 7 == 7)%Q) by reflexivity.
  assert (H12 : (Js.double 12 == 12)%Q) by reflexivity.
  set (t1 := Js.double (Js.double (Osv.avgCVEsPerYear cve) * 2)).
  set (t2 := Js.double (Js.double (Osv.criticalCVEsPerYear cve) * 4)).
  set (t3 := Js.double (Js.double (inject_Z d) * Js.double (2 # 10))).
  assert (Ht1 : (0 <= t1)%Q).
  { apply double_lower; [exact H0 | lra |].
    pose proof (double_lower 0 _ H0 ltac:(lra) Havg). lra. }
  assert (Ht2 : (0 <= t2)%Q).
  { apply double_lower; [exact H0 | lra |].
    pose proof (double_lower 0 _ H0 ltac:(lra) Hcrit). lra. }
  assert (Ht3 : (0 <= t3)%Q).
  { apply double_lower; [exact H0 | lra |].
    pose proof (double_lower 0 _ H0 ltac:(lra) Hd).
    assert (0 <= Js.double (2 # 10))%Q by (vm_compute; discriminate).
    apply Qmult_le_0_compat; assumption. }
  clearbody t1 t2 t3.
  change (Js.double (0 + 2)) with 2%Q.
  set (h := Js.double (Js.double (Js.double (2 + t1) + t2) + t3)).
  assert (Hh : (2 <= h)%Q).
  { apply double_lower; [exact H2 | lra |].
    assert (2 <= Js.double (Js.double (2 + t1) + t2))%Q; [| lra].
    apply double_lower; [exact H2 | lra |].
    assert (2 <= Js.double (2 + t1))%Q; [| lra].
    apply double_lower; [exact H2 | lra |]. lra. }
  clearbody h.
  assert (Hlow : 7 <= Js.round (Js.double (h + 5))).
  { apply round_lower. change (inject_Z 7) with 7%Q.
    apply double_lower; [exact H7 | lra | lra]. }
  assert (Hab : 12 <= Js.round (Js.double (h + 10))).
  { apply round_lower. change (inject_Z 12) with 12%Q.
    apply double_lower; [exact H12 | lra | lra]. }
  assert (Hbase : 2 <= Js.round h).
  { apply round_lower. change (inject_Z 2) with 2%Q. exact Hh. }
  repeat split.
  - repeat case_bool_decide; lia.
  - intros Hf. rewrite Hf.
    rewrite bool_decide_eq_false_2 by discriminate.
    rewrite bool_decide_eq_true_2 by reflexivity. exact Hlow.
  - intros Hf. rewrite Hf.
    rewrite bool_decide_eq_true_2 by reflexivity. exact Hab.
Qed.

Lemma estimateMaintenanceHours_bounds_witness :
  2 <= Calculator.estimateMaintenanceHours unevenFindings unevenPackage
  ∧ 7 <= Calculator.estimateMaintenanceHours unevenFindings unevenPackage.
Proof.
  destruct (estimateMaintenanceHours_bounds unevenFindings unevenPackage)
    as (H2 & H7 & _).
  - vm_compute. discriminate.
  - vm_compute. discriminate.
  - intros c Hc. injection Hc as <-. vm_compute. discriminate.
  - split; [exact H2 | apply H7; reflexivity].
Defined.

Lemma factor_weighted (score n : Z) (d : positive) :
  Calculator.weightedScore (Calculator.factor score (n # d))
  = (2 * (score * n) + Z.pos d) / (2 * Z.pos d).
Proof.
  unfold Calculator.factor. cbn [Calculator.weightedScore].
  assert (Heq : (inject_Z score * (n # d) == (score * n) # d)%Q).
  { unfold Qeq, Qmult, inject_Z. simpl. lia. }
  unfold Js.round. rewrite Heq. apply round_fraction.
Qed.

Lemma factorsAgree_true : factorsAgree = true.
Proof. vm_compute. reflexivity. Qed.

(** X4.  The five [weightedScore] fields of the breakdown are rounded one
    by one, so they need not add up to [totalScore]; the two differ by at
    most 2, and by 2 for sub-scores 65, 45, 90 and 30.  On doubles each
    weighted score of a sub-score from 0 to 100 is the one of exact
    arithmetic. *)
Theorem breakdown_weighted_sum :
  (∀ (cve : Osv.CVEMetrics) (pm : DepsDev.PackageMetrics),
     let s := Calculator.calculateCompositeScore cve pm in
     Z.abs (Calculator.totalScore s - weightedTotal (Calculator.breakdown s))
     <= 2)
  ∧ (let s := Calculator.calculateCompositeScore unevenFindings unevenPackage in
     Calculator.totalScore s = 60
     ∧ weightedTotal (Calculator.breakdown s) = 62)
  ∧ factorsAgree = true.
Proof.
  split; [| split; [split; reflexivity | exact factorsAgree_true]].
  intros cve pm. cbv zeta. rewrite totalScore_integer.
  unfold weightedTotal, Calculator.calculateCompositeScore.
  cbv zeta. cbn [Calculator.breakdown Calculator.historicalCVEs
    Calculator.maintenanceHealth Calculator.dependencyComplexity
    Calculator.technicalLag Calculator.communitySignals].
  rewrite !num_or_effective.
  unfold Calculator.WEIGHTS. cbn [Calculator.w_historicalCVEs
    Calculator.w_maintenance Calculator.w_complexity
    Calculator.w_technicalLag Calculator.w_communitySignals].
  rewrite !factor_weighted.
  set (a := Calculator.calculateCVEScore (Some cve)).
  set (b := effectiveScore (DepsDev.score <$> DepsDev.maintenance pm)).
  set (c := effectiveScore
              (DepsDev.complexityScore <$> DepsDev.complexity pm)).
  set (d := Calculator.calculateTechnicalLagScore cve (DepsDev.maintenance pm)).
  Z.to_euclidean_division_equations. lia.
Qed.

(** ** Further properties of the metrics of src/api/depsDev.js *)

Lemma maintenanceScores_bounds (x : Z) :
  In x maintenanceScores → 10 <= x <= 100.
Proof.
  unfold maintenanceScores. simpl.
  intros H. repeat destruct H as [<- | H]; lia.
Qed.

Lemma complexityScores_bounds (x : Z) :
  In x complexityScores → 30 <= x <= 100.
Proof.
  unfold complexityScores. simpl.
  intros H. repeat destruct H as [<- | H]; lia.
Qed.

Lemma lagScores_bounds (x : Z) : In x lagScores → 10 <= x <= 100.
Proof.
  unfold lagScores. simpl.
  intros H. repeat destruct H as [<- | H]; lia.
Qed.

(** The sub-scores of the metrics [getPackageMetrics] returns, as the
    composite score uses them. *)
Lemma engine_subscores (now : Z) (packageInfo : option DepsDev.PackageInfo)
    (versionInfo : option DepsDev.VersionInfo)
    (tr : Analyzer.TransitiveResult) :
  let pm :=
    Analyzer.overrideCounts
      (DepsDev.getPackageMetrics now packageInfo versionInfo) tr in
  10 <= effectiveScore (DepsDev.score <$> DepsDev.maintenance pm) <= 100
  ∧ 30 <= effectiveScore
             (DepsDev.complexityScore <$> DepsDev.complexity pm) <= 100
  ∧ 10 <= Calculator.calculateTechnicalLagScore (Analyzer.cveMetrics tr)
            (DepsDev.maintenance pm) <= 100.
Proof.
  cbv zeta.
  set (pm0 := DepsDev.getPackageMetrics now packageInfo versionInfo).
  destruct (overrideCounts_scores pm0 tr) as [Hm Hc]. rewrite Hm, Hc.
  split; [| split].
  - apply maintenanceScores_bounds. subst pm0.
    unfold DepsDev.getPackageMetrics.
    destruct packageInfo; apply maintenanceScore_values.
  - apply complexityScores_bounds. subst pm0.
    unfold DepsDev.getPackageMetrics.
    destruct packageInfo; cbn [DepsDev.complexity fmap option_fmap option_map];
      apply effective_complexity_values, complexityScore_values.
  - apply lagScores_bounds, technicalLagScore_values.
Qed.

(** X5.  The CVE sub-score decides the range of the total: for every score
    the engine computes, twice the total lies between the CVE sub-score
    plus 24 and the CVE sub-score plus 91.  So a package without known
    findings has a total of at least 62 and is rated LOW or MEDIUM, and a
    package with CVE sub-score 0 has a total of at most 45 and is rated
    ELEVATED or worse. *)
Theorem cveScore_dominates :
  ∀ (now : Z) (packageInfo : option DepsDev.PackageInfo)
    (versionInfo : option DepsDev.VersionInfo)
    (tr : Analyzer.TransitiveResult),
    let pm :=
      Analyzer.overrideCounts
        (DepsDev.getPackageMetrics now packageInfo versionInfo) tr in
    let s := Calculator.calculateCompositeScore (Analyzer.cveMetrics tr) pm in
    let cve := Calculator.calculateCVEScore (Some (Analyzer.cveMetrics tr)) in
    (cve + 24 <= 2 * Calculator.totalScore s
     ∧ 2 * Calculator.totalScore s <= cve + 91)
    ∧ (Osv.totalCVEs (Analyzer.cveMetrics tr) = 0 →
       62 <= Calculator.totalScore s
       ∧ 3 <= riskRank (Calculator.riskLevel s))
    ∧ (cve = 0 →
       Calculator.totalScore s <= 45
       ∧ riskRank (Calculator.riskLevel s) <= 2).
Proof.
  intros now packageInfo versionInfo tr. cbv zeta.
  destruct (engine_subscores now packageInfo versionInfo tr)
    as (Hm & Hc & Hl).
  set (pm := Analyzer.overrideCounts _ tr) in *.
  pose proof (totalScore_integer (Analyzer.cveMetrics tr) pm) as Ht.
  rewrite riskLevel_of_total.
  set (t := Calculator.totalScore _) in *.
  set (a := Calculator.calculateCVEScore _) in *.
  split; [| split].
  - clearbody t a. Z.to_euclidean_division_equations. lia.
  - intros H0.
    assert (Ha : a = 100).
    { subst a. unfold Calculator.calculateCVEScore. rewrite H0. reflexivity. }
    assert (H62 : 62 <= t).
    { clearbody t a. Z.to_euclidean_division_equations. lia. }
    split; [exact H62 |]. unfold Calculator.getRiskLevel.
    destruct (Z.leb_spec 80 t); [simpl; lia |].
    destruct (Z.leb_spec 60 t); [simpl; lia | lia].
  - intros Ha.
    assert (H45 : t <= 45).
    { clearbody t a. Z.to_euclidean_division_equations. lia. }
    split; [exact H45 |]. unfold Calculator.getRiskLevel.
    destruct (Z.leb_spec 80 t); [lia |].
    destruct (Z.leb_spec 60 t); [lia |].
    destruct (Z.leb_spec 40 t); [simpl; lia |].
    destruct (Z.leb_spec 20 t); simpl; lia.
Qed.

Lemma cveScore_dominates_witness :
  62 <= Calculator.totalScore
          (Calculator.calculateCompositeScore noFindings
             (Analyzer.overrideCounts (DepsDev.getPackageMetrics 0 None None)
                (singleTree noFindings)))
  ∧ Calculator.totalScore
      (Calculator.calculateCompositeScore manyFindings
         (Analyzer.overrideCounts (DepsDev.getPackageMetrics 0 None None)
            (singleTree manyFindings))) <= 45.
Proof.
  split.
  - apply (proj1 (proj2 (cveScore_dominates 0 None None
                           (singleTree noFindings)))). reflexivity.
  - apply (proj2 (proj2 (cveScore_dominates 0 None None
                           (singleTree manyFindings)))). reflexivity.
Defined.

Lemma newest_is_head (versions : list DepsDev.VersionEntry)
    (latest : DepsDev.VersionEntry) :
  head (Js.sort DepsDev.byDateDesc versions) = Some latest →
  latest ∈ versions
  ∧ ∀ v, v ∈ versions → DepsDev.dateOf v <= DepsDev.dateOf latest.
Proof.
  intros Hhead.
  pose proof (sorted_newest_first versions) as Hs.
  pose proof (sort_perm DepsDev.byDateDesc versions) as Hp.
  destruct (Js.sort DepsDev.byDateDesc versions) as [| x rest];
    [discriminate |].
  injection Hhead as ->. split.
  - rewrite <- Hp. apply list_elem_of_here.
  - intros v Hv. rewrite <- Hp in Hv.
    apply elem_of_cons in Hv as [-> | Hv]; [lia |].
    apply StronglySorted_inv in Hs as [_ Hall].
    exact (proj1 (Forall_forall _ _) Hall v Hv).
Qed.

Lemma filter_none {X : Type} (P : X → Prop) `{∀ x, Decision (P x)}
    (l : list X) :
  (∀ x, x ∈ l → ¬ P x) → filter P l = [].
Proof.
  induction l as [| x l IH]; intros Hl; [reflexivity |].
  rewrite filter_cons, decide_False by (apply Hl, list_elem_of_here).
  apply IH. intros y Hy. apply Hl, list_elem_of_further, Hy.
Qed.

(** X7.  A package whose newest release is more than 730 days old has no
    release within the last two years, so [calculateMaintenanceMetrics]
    rates it "abandoned" with score 10 (the staleness penalty of 60 never
    comes without the penalty of 30), and not actively maintained. *)
Theorem stale_release_abandoned (now : Z)
    (packageInfo : option DepsDev.PackageInfo) (days : Z) :
  let m := DepsDev.calculateMaintenanceMetrics now packageInfo in
  DepsDev.daysSinceLastRelease m = Some days → 730 < days →
  DepsDev.releaseFrequency m = "abandoned"
  ∧ DepsDev.score m = 10
  ∧ DepsDev.activelyMaintained m = false.
Proof.
  cbv zeta. unfold DepsDev.calculateMaintenanceMetrics.
  destruct (packageInfo ≫= DepsDev.versions) as [versions |];
    [| discriminate].
  cbv zeta. cbn [DepsDev.daysSinceLastRelease DepsDev.releaseFrequency
    DepsDev.score DepsDev.activelyMaintained].
  destruct (head (Js.sort DepsDev.byDateDesc versions)) as [latest |] eqn:Hh;
    [| discriminate].
  cbn [mbind option_bind].
  destruct (DepsDev.publishedAt latest) as [d |] eqn:Hd; [| discriminate].
  cbn [fmap option_fmap option_map Js.null_num Js.nullish].
  intros Hdays Hstale. injection Hdays as Hdays. rewrite Hdays.
  destruct (newest_is_head versions latest Hh) as [_ Hmax].
  assert (Hlatest : DepsDev.dateOf latest = d).
  { unfold DepsDev.dateOf. rewrite Hd. reflexivity. }
  assert (Hold : d < now - 2 * 365 * 24 * 60 * 60 * 1000).
  { unfold DepsDev.msPerDay in Hdays.
    Z.to_euclidean_division_equations. lia. }
  assert (Hnone : filter
                    (λ v, now - 2 * 365 * 24 * 60 * 60 * 1000
                          < DepsDev.dateOf v) versions = []).
  { apply filter_none. intros v Hv. specialize (Hmax v Hv). lia. }
  rewrite Hnone. cbn [length Z.of_nat].
  change (Js.Qgtb (0 # 2) 12) with false.
  change (Js.Qgtb (0 # 2) 6) with false.
  change (Js.Qgtb (0 # 2) 2) with false.
  change (Js.Qgtb (0 # 2) 0) with false.
  cbv iota.
  destruct (Z.ltb_spec 730 days) as [_ | ?]; [| lia].
  change (String.eqb "abandoned" "abandoned") with true. cbv iota.
  rewrite andb_false_r. repeat split.
Qed.

Lemma stale_release_abandoned_witness :
  DepsDev.releaseFrequency
    (DepsDev.calculateMaintenanceMetrics 86400000000 (Some staleInfo))
  = "abandoned"
  ∧ DepsDev.score
      (DepsDev.calculateMaintenanceMetrics 86400000000 (Some staleInfo)) = 10
  ∧ DepsDev.activelyMaintained
      (DepsDev.calculateMaintenanceMetrics 86400000000 (Some staleInfo))
    = false.
Proof.
  apply (stale_release_abandoned 86400000000 (Some staleInfo) 1000).
  - vm_compute. reflexivity.
  - lia.
Defined.

(** X8.  A package [calculateMaintenanceMetrics] reports as actively
    maintained has a score of at least 65, is not rated "abandoned", and
    has a release within the last two years. *)
Theorem activelyMaintained_score (now : Z)
    (packageInfo : option DepsDev.PackageInfo) :
  let m := DepsDev.calculateMaintenanceMetrics now packageInfo in
  DepsDev.activelyMaintained m = true →
  65 <= DepsDev.score m
  ∧ DepsDev.releaseFrequency m ≠ "abandoned"
  ∧ ∃ versions v,
      packageInfo ≫= DepsDev.versions = Some versions
      ∧ v ∈ versions ∧ recentRelease now v.
Proof.
  cbv zeta. unfold DepsDev.calculateMaintenanceMetrics.
  destruct (packageInfo ≫= DepsDev.versions) as [versions |];
    [| discriminate].
  cbv zeta. cbn [DepsDev.releaseFrequency DepsDev.score
    DepsDev.activelyMaintained].
  set (days := Js.null_num _).
  destruct (filter (λ v, now - 2 * 365 * 24 * 60 * 60 * 1000
                         < DepsDev.dateOf v) versions)
    as [| v recent] eqn:Hrecent.
  - cbn [length Z.of_nat].
    change (Js.Qgtb (0 # 2) 12) with false.
    change (Js.Qgtb (0 # 2) 6) with false.
    change (Js.Qgtb (0 # 2) 2) with false.
    change (Js.Qgtb (0 # 2) 0) with false.
    cbv iota. change (String.eqb "abandoned" "abandoned") with true.
    rewrite andb_false_r. discriminate.
  - assert (Hv : v ∈ versions ∧ recentRelease now v).
    { assert (Hin : v ∈ filter (λ v, now - 2 * 365 * 24 * 60 * 60 * 1000
                                      < DepsDev.dateOf v) versions).
      { rewrite Hrecent. apply list_elem_of_here. }
      apply list_elem_of_filter in Hin as [Hr Hin]. split; [exact Hin |].
      exact Hr. }
    assert (Hpos : Js.Qgtb (Z.of_nat (length (v :: recent)) # 2) 0 = true).
    { apply Qgtb_true. unfold Qlt. simpl. lia. }
    rewrite Hpos.
    intros Hactive. apply andb_true_iff in Hactive as [Hdays _].
    apply Z.ltb_lt in Hdays.
    split; [| split].
    + repeat match goal with
             | |- context [Js.Qgtb ?a ?b] => destruct (Js.Qgtb a b)
             end;
      repeat match goal with
             | |- context [?a <? ?b] => destruct (Z.ltb_spec a b)
             end; try lia; vm_compute; discriminate.
    + repeat match goal with
             | |- context [Js.Qgtb ?a ?b] => destruct (Js.Qgtb a b)
             end; discriminate.
    + exists versions, v. split; [reflexivity | exact Hv].
Qed.

Lemma activelyMaintained_score_witness :
  65 <= DepsDev.score (DepsDev.calculateMaintenanceMetrics 400
                         (sampleInfo "pkg"))
  ∧ DepsDev.releaseFrequency
      (DepsDev.calculateMaintenanceMetrics 400 (sampleInfo "pkg"))
    = "low".
Proof.
  destruct (activelyMaintained_score 400 (sampleInfo "pkg")) as (H & _ & _).
  - vm_compute. reflexivity.
  - split; [exact H | vm_compute; reflexivity].
Defined.

(** X9.  The maintenance score is 0 exactly for a package without version
    list (one the registry does not know); with a version list it lies
    between 10 and 100, and an empty version list gives 70 and
    "abandoned".  So the default 50 of [calculateCompositeScore] replaces
    the maintenance score of exactly the unknown packages. *)
Theorem maintenanceScore_zero_iff_unknown (now : Z)
    (packageInfo : option DepsDev.PackageInfo) :
  let m := DepsDev.calculateMaintenanceMetrics now packageInfo in
  (DepsDev.score m = 0 ↔ packageInfo ≫= DepsDev.versions = None)
  ∧ (is_Some (packageInfo ≫= DepsDev.versions) → 10 <= DepsDev.score m <= 100)
  ∧ (∀ (cve : Osv.CVEMetrics) (versionInfo : option DepsDev.VersionInfo),
      Calculator.factorScore
        (Calculator.maintenanceHealth
           (Calculator.breakdown
              (Calculator.calculateCompositeScore cve
                 (DepsDev.getPackageMetrics now packageInfo versionInfo))))
      = if decide (packageInfo ≫= DepsDev.versions = None) then 50
        else DepsDev.score m)
  ∧ (let empty :=
       DepsDev.calculateMaintenanceMetrics now
         (Some {| DepsDev.versions := Some [] |}) in
     DepsDev.score empty = 70
     ∧ DepsDev.releaseFrequency empty = "abandoned"
     ∧ DepsDev.daysSinceLastRelease empty = None).
Proof.
  cbv zeta.
  assert (Hknown : ∀ versions,
            packageInfo ≫= DepsDev.versions = Some versions →
            10 <= DepsDev.score
                    (DepsDev.calculateMaintenanceMetrics now packageInfo)
               <= 100).
  { intros versions Hv. unfold DepsDev.calculateMaintenanceMetrics.
    rewrite Hv. cbv zeta. cbn [DepsDev.score].
    repeat match goal with
           | |- context [Js.Qgtb ?a ?b] => destruct (Js.Qgtb a b)
           end;
    repeat match goal with
           | |- context [?a <? ?b] => destruct (a <? b)
           end; vm_compute; split; discriminate. }
  assert (Hunknown : packageInfo ≫= DepsDev.versions = None →
            DepsDev.calculateMaintenanceMetrics now packageInfo
            = DepsDev.unknownMaintenance).
  { intros Hv. unfold DepsDev.calculateMaintenanceMetrics. rewrite Hv.
    reflexivity. }
  split; [| split; [| split; [| repeat split]]].
  - destruct (packageInfo ≫= DepsDev.versions) as [versions |] eqn:Hv.
    + specialize (Hknown versions eq_refl). split; [lia | discriminate].
    + rewrite Hunknown by reflexivity. split; reflexivity.
  - intros [versions Hv]. rewrite Hv in Hknown. apply (Hknown versions).
    reflexivity.
  - intros cve versionInfo.
    destruct (breakdown_scores cve
                (DepsDev.getPackageMetrics now packageInfo versionInfo))
      as (_ & -> & _).
    assert (Hm : DepsDev.maintenance
                   (DepsDev.getPackageMetrics now packageInfo versionInfo)
                 = Some (DepsDev.calculateMaintenanceMetrics now packageInfo)).
    { unfold DepsDev.getPackageMetrics. destruct packageInfo; reflexivity. }
    rewrite Hm. cbn [fmap option_fmap option_map]. unfold effectiveScore.
    destruct (packageInfo ≫= DepsDev.versions) as [versions |] eqn:Hv.
    + specialize (Hknown versions eq_refl).
      rewrite decide_False by lia. rewrite decide_False by discriminate.
      reflexivity.
    + rewrite Hunknown by reflexivity.
      rewrite decide_True by reflexivity. rewrite decide_True by reflexivity.
      reflexivity.
Qed.

Lemma maintenanceScore_zero_iff_unknown_witness :
  10 <= DepsDev.score
          (DepsDev.calculateMaintenanceMetrics 400 (sampleInfo "pkg")) <= 100.
Proof.
  apply (proj1 (proj2 (maintenanceScore_zero_iff_unknown 400
                         (sampleInfo "pkg")))).
  eexists. reflexivity.
Defined.

(** X10.  [calculateMaintenanceMetrics] derives the release frequency from
    the number of versions published within the last two years: more than
    24 is "very active", 13 to 24 "active", 5 to 12 "moderate", 1 to 4
    "low" and none "abandoned"; [releasesPerYear] is half that number and
    [totalVersions] the length of the version list. *)
Theorem releaseFrequency_by_count (now : Z)
    (packageInfo : option DepsDev.PackageInfo)
    (versions : list DepsDev.VersionEntry) :
  packageInfo ≫= DepsDev.versions = Some versions →
  let m := DepsDev.calculateMaintenanceMetrics now packageInfo in
  let recent :=
    length (filter (λ v, now - twoYears < DepsDev.dateOf v) versions) in
  DepsDev.releaseFrequency m = frequencyByCount recent
  ∧ DepsDev.releasesPerYear m = Some (Z.of_nat recent # 2)
  ∧ DepsDev.totalVersions m = Z.of_nat (length versions).
Proof.
  intros Hv. cbv zeta. unfold DepsDev.calculateMaintenanceMetrics.
  rewrite Hv. cbv zeta.
  cbn [DepsDev.releaseFrequency DepsDev.releasesPerYear
       DepsDev.totalVersions].
  change (now - 2 * 365 * 24 * 60 * 60 * 1000) with (now - twoYears).
  set (n := length _).
  split; [| split; reflexivity].
  unfold frequencyByCount.
  assert (Hq : ∀ k : Z, Js.Qgtb (Z.of_nat n # 2) (inject_Z k)
                        = (2 * k <? Z.of_nat n)).
  { intros k. unfold Js.Qgtb, Qle_bool, inject_Z. simpl.
    destruct (Z.ltb_spec (2 * k) (Z.of_nat n));
      destruct (Z.leb_spec (Z.of_nat n * 1) (k * 2)); simpl; try reflexivity;
      lia. }
  change 12%Q with (inject_Z 12). change 6%Q with (inject_Z 6).
  change 2%Q with (inject_Z 2). change 0%Q with (inject_Z 0).
  rewrite !Hq.
  repeat match goal with
         | |- context [(?a <? ?b)%nat] => destruct (Nat.ltb_spec a b)
         end;
  repeat match goal with
         | |- context [?a <? ?b] => destruct (Z.ltb_spec a b)
         end; try reflexivity; lia.
Qed.

Lemma releaseFrequency_by_count_witness :
  DepsDev.releaseFrequency
    (DepsDev.calculateMaintenanceMetrics 400 (sampleInfo "pkg")) = "low"
  ∧ DepsDev.releasesPerYear
      (DepsDev.calculateMaintenanceMetrics 400 (sampleInfo "pkg"))
    = Some (3 # 2)
  ∧ DepsDev.totalVersions
      (DepsDev.calculateMaintenanceMetrics 400 (sampleInfo "pkg")) = 3.
Proof.
  apply (releaseFrequency_by_count 400 (sampleInfo "pkg") sampleVersions).
  reflexivity.
Defined.

(** X11.  When [calculateMaintenanceMetrics] reports the days since the
    last release, the version list holds an entry with a publish date that
    no date of the list exceeds, [lastReleaseDate] is that date, and the
    days are the whole days from that date to now. *)
Theorem daysSinceLastRelease_newest (now : Z)
    (packageInfo : option DepsDev.PackageInfo) (days : Z) :
  let m := DepsDev.calculateMaintenanceMetrics now packageInfo in
  DepsDev.daysSinceLastRelease m = Some days →
  ∃ versions latest published,
    packageInfo ≫= DepsDev.versions = Some versions
    ∧ latest ∈ versions
    ∧ DepsDev.publishedAt latest = Some published
    ∧ (∀ v, v ∈ versions → DepsDev.dateOf v <= published)
    ∧ DepsDev.lastReleaseDate m = Some published
    ∧ days * DepsDev.msPerDay <= now - published
      < (days + 1) * DepsDev.msPerDay.
Proof.
  cbv zeta. unfold DepsDev.calculateMaintenanceMetrics.
  destruct (packageInfo ≫= DepsDev.versions) as [versions |];
    [| discriminate].
  cbv zeta. cbn [DepsDev.daysSinceLastRelease DepsDev.lastReleaseDate].
  destruct (head (Js.sort DepsDev.byDateDesc versions)) as [latest |] eqn:Hh;
    [| discriminate].
  cbn [mbind option_bind].
  destruct (DepsDev.publishedAt latest) as [d |] eqn:Hd; [| discriminate].
  cbn [fmap option_fmap option_map]. intros Hdays. injection Hdays as <-.
  destruct (newest_is_head versions latest Hh) as [Hin Hmax].
  assert (Hlatest : DepsDev.dateOf latest = d).
  { unfold DepsDev.dateOf. rewrite Hd. reflexivity. }
  exists versions, latest, d.
  split; [reflexivity |]. split; [exact Hin |]. split; [exact Hd |].
  split; [intros v Hv; rewrite <- Hlatest; apply Hmax, Hv |].
  split; [reflexivity |].
  unfold DepsDev.msPerDay. Z.to_euclidean_division_equations. lia.
Qed.

Lemma daysSinceLastRelease_newest_witness :
  ∃ versions latest published,
    Some staleInfo ≫= DepsDev.versions = Some versions
    ∧ latest ∈ versions
    ∧ DepsDev.publishedAt latest = Some published
    ∧ (∀ v, v ∈ versions → DepsDev.dateOf v <= published)
    ∧ DepsDev.lastReleaseDate
        (DepsDev.calculateMaintenanceMetrics 86400000000 (Some staleInfo))
      = Some published
    ∧ 1000 * DepsDev.msPerDay <= 86400000000 - published
      < (1000 + 1) * DepsDev.msPerDay.
Proof.
  apply (daysSinceLastRelease_newest 86400000000 (Some staleInfo) 1000).
  vm_compute. reflexivity.
Defined.

Lemma totalBand_mono (t t' : Z) :
  t <= t' → 0 <= totalBand t ∧ totalBand t <= totalBand t' ∧ totalBand t' <= 50.
Proof. intros H. unfold totalBand. repeat case_decide; lia. Qed.

Lemma directBand_mono (d d' : Z) :
  d <= d' →
  0 <= directBand d ∧ directBand d <= directBand d' ∧ directBand d' <= 20.
Proof. intros H. unfold directBand. repeat case_decide; lia. Qed.

Lemma complexityScore_bands (deps : list string) (ov : DepsDev.Overrides) :
  let c := DepsDev.calculateComplexityMetrics (declaring deps) ov in
  DepsDev.complexityScore c
  = Js.clamp (100 - totalBand (DepsDev.totalDependencies c)
              - directBand (DepsDev.directDependencies c)).
Proof.
  cbv zeta. unfold DepsDev.calculateComplexityMetrics, declaring.
  cbn [mbind option_bind DepsDev.dependencies]. cbv zeta.
  cbn [DepsDev.complexityScore DepsDev.totalDependencies
       DepsDev.directDependencies].
  rewrite totalBand_code, directBand_code. reflexivity.
Qed.

(** The complexity metrics of a package by the number of dependencies it
    declares, without overrides. *)
Lemma complexity_declared (deps : list string) :
  let c :=
    DepsDev.calculateComplexityMetrics (declaring deps)
      DepsDev.no_overrides in
  DepsDev.complexityScore c = scoreByDeclared (length deps)
  ∧ DepsDev.complexityLevel c = levelByDeclared (length deps)
  ∧ DepsDev.directDependencies c = Z.of_nat (length deps)
  ∧ DepsDev.totalDependencies c = 15 * Z.of_nat (length deps).
Proof.
  cbv zeta. unfold DepsDev.calculateComplexityMetrics, declaring.
  cbn [mbind option_bind DepsDev.dependencies DepsDev.no_overrides
       DepsDev.ov_directDependencies DepsDev.ov_totalDependencies
       Js.nullish]. cbv zeta.
  cbn [DepsDev.complexityScore DepsDev.complexityLevel
       DepsDev.directDependencies DepsDev.totalDependencies].
  unfold scoreByDeclared, levelByDeclared.
  set (n := length deps).
  split; [| split; [| split; [reflexivity | lia]]].
  - repeat match goal with
           | |- context [(?a <? ?b)%nat] => destruct (Nat.ltb_spec a b)
           end;
    repeat match goal with
           | |- context [?a <? ?b] => destruct (Z.ltb_spec a b)
           end; try lia; reflexivity.
  - repeat match goal with
           | |- context [(?a <? ?b)%nat] => destruct (Nat.ltb_spec a b)
           end;
    repeat match goal with
           | |- context [?a <? ?b] => destruct (Z.ltb_spec a b)
           end; try lia; reflexivity.
Qed.

(** X12.  For version metadata that lists the dependencies, the complexity
    score never rises when the direct and the total dependency counts rise,
    and it stays between 30 and 100.  Without overrides score and level
    follow from the number of declared dependencies: up to 3 give 100, 4
    and 5 give 90, 6 gives 85, 7 to 13 give 75, 14 and 15 give 60, 16 to
    30 give 55, 31 to 33 give 50, 34 to 50 give 35 and more give 30; the
    level is "low" up to 3, "moderate" up to 13, "high" up to 33 and "very
    high" above. *)
Theorem calculateComplexityMetrics_antitone :
  (∀ (deps deps' : list string) (ov ov' : DepsDev.Overrides),
     let c := DepsDev.calculateComplexityMetrics (declaring deps) ov in
     let c' := DepsDev.calculateComplexityMetrics (declaring deps') ov' in
     DepsDev.directDependencies c <= DepsDev.directDependencies c' →
     DepsDev.totalDependencies c <= DepsDev.totalDependencies c' →
     30 <= DepsDev.complexityScore c'
     ∧ DepsDev.complexityScore c' <= DepsDev.complexityScore c
     ∧ DepsDev.complexityScore c <= 100)
  ∧ (∀ deps : list string,
       let c :=
         DepsDev.calculateComplexityMetrics (declaring deps)
           DepsDev.no_overrides in
       DepsDev.complexityScore c = scoreByDeclared (length deps)
       ∧ DepsDev.complexityLevel c = levelByDeclared (length deps)
       ∧ DepsDev.directDependencies c = Z.of_nat (length deps)
       ∧ DepsDev.totalDependencies c = 15 * Z.of_nat (length deps)).
Proof.
  split; [| exact complexity_declared].
  intros deps deps' ov ov'. cbv zeta. intros Hd Ht.
  pose proof (complexityScore_bands deps ov) as Hc.
  pose proof (complexityScore_bands deps' ov') as Hc'.
  cbv zeta in Hc, Hc'. rewrite Hc, Hc'.
  pose proof (totalBand_mono _ _ Ht). pose proof (directBand_mono _ _ Hd).
  unfold Js.clamp. lia.
Qed.

Lemma calculateComplexityMetrics_antitone_witness :
  30 <= DepsDev.complexityScore
          (DepsDev.calculateComplexityMetrics
             (declaring ["a"; "b"; "c"; "d"]) DepsDev.no_overrides)
  ∧ DepsDev.complexityScore
      (DepsDev.calculateComplexityMetrics (declaring ["a"; "b"; "c"; "d"])
         DepsDev.no_overrides)
    <= DepsDev.complexityScore
         (DepsDev.calculateComplexityMetrics (declaring ["a"])
            DepsDev.no_overrides)
  ∧ DepsDev.complexityScore
      (DepsDev.calculateComplexityMetrics (declaring ["a"])
         DepsDev.no_overrides) <= 100.
Proof.
  apply (proj1 calculateComplexityMetrics_antitone ["a"]
           ["a"; "b"; "c"; "d"] DepsDev.no_overrides DepsDev.no_overrides);
    vm_compute; discriminate.
Defined.

(** ** [extractPackagesFromGraph] *)

Section FirstBy.
Context {X : Type} (key : X → string).

Lemma firstBy_elem (seen : gset string) (l : list X) (x : X) :
  x ∈ firstBy key seen l → (key x ∉ seen) ∧ (x ∈ l).
Proof.
  revert seen. induction l as [| y l IH]; intros seen; simpl.
  - intros H. inversion H.
  - destruct (decide (key y ∈ seen)) as [Hin | Hout].
    + intros H. destruct (IH _ H) as [? ?].
      split; [assumption | apply list_elem_of_further; assumption].
    + intros H. apply elem_of_cons in H as [-> | H].
      * split; [exact Hout | apply list_elem_of_here].
      * destruct (IH _ H) as [Hn ?].
        split; [set_solver | apply list_elem_of_further; assumption].
Qed.

Lemma firstBy_NoDup (seen : gset string) (l : list X) :
  NoDup (key <$> firstBy key seen l).
Proof.
  revert seen. induction l as [| y l IH]; intros seen; simpl; [constructor |].
  destruct (decide (key y ∈ seen)); [apply IH |].
  cbn [fmap list_fmap]. constructor; [| apply IH].
  intros Hin. apply list_elem_of_fmap in Hin as (x & Hk & Hx).
  destruct (firstBy_elem _ _ _ Hx) as [Hn _]. set_solver.
Qed.

Lemma firstBy_sublist (seen : gset string) (l : list X) :
  firstBy key seen l `sublist_of` l.
Proof.
  revert seen. induction l as [| y l IH]; intros seen; simpl; [constructor |].
  destruct (decide (key y ∈ seen)).
  - apply sublist_cons, IH.
  - apply sublist_skip, IH.
Qed.

Lemma firstBy_first (seen : gset string) (l : list X) (k : string) :
  k ∉ seen →
  head (filter (λ x, key x = k) (firstBy key seen l))
  = head (filter (λ x, key x = k) l).
Proof.
  revert seen. induction l as [| y l IH]; intros seen Hk; simpl;
    [reflexivity |].
  rewrite (filter_cons _ y l).
  destruct (decide (key y ∈ seen)) as [Hin | Hout].
  - rewrite decide_False by (intros <-; contradiction). apply IH, Hk.
  - rewrite filter_cons.
    destruct (decide (key y = k)) as [_ | Hne]; [reflexivity |].
    apply IH. set_solver.
Qed.

End FirstBy.

Lemma omap_cons {X Y : Type} (f : X → option Y) (x : X) (l : list X) :
  omap f (x :: l) = match f x with Some y => y :: omap f l | None => omap f l end.
Proof. reflexivity. Qed.

Lemma extractLoop_first (nodes : list DepsDev.GraphNode) (seen : gset string)
    (packages : list DepsDev.TreePackage) :
  DepsDev.extractLoop nodes seen packages
  = packages ++ firstBy packageKey seen (omap packageOf nodes).
Proof.
  revert seen packages.
  induction nodes as [| node nodes IH]; intros seen packages.
  - simpl. rewrite app_nil_r. reflexivity.
  - cbn [DepsDev.extractLoop]. rewrite omap_cons. unfold packageOf at 1.
    destruct (DepsDev.node_versionKey node) as [k |]; [| apply IH].
    cbn [fmap option_fmap option_map firstBy].
    change (packageKey _) with (DepsDev.nodeKey k).
    destruct (decide (DepsDev.nodeKey k ∈ seen)); [apply IH |].
    rewrite IH, <- app_assoc. reflexivity.
Qed.

(** X13.  [extractPackagesFromGraph] returns one package per key
    name@version: no key twice, the packages in the order of the nodes
    they come from, and for each key the package of the first node with
    that key (its relation, or "UNKNOWN").  A node without version key
    contributes nothing, and a missing graph or node list gives the empty
    list. *)
Theorem extractPackagesFromGraph_unique (graphNodes : list DepsDev.GraphNode) :
  let out :=
    DepsDev.extractPackagesFromGraph
      (Some {| DepsDev.nodes := Some graphNodes |}) in
  let all := omap packageOf graphNodes in
  NoDup (packageKey <$> out)
  ∧ out `sublist_of` all
  ∧ (∀ k, head (filter (λ p, packageKey p = k) out)
          = head (filter (λ p, packageKey p = k) all))
  ∧ DepsDev.extractPackagesFromGraph None = []
  ∧ DepsDev.extractPackagesFromGraph (Some {| DepsDev.nodes := None |}) = [].
Proof.
  cbv zeta. unfold DepsDev.extractPackagesFromGraph.
  cbn [mbind option_bind DepsDev.nodes].
  rewrite extractLoop_first. cbn [app].
  split; [apply firstBy_NoDup |].
  split; [apply firstBy_sublist |].
  split; [| split; reflexivity].
  intros k. apply firstBy_first. set_solver.
Qed.

(** ** Further properties of src/api/osv.js *)

Section BatchMore.
Variable fetch : string → Osv.Response.

(** Without progress the loop never ends. *)
Lemma batchLoop_no_progress (uncached : list string) (concurrency : Z)
    (fuel : nat) :
  concurrency <= 0 →
  ∀ (i : Z) (st : Osv.BatchState),
    i < Z.of_nat (length uncached) →
    Osv.batchLoop fetch fuel uncached concurrency i st = None.
Proof.
  intros Hc. induction fuel as [| fuel IH]; intros i st Hi;
    cbn [Osv.batchLoop];
    (destruct (Z.ltb_spec i (Z.of_nat (length uncached))); [| lia]).
  - reflexivity.
  - apply IH. lia.
Qed.

End BatchMore.

(** X14.  With a concurrency limit of 0 or less and at least one requested
    name that is not in the cache, the batch loop of
    [queryVulnerabilitiesBatch] makes no progress: the function never
    returns, whatever the fuel.  When every requested name is cached it
    returns at once without a query, whatever the limit. *)
Theorem queryVulnerabilitiesBatch_no_progress
    (fetch : string → Osv.Response) (names : list string)
    (cache : gmap string (list Osv.Vuln)) (concurrency : Z) :
  (concurrency <= 0 →
   (∃ n, n ∈ names ∧ cache !! n = None) →
   ∀ fuel,
     Osv.queryVulnerabilitiesBatch fetch fuel names cache concurrency = None)
  ∧ ((∀ n, n ∈ names → is_Some (cache !! n)) →
     ∀ fuel, ∃ st,
       Osv.queryVulnerabilitiesBatch fetch fuel names cache concurrency
       = Some st
       ∧ Osv.queried st = [] ∧ Osv.cache st = cache).
Proof.
  split.
  - intros Hc (n & Hin & Hn) fuel. unfold Osv.queryVulnerabilitiesBatch.
    pose proof (partitionNames_uncached cache names [] []) as Hu.
    destruct (Osv.partitionNames cache names [] []) as [results uncached].
    simpl in Hu. subst uncached.
    apply batchLoop_no_progress; [exact Hc |].
    assert (Hmem : n ∈ uncachedOf cache names).
    { apply elem_of_uncachedOf. split; assumption. }
    destruct (uncachedOf cache names); [inversion Hmem | simpl; lia].
  - intros Hall fuel. unfold Osv.queryVulnerabilitiesBatch.
    pose proof (partitionNames_uncached cache names [] []) as Hu.
    destruct (Osv.partitionNames cache names [] []) as [results uncached].
    simpl in Hu. subst uncached.
    assert (Hnone : uncachedOf cache names = []).
    { unfold uncachedOf. apply filter_none. intros n Hn Hc.
      destruct (Hall n Hn) as [v Hv]. congruence. }
    rewrite Hnone. eexists. split.
    + destruct fuel; reflexivity.
    + split; reflexivity.
Qed.

Lemma queryVulnerabilitiesBatch_no_progress_witness :
  Osv.queryVulnerabilitiesBatch sampleFetch 1000 ["a"; "c"] sampleCache 0
  = None.
Proof.
  apply (proj1 (queryVulnerabilitiesBatch_no_progress sampleFetch ["a"; "c"]
                  sampleCache 0)).
  - lia.
  - exists "a". split; [elem_of_tac | reflexivity].
Defined.

(** X15.  [queryVulnerabilitiesBatch] issues one query per requested
    occurrence of a name that is not in the cache, in request order: a name
    requested twice while it is not cached is queried twice, and a cached
    name never. *)
Theorem queryVulnerabilitiesBatch_queries (fetch : string → Osv.Response)
    (fuel : nat) (names : list string)
    (cache : gmap string (list Osv.Vuln)) (concurrency : Z) :
  1 <= concurrency → (length names <= fuel)%nat →
  ∃ st,
    Osv.queryVulnerabilitiesBatch fetch fuel names cache concurrency = Some st
    ∧ Osv.queried st = filter (λ n, cache !! n = None) names.
Proof.
  intros Hc Hfuel. exists (batchEnd fetch names cache). split.
  - apply queryVulnerabilitiesBatch_run; assumption.
  - apply batchEnd_queried.
Qed.

Lemma queryVulnerabilitiesBatch_queries_witness :
  ∃ st,
    Osv.queryVulnerabilitiesBatch sampleFetch 4 ["a"; "c"; "a"; "b"]
      sampleCache 2 = Some st
    ∧ Osv.queried st = ["a"; "a"; "b"].
Proof.
  apply (queryVulnerabilitiesBatch_queries sampleFetch 4
           ["a"; "c"; "a"; "b"] sampleCache 2).
  - lia.
  - simpl. lia.
Defined.

(** X16.  A second call for the same names with the cache the first call
    left behind issues no query, whatever the service would answer now and
    whatever the concurrency limit, leaves the cache as it is, and returns
    for every name what the first call returned. *)
Theorem queryVulnerabilitiesBatch_rerun (fetch fetch' : string → Osv.Response)
    (fuel fuel' : nat) (names : list string)
    (cache : gmap string (list Osv.Vuln)) (concurrency concurrency' : Z)
    (st : Osv.BatchState) :
  1 <= concurrency → (length names <= fuel)%nat →
  Osv.queryVulnerabilitiesBatch fetch fuel names cache concurrency = Some st →
  ∃ st',
    Osv.queryVulnerabilitiesBatch fetch' fuel' names (Osv.cache st)
      concurrency' = Some st'
    ∧ Osv.queried st' = []
    ∧ Osv.cache st' = Osv.cache st
    ∧ ∀ n, Js.get (Osv.results st') n = Js.get (Osv.results st) n.
Proof.
  intros Hc Hfuel Hrun.
  rewrite queryVulnerabilitiesBatch_run in Hrun by assumption.
  injection Hrun as <-. fold (batchEnd fetch names cache).
  set (cache1 := Osv.cache (batchEnd fetch names cache)).
  assert (Hall : ∀ n, n ∈ names →
                      cache1 !! n
                      = Some (default (fetched fetch n) (cache !! n))).
  { intros n Hn. subst cache1. rewrite batchEnd_cache.
    destruct (cache !! n); [reflexivity |].
    rewrite decide_True by exact Hn. reflexivity. }
  unfold Osv.queryVulnerabilitiesBatch.
  pose proof (partitionNames_uncached cache1 names [] []) as Hu.
  pose proof (partitionNames_get cache1 names [] []) as Hg.
  destruct (Osv.partitionNames cache1 names [] []) as [results uncached].
  simpl in Hu, Hg. subst uncached.
  assert (Hnone : uncachedOf cache1 names = []).
  { unfold uncachedOf. apply filter_none. intros n Hn Hcn.
    rewrite Hall in Hcn by exact Hn. discriminate. }
  rewrite Hnone. eexists. split; [destruct fuel'; reflexivity |].
  cbn [Osv.queried Osv.cache Osv.results].
  split; [reflexivity |]. split; [reflexivity |].
  intros n. rewrite Hg, batchEnd_results.
  destruct (decide (n ∈ names)) as [Hn | Hn].
  - rewrite decide_True; [apply Hall, Hn |].
    split; [exact Hn |]. rewrite Hall by exact Hn. eauto.
  - rewrite decide_False by tauto. reflexivity.
Qed.

Lemma queryVulnerabilitiesBatch_rerun_witness :
  ∃ st',
    Osv.queryVulnerabilitiesBatch (λ _, Osv.NetworkError) 0 ["a"; "b"; "c"]
      (Osv.cache (batchEnd sampleFetch ["a"; "b"; "c"] sampleCache)) 0
    = Some st'
    ∧ Osv.queried st' = []
    ∧ Osv.cache st'
      = Osv.cache (batchEnd sampleFetch ["a"; "b"; "c"] sampleCache)
    ∧ ∀ n, Js.get (Osv.results st') n
           = Js.get (Osv.results
                       (batchEnd sampleFetch ["a"; "b"; "c"] sampleCache)) n.
Proof.
  apply (queryVulnerabilitiesBatch_rerun sampleFetch (λ _, Osv.NetworkError)
           3 0 ["a"; "b"; "c"] sampleCache 2 0).
  - lia.
  - simpl. lia.
  - vm_compute. reflexivity.
Defined.

(** ** The severity counters of [calculateCVEMetrics] *)

Lemma num_or_default (x : option Z) : Js.num_or x 0 = default 0 x.
Proof.
  destruct x as [n |]; [| reflexivity]. simpl.
  destruct (Z.eqb_spec n 0); congruence.
Qed.

Lemma labelled_cons (k : string) (v : Osv.Advisory) (l : list Osv.Advisory) :
  labelled k (v :: l)
  = (if decide (Osv.severityOf v = k) then 1 else 0) + labelled k l.
Proof.
  unfold labelled. rewrite filter_cons. case_decide; simpl length; lia.
Qed.

Lemma countLoop_key (l : list Osv.Advisory) (m : gmap string Z) (k : string) :
  default 0 (foldl Osv.countSeverity m l !! k)
  = default 0 (m !! k) + labelled k l.
Proof.
  revert m. induction l as [| v l IH]; intros m.
  - unfold labelled. simpl. lia.
  - simpl foldl. rewrite IH, labelled_cons. unfold Osv.countSeverity.
    cbv zeta. rewrite num_or_default.
    destruct (decide (Osv.severityOf v = k)) as [-> | Hne].
    + rewrite lookup_insert_eq. simpl. lia.
    + rewrite lookup_insert_ne by exact Hne. lia.
Qed.

Lemma sumCounters_insert (m : gmap string Z) (k : string) (n : Z) :
  sumCounters (<[k := n]> m) = n - default 0 (m !! k) + sumCounters m.
Proof.
  unfold sumCounters.
  assert (Hcomm : ∀ (m' : gmap string Z) (j1 j2 : string) (z1 z2 y : Z),
            j1 ≠ j2 → m' !! j1 = Some z1 → m' !! j2 = Some z2 →
            z1 + (z2 + y) = z2 + (z1 + y)) by (intros; lia).
  destruct (m !! k) as [old |] eqn:Hk.
  - rewrite <- insert_delete_eq.
    rewrite map_fold_insert_L;
      [| apply Hcomm | apply lookup_delete_eq].
    rewrite (map_fold_delete_L _ _ k old m); [| apply Hcomm | exact Hk].
    simpl. lia.
  - rewrite map_fold_insert_L; [| apply Hcomm | exact Hk]. simpl. lia.
Qed.

Lemma countLoop_sum (l : list Osv.Advisory) (m : gmap string Z) :
  sumCounters (foldl Osv.countSeverity m l)
  = sumCounters m + Z.of_nat (length l).
Proof.
  revert m. induction l as [| v l IH]; intros m.
  - simpl. lia.
  - simpl foldl. rewrite IH. unfold Osv.countSeverity. cbv zeta.
    rewrite sumCounters_insert, num_or_default. simpl length. lia.
Qed.

(** X17.  In the [bySeverity] object of [calculateCVEMetrics] every counter
    holds the number of findings that carry its label, and the counters
    add up to [totalCVEs]; the five counters CRITICAL, HIGH, MODERATE, LOW
    and UNKNOWN are always present.  A label that is none of the five gets
    a counter of its own: a finding the database labels "medium" is counted
    under MEDIUM and not under MODERATE. *)
Theorem severityCounts_count (vulnerabilities : list Osv.Advisory) :
  let bySeverity := Osv.severityCounts vulnerabilities in
  (∀ k, default 0 (bySeverity !! k) = labelled k vulnerabilities)
  ∧ sumCounters bySeverity = Osv.countCVEs vulnerabilities
  ∧ (∀ k, k ∈ ["CRITICAL"; "HIGH"; "MODERATE"; "LOW"; "UNKNOWN"] →
          bySeverity !! k = Some (labelled k vulnerabilities))
  ∧ Osv.severityCounts [labelledFinding] !! "MEDIUM" = Some 1
  ∧ Osv.severityCounts [labelledFinding] !! "MODERATE" = Some 0.
Proof.
  cbv zeta. unfold Osv.severityCounts, Osv.countCVEs.
  assert (Hkey : ∀ k, default 0 (foldl Osv.countSeverity Osv.noSeverities
                                   vulnerabilities !! k)
                      = labelled k vulnerabilities).
  { intros k. rewrite countLoop_key.
    assert (H0 : default 0 (Osv.noSeverities !! k) = 0).
    { unfold Osv.noSeverities.
      rewrite !lookup_insert, lookup_singleton.
      repeat case_decide; reflexivity. }
    lia. }
  split; [exact Hkey |]. split; [| split; [| split; reflexivity]].
  - rewrite countLoop_sum. reflexivity.
  - intros k Hk. specialize (Hkey k).
    assert (Hsome : ∀ (l : list Osv.Advisory) (m : gmap string Z),
              is_Some (m !! k) →
              is_Some (foldl Osv.countSeverity m l !! k)).
    { induction l as [| v l IH]; intros m Hm; [exact Hm |].
      simpl foldl. apply IH. unfold Osv.countSeverity. cbv zeta.
      destruct (decide (Osv.severityOf v = k)) as [-> | Hne].
      - rewrite lookup_insert_eq. eauto.
      - rewrite lookup_insert_ne by exact Hne. exact Hm. }
    destruct (Hsome vulnerabilities Osv.noSeverities) as [n Hn].
    { repeat (apply elem_of_cons in Hk as [-> | Hk]; [eexists; reflexivity |]).
      inversion Hk. }
    rewrite Hn in Hkey |- *. simpl in Hkey. congruence.
Qed.

Lemma severityCounts_count_witness :
  Osv.severityCounts [labelledFinding; vectorFinding; bareFinding] !! "LOW"
  = Some (labelled "LOW" [labelledFinding; vectorFinding; bareFinding]).
Proof.
  apply (proj1 (proj2 (proj2 (severityCounts_count
                                [labelledFinding; vectorFinding;
                                 bareFinding])))).
  elem_of_tac.
Defined.

Lemma cvssSeverity_first (before after : list Osv.SeverityEntry)
    (entry : Osv.SeverityEntry) :
  Forall (λ e, Osv.sev_type e ≠ "CVSS_V3") before →
  Osv.sev_type entry = "CVSS_V3" →
  Osv.cvssSeverity (before ++ entry :: after)
  = Osv.severityOf (cvssOnly (Osv.sev_score entry)).
Proof.
  intros Hb He. induction Hb as [| e before Hne _ IH]; simpl.
  - rewrite He. reflexivity.
  - apply String.eqb_neq in Hne. rewrite Hne. exact IH.
Qed.

Lemma cvssSeverity_none (entries : list Osv.SeverityEntry) :
  Forall (λ e, Osv.sev_type e ≠ "CVSS_V3") entries →
  Osv.cvssSeverity entries = "UNKNOWN".
Proof.
  induction 1 as [| e entries Hne _ IH]; simpl; [reflexivity |].
  apply String.eqb_neq in Hne. rewrite Hne. exact IH.
Qed.

Lemma Qle_bool_false (a b : Q) : (b < a)%Q → Qle_bool a b = false.
Proof.
  intros H. apply not_true_is_false. intros Hle.
  apply Qle_bool_iff in Hle. exact (Qlt_not_le _ _ H Hle).
Qed.

(** X18.  The severity label of a finding: a non-empty severity of the
    database wins, in upper case, whatever the CVSS entries say; without
    it the first entry of type CVSS_V3 decides alone, entries of other
    types before it and all entries after it being ignored: a score of 9
    and above is CRITICAL, of 7 and above HIGH, of 4 and above MODERATE,
    and anything else LOW, also a score that is no number; without such an
    entry the label is UNKNOWN. *)
Theorem severityOf_precedence :
  (∀ (s : string) (entries : option (list Osv.SeverityEntry)),
     s ≠ "" →
     Osv.severityOf {| Osv.database_severity := Some s;
                       Osv.severity := entries |} = Js.toUpperCase s)
  ∧ (∀ (db : option string) (before after : list Osv.SeverityEntry)
       (entry : Osv.SeverityEntry),
       db = None ∨ db = Some "" →
       Forall (λ e, Osv.sev_type e ≠ "CVSS_V3") before →
       Osv.sev_type entry = "CVSS_V3" →
       Osv.severityOf
         {| Osv.database_severity := db;
            Osv.severity := Some (before ++ entry :: after) |}
       = Osv.severityOf (cvssOnly (Osv.sev_score entry)))
  ∧ (∀ (db : option string) (entries : option (list Osv.SeverityEntry)),
       db = None ∨ db = Some "" →
       Forall (λ e, Osv.sev_type e ≠ "CVSS_V3") (default [] entries) →
       Osv.severityOf {| Osv.database_severity := db;
                         Osv.severity := entries |} = "UNKNOWN")
  ∧ (∀ score : Q,
       ((9 <= score)%Q →
        Osv.severityOf (cvssOnly (Some score)) = "CRITICAL")
       ∧ ((7 <= score)%Q → (score < 9)%Q →
          Osv.severityOf (cvssOnly (Some score)) = "HIGH")
       ∧ ((4 <= score)%Q → (score < 7)%Q →
          Osv.severityOf (cvssOnly (Some score)) = "MODERATE")
       ∧ ((score < 4)%Q → Osv.severityOf (cvssOnly (Some score)) = "LOW"))
  ∧ Osv.severityOf (cvssOnly None) = "LOW".
Proof.
  split; [| split; [| split; [| split; [| reflexivity]]]].
  - intros s entries Hs. unfold Osv.severityOf. cbv zeta.
    cbn [Osv.database_severity].
    apply truthy_nonempty in Hs. rewrite Hs. reflexivity.
  - intros db before after entry Hdb Hb He. unfold Osv.severityOf at 1.
    cbv zeta. cbn [Osv.database_severity Osv.severity].
    rewrite (cvssSeverity_first before after entry Hb He).
    destruct Hdb as [-> | ->]; reflexivity.
  - intros db entries Hdb Hall. unfold Osv.severityOf.
    cbv zeta. cbn [Osv.database_severity Osv.severity].
    assert (Hc : match entries with
                 | Some entries => Osv.cvssSeverity entries
                 | None => "UNKNOWN"
                 end = "UNKNOWN").
    { destruct entries as [entries |]; [| reflexivity].
      apply cvssSeverity_none, Hall. }
    rewrite Hc. destruct Hdb as [-> | ->]; reflexivity.
  - intros score.
    assert (Hlabel : Osv.severityOf (cvssOnly (Some score))
                     = if Qle_bool 9 score then "CRITICAL"
                       else if Qle_bool 7 score then "HIGH"
                       else if Qle_bool 4 score then "MODERATE"
                       else "LOW") by reflexivity.
    rewrite Hlabel. split; [| split; [| split]].
    + intros H9. apply Qle_bool_iff in H9. rewrite H9. reflexivity.
    + intros H7 H9. apply Qle_bool_iff in H7.
      rewrite (Qle_bool_false _ _ H9), H7. reflexivity.
    + intros H4 H7. apply Qle_bool_iff in H4.
      rewrite (Qle_bool_false 9 score) by lra.
      rewrite (Qle_bool_false _ _ H7), H4. reflexivity.
    + intros H4.
      rewrite (Qle_bool_false 9 score), (Qle_bool_false 7 score) by lra.
      rewrite (Qle_bool_false _ _ H4). reflexivity.
Qed.

Lemma severityOf_precedence_witness :
  Osv.severityOf labelledFinding = "MEDIUM"
  ∧ Osv.severityOf vectorFinding = Osv.severityOf (cvssOnly None)
  ∧ Osv.severityOf bareFinding = "UNKNOWN"
  ∧ Osv.severityOf (cvssOnly (Some (72 # 10))) = "HIGH".
Proof.
  destruct severityOf_precedence as (Hdb & Hcvss & Hnone & Hband & _).
  split; [| split; [| split]].
  - apply (Hdb "medium"). discriminate.
  - apply (Hcvss None
             [ {| Osv.sev_type := "CVSS_V2"; Osv.sev_score := Some (75 # 10) |} ]
             []
             {| Osv.sev_type := "CVSS_V3"; Osv.sev_score := None |}).
    + left. reflexivity.
    + repeat constructor. discriminate.
    + reflexivity.
  - apply (Hnone None None); [left; reflexivity | constructor].
  - apply (proj1 (proj2 (Hband (72 # 10)))); vm_compute; congruence.
Defined.

(** ** Deduplication of findings that are distinct already *)

Lemma firstEntries_length (l : list Osv.Vuln) (seen : list string) :
  (length (firstEntries seen l) <= length l)%nat.
Proof.
  revert seen. induction l as [| v l IH]; intros seen; simpl; [lia |].
  destruct (identified v) as [i |].
  - destruct (decide (i ∈ seen)); simpl.
    + specialize (IH seen). lia.
    + specialize (IH (seen ++ [i])). lia.
  - specialize (IH seen). lia.
Qed.

Lemma firstEntries_distinct (l : list Osv.Vuln) (seen : list string) :
  Forall (λ v, is_Some (identified v)) l →
  NoDup (identified <$> l) →
  (∀ i, i ∈ seen → Some i ∉ identified <$> l) →
  (firstEntries seen l).*2 = l.
Proof.
  revert seen. induction l as [| v l IH]; intros seen Hall Hnd Hseen;
    [reflexivity |].
  apply Forall_cons in Hall as [[i Hi] Hall].
  cbn [fmap list_fmap] in Hnd. apply NoDup_cons in Hnd as [Hv Hnd].
  simpl. rewrite Hi.
  destruct (decide (i ∈ seen)) as [Hin | Hout].
  - exfalso. apply (Hseen i Hin). cbn [fmap list_fmap]. rewrite Hi.
    apply list_elem_of_here.
  - cbn [fmap list_fmap]. simpl. f_equal. apply IH; [exact Hall | exact Hnd |].
    intros j Hj Hjl. apply elem_of_app in Hj as [Hj | Hj].
    + apply (Hseen j Hj). cbn [fmap list_fmap].
      apply list_elem_of_further, Hjl.
    + apply list_elem_of_singleton in Hj as ->. rewrite Hi in Hv.
      contradiction.
Qed.

(** X19.  [deduplicateVulnerabilities] never returns more findings than
    the mapping holds, and when every finding has an identifier and no
    identifier occurs twice it returns all of them, in the order of the
    mapping. *)
Theorem deduplicateVulnerabilities_distinct (m : Js.Map (list Osv.Vuln)) :
  let flat := concat (Js.values m) in
  (length (Osv.deduplicateVulnerabilities m) <= length flat)%nat
  ∧ (Forall (λ v, is_Some (identified v)) flat →
     NoDup (identified <$> flat) →
     Osv.deduplicateVulnerabilities m = flat).
Proof.
  cbv zeta. rewrite deduplicateVulnerabilities_first. unfold firstPerId.
  split.
  - rewrite length_fmap. apply firstEntries_length.
  - intros Hall Hnd. apply firstEntries_distinct; [exact Hall | exact Hnd |].
    intros i Hi. inversion Hi.
Qed.

Lemma deduplicateVulnerabilities_distinct_witness :
  Osv.deduplicateVulnerabilities [("a", [findingA]); ("b", [])] = [findingA].
Proof.
  apply (proj2 (deduplicateVulnerabilities_distinct
                  [("a", [findingA]); ("b", [])])).
  - repeat constructor. eexists. reflexivity.
  - repeat constructor. intros H. inversion H.
Defined.

(** ** Further properties of src/analyzer.js *)

Lemma uniqueFrom_spec (names seen : list string) :
  NoDup (Analyzer.uniqueFrom seen names)
  ∧ ∀ n, n ∈ Analyzer.uniqueFrom seen names ↔ n ∈ names ∧ n ∉ seen.
Proof.
  revert seen. induction names as [| x names IH]; intros seen; simpl.
  - split; [constructor |]. intros n. split; [intros H; inversion H |].
    intros [H _]. inversion H.
  - case_bool_decide as Hx.
    + destruct (IH seen) as [Hnd Hiff]. split; [exact Hnd |].
      intros n. rewrite Hiff. split.
      * intros [? ?]. split; [apply list_elem_of_further; assumption | assumption].
      * intros [Hn Hs]. split; [| exact Hs].
        apply elem_of_cons in Hn as [-> | Hn]; [contradiction | exact Hn].
    + destruct (IH (x :: seen)) as [Hnd Hiff]. split.
      * constructor; [| exact Hnd]. rewrite Hiff. intros [_ Hn].
        apply Hn, list_elem_of_here.
      * intros n. rewrite elem_of_cons, Hiff. split.
        -- intros [-> | [Hn Hs]].
           ++ split; [apply list_elem_of_here | exact Hx].
           ++ split; [apply list_elem_of_further, Hn |].
              intros Hin. apply Hs, list_elem_of_further, Hin.
        -- intros [Hn Hs]. destruct (decide (n = x)) as [-> | Hne];
             [left; reflexivity | right].
           split.
           ++ apply elem_of_cons in Hn as [-> | Hn]; [contradiction | exact Hn].
           ++ intros Hin. apply elem_of_cons in Hin as [-> | Hin];
                contradiction.
Qed.

(** X20.  With a concurrency limit of at least 1 the deep analysis of
    [getTransitiveCVEMetrics] returns (given fuel for its batch loop), and
    in its result no package name occurs twice, [totalPackagesInTree] is
    the number of names, every name is in the cache afterwards with the
    findings the analysis used for it, and the vulnerability service was
    asked exactly once for each name that was not cached and never for a
    cached one. *)
Theorem getTransitiveCVEMetrics_names
    (calculateCVEMetrics : list Osv.Vuln → Osv.CVEMetrics)
    (fetch : string → Osv.Response)
    (getPackageInfo : string → option DepsDev.PackageInfo)
    (getDependencyGraph : string → string → option DepsDev.DependencyGraph)
    (packageName : string) (versionRange : option string)
    (vulnCache : gmap string (list Osv.Vuln)) (concurrency : Z) :
  1 <= concurrency →
  ∃ fuel0 : nat, ∀ fuel : nat, (fuel0 <= fuel)%nat →
    ∃ res eff,
      Analyzer.getTransitiveCVEMetrics calculateCVEMetrics fetch
        getPackageInfo getDependencyGraph fuel packageName versionRange
        vulnCache concurrency false = Some (res, eff)
      ∧ NoDup (Analyzer.packageNames res)
      ∧ Analyzer.totalPackagesInTree res
        = Z.of_nat (length (Analyzer.packageNames res))
      ∧ (∀ n, n ∈ Analyzer.packageNames res →
              Analyzer.vulnCache eff !! n
              = Some (default (fetched fetch n) (vulnCache !! n)))
      ∧ Analyzer.vulnQueries eff
        = filter (λ n, vulnCache !! n = None) (Analyzer.packageNames res)
      ∧ NoDup (Analyzer.vulnQueries eff).
Proof.
  intros Hc.
  destruct (Analyzer.treeStep getPackageInfo getDependencyGraph packageName
              (Analyzer.resolveStep getPackageInfo packageName versionRange))
    as [[tree resolved] requests] eqn:Htree.
  exists (length tree). intros fuel Hfuel.
  pose proof (getTransitiveCVEMetrics_run calculateCVEMetrics fetch
                getPackageInfo getDependencyGraph fuel packageName
                versionRange vulnCache concurrency tree resolved requests
                Htree Hc Hfuel) as Hrun.
  cbv zeta in Hrun. do 2 eexists. split; [exact Hrun |].
  cbn [Analyzer.packageNames Analyzer.totalPackagesInTree
       Analyzer.vulnCache Analyzer.vulnQueries].
  assert (Hnd : NoDup (Analyzer.unique (DepsDev.pkg_name <$> tree))).
  { apply uniqueFrom_spec. }
  split; [exact Hnd |]. split; [reflexivity |]. split; [| split].
  - intros n Hn. rewrite batchEnd_cache.
    destruct (vulnCache !! n); [reflexivity |].
    rewrite decide_True by exact Hn. reflexivity.
  - apply batchEnd_queried.
  - rewrite batchEnd_queried. apply NoDup_filter, Hnd.
Qed.

Lemma getTransitiveCVEMetrics_names_witness :
  ∃ fuel0 : nat, ∀ fuel : nat, (fuel0 <= fuel)%nat →
    ∃ res eff,
      Analyzer.getTransitiveCVEMetrics countFindings sampleFetch sampleInfo
        sampleGraphs fuel "pkg" (Some "1.0.0") sampleCache 5 false
      = Some (res, eff)
      ∧ NoDup (Analyzer.packageNames res).
Proof.
  destruct (getTransitiveCVEMetrics_names countFindings sampleFetch
              sampleInfo sampleGraphs "pkg" (Some "1.0.0") sampleCache 5)
    as [fuel0 Hrun]; [lia |].
  exists fuel0. intros fuel Hfuel.
  destruct (Hrun fuel Hfuel) as (res & eff & Heq & Hnd & _).
  exists res, eff. split; assumption.
Defined.

Section EngineMore.
Variable calculateCVEMetrics : list Osv.Vuln → Osv.CVEMetrics.
Variable fetch : string → Osv.Response.
Variable getPackageInfo : string → option DepsDev.PackageInfo.
Variable getDependencyGraph :
  string → string → option DepsDev.DependencyGraph.


End EngineMore.




(** X22.  For a package the registry does not know, no version is resolved
    and no dependency graph is requested: [getTransitiveCVEMetrics]
    analyses the package alone, a tree of one package without direct or
    transitive dependencies, with its own findings. *)
Theorem getTransitiveCVEMetrics_unknown_package
    (calculateCVEMetrics : list Osv.Vuln → Osv.CVEMetrics)
    (fetch : string → Osv.Response)
    (getPackageInfo : string → option DepsDev.PackageInfo)
    (getDependencyGraph : string → string → option DepsDev.DependencyGraph)
    (fuel : nat) (packageName : string) (versionRange : option string)
    (vulnCache : gmap string (list Osv.Vuln)) (concurrency : Z) :
  getPackageInfo packageName = None →
  1 <= concurrency → (1 <= fuel)%nat →
  ∃ res eff,
    Analyzer.getTransitiveCVEMetrics calculateCVEMetrics fetch getPackageInfo
      getDependencyGraph fuel packageName versionRange vulnCache concurrency
      false = Some (res, eff)
    ∧ Analyzer.resolvedVersion eff = None
    ∧ Analyzer.graphRequests eff = []
    ∧ Analyzer.packageNames res = [packageName]
    ∧ Analyzer.totalPackagesInTree res = 1
    ∧ Analyzer.directPackageCount res = 0
    ∧ Analyzer.transitivePackageCount res = 0
    ∧ Analyzer.cveMetrics res
      = calculateCVEMetrics
          (Osv.deduplicateVulnerabilities
             [(packageName,
               default (fetched fetch packageName)
                 (vulnCache !! packageName))]).
Proof.
  intros Hinfo Hc Hfuel.
  assert (Htree : Analyzer.treeStep getPackageInfo getDependencyGraph
                    packageName
                    (Analyzer.resolveStep getPackageInfo packageName
                       versionRange)
                  = (rootOnly packageName None, None, [])).
  { unfold Analyzer.resolveStep. rewrite Hinfo. reflexivity. }
  pose proof (getTransitiveCVEMetrics_run calculateCVEMetrics fetch
                getPackageInfo getDependencyGraph fuel packageName
                versionRange vulnCache concurrency _ _ _ Htree Hc Hfuel)
    as Hrun.
  cbv zeta in Hrun. do 2 eexists. split; [exact Hrun |].
  cbn [Analyzer.resolvedVersion Analyzer.graphRequests Analyzer.packageNames
       Analyzer.totalPackagesInTree Analyzer.directPackageCount
       Analyzer.transitivePackageCount Analyzer.cveMetrics].
  change (Analyzer.unique (DepsDev.pkg_name <$> rootOnly packageName None))
    with [packageName].
  rewrite batchEnd_single. repeat split.
Qed.

Lemma getTransitiveCVEMetrics_unknown_package_witness :
  ∃ res eff,
    Analyzer.getTransitiveCVEMetrics countFindings sampleFetch emptyRegistry
      noGraphs 1 "a" (Some "^1.0.0") ∅ 5 false = Some (res, eff)
    ∧ Analyzer.resolvedVersion eff = None
    ∧ Analyzer.graphRequests eff = []
    ∧ Analyzer.packageNames res = ["a"]
    ∧ Analyzer.totalPackagesInTree res = 1
    ∧ Analyzer.directPackageCount res = 0
    ∧ Analyzer.transitivePackageCount res = 0
    ∧ Analyzer.cveMetrics res
      = countFindings
          (Osv.deduplicateVulnerabilities
             [("a", default (fetched sampleFetch "a")
                      ((∅ : gmap string (list Osv.Vuln)) !! "a"))]).
Proof.
  apply (getTransitiveCVEMetrics_unknown_package countFindings sampleFetch
           emptyRegistry noGraphs 1 "a" (Some "^1.0.0") ∅ 5).
  - reflexivity.
  - lia.
  - lia.
Defined.

(** X23.  Without a version range (none, or the empty string) the version
    analysed is the one of the newest entry by publish date, the first in
    the registry's list among entries with the same date; it is not the
    highest version number. *)
Theorem resolveStep_latest
    (getPackageInfo : string → option DepsDev.PackageInfo)
    (packageName : string) (versionRange : option string)
    (versions : list DepsDev.VersionEntry) :
  versionRange = None ∨ versionRange = Some "" →
  getPackageInfo packageName ≫= DepsDev.versions = Some versions →
  versions ≠ [] →
  ∃ latest,
    latest ∈ versions
    ∧ (∀ v, v ∈ versions → DepsDev.dateOf v <= DepsDev.dateOf latest)
    ∧ head (filter (λ v, DepsDev.dateOf v = DepsDev.dateOf latest) versions)
      = Some latest
    ∧ Analyzer.resolveStep getPackageInfo packageName versionRange
      = Analyzer.versionOf latest.
Proof.
  intros Hrange Hvers Hne.
  destruct (head (Js.sort DepsDev.byDateDesc versions)) as [latest |] eqn:Hh.
  - exists latest. destruct (newest_is_head versions latest Hh) as [Hin Hmax].
    split; [exact Hin |]. split; [exact Hmax |]. split.
    + pose proof (sort_stable DepsDev.byDateDesc (λ v, - DepsDev.dateOf v)
                    byDateDesc_key (- DepsDev.dateOf latest) versions) as Hst.
      assert (Hf : ∀ l : list DepsDev.VersionEntry,
                filter (λ v, DepsDev.dateOf v = DepsDev.dateOf latest) l
                = filter (λ v, - DepsDev.dateOf v = - DepsDev.dateOf latest) l).
      { intros l. apply list_filter_iff. intros v. lia. }
      rewrite Hf, <- Hst.
      destruct (Js.sort DepsDev.byDateDesc versions) as [| x rest];
        [discriminate |].
      injection Hh as ->. rewrite filter_cons, decide_True by reflexivity.
      reflexivity.
    + unfold Analyzer.resolveStep. rewrite Hvers. cbv zeta.
      assert (Ht : Analyzer.truthyVersion versionRange = false).
      { destruct Hrange as [-> | ->]; reflexivity. }
      rewrite Ht, Hh. reflexivity.
  - exfalso. pose proof (sort_length DepsDev.byDateDesc versions) as Hlen.
    destruct (Js.sort DepsDev.byDateDesc versions); [| discriminate].
    destruct versions; [congruence | discriminate].
Qed.

Lemma resolveStep_latest_witness :
  ∃ latest,
    latest ∈ sampleVersions
    ∧ (∀ v, v ∈ sampleVersions → DepsDev.dateOf v <= DepsDev.dateOf latest)
    ∧ head (filter (λ v, DepsDev.dateOf v = DepsDev.dateOf latest)
              sampleVersions) = Some latest
    ∧ Analyzer.resolveStep sampleInfo "pkg" None = Analyzer.versionOf latest.
Proof.
  apply (resolveStep_latest sampleInfo "pkg" None sampleVersions).
  - left. reflexivity.
  - reflexivity.
  - discriminate.
Defined.


(** ** Further properties of the project summary *)

Lemma countLevel_total (l : list Analyzer.PackageResult) :
  Forall hasScore l →
  countLevel Calculator.LOW l + countLevel Calculator.MEDIUM l
  + countLevel Calculator.ELEVATED l + countLevel Calculator.HIGH l
  + countLevel Calculator.CRITICAL l = Z.of_nat (length l).
Proof.
  induction 1 as [| p l [s Hs] _ IH]; [reflexivity |].
  rewrite !countLevel_cons. unfold levelOf. rewrite Hs.
  cbn [fmap option_fmap option_map]. simpl length.
  destruct (Calculator.riskLevel s); repeat case_decide;
    try discriminate; try congruence; lia.
Qed.

Lemma countLevel_filter (level : Calculator.RiskLevel)
    (l : list Analyzer.PackageResult) :
  countLevel level (filter hasScore l) = countLevel level l.
Proof.
  induction l as [| p l IH]; [reflexivity |].
  rewrite filter_cons. destruct (decide (hasScore p)) as [Hp | Hn].
  - rewrite !countLevel_cons, IH. reflexivity.
  - rewrite countLevel_cons, IH. rewrite decide_False; [lia |].
    intros Hl. apply Hn. unfold levelOf in Hl. unfold hasScore.
    destruct (Analyzer.score p); [eauto | discriminate].
Qed.

Lemma summary_of (pkgs : list Analyzer.PackageResult)
    (s : Analyzer.ProjectSummary) :
  Analyzer.calculateProjectSummary pkgs = Some s →
  filter hasScore pkgs ≠ [] ∧ summarises (filter hasScore pkgs) s.
Proof.
  intros Hs. destruct (filter hasScore pkgs) as [| p l] eqn:Hf.
  - rewrite calculateProjectSummary_unscored in Hs by exact Hf. discriminate.
  - destruct (calculateProjectSummary_scored pkgs) as (s' & Hs' & Hsum).
    { rewrite Hf. discriminate. }
    rewrite Hf in Hsum. split; [discriminate | congruence].
Qed.

Lemma Forall_filter_hasScore (pkgs : list Analyzer.PackageResult) :
  Forall hasScore (filter hasScore pkgs).
Proof.
  apply Forall_forall. intros p Hp.
  apply list_elem_of_filter in Hp as [Hp _]. exact Hp.
Qed.

(** X25.  In a project summary the five tier counts add up to the number
    of packages that carry a score, which is at least 1, and the list of
    highest-risk packages has five entries, or as many as there are scored
    packages when these are fewer. *)
Theorem calculateProjectSummary_counts (pkgs : list Analyzer.PackageResult)
    (s : Analyzer.ProjectSummary) :
  Analyzer.calculateProjectSummary pkgs = Some s →
  let scored := length (filter hasScore pkgs) in
  (1 <= scored)%nat
  ∧ distributionTotal (Analyzer.riskDistribution s) = Z.of_nat scored
  ∧ length (Analyzer.highestRiskPackages s) = min 5 scored.
Proof.
  intros Hs. cbv zeta. destruct (summary_of pkgs s Hs) as [Hne Hsum].
  destruct Hsum as (_ & _ & _ & _ & Hdist & sorted & Hhigh & Hperm & _).
  split; [| split].
  - destruct (filter hasScore pkgs); [congruence | simpl; lia].
  - rewrite Hdist. unfold distributionTotal.
    cbn [Analyzer.nLOW Analyzer.nMEDIUM Analyzer.nELEVATED Analyzer.nHIGH
         Analyzer.nCRITICAL].
    apply countLevel_total, Forall_filter_hasScore.
  - rewrite Hhigh, length_fmap, length_take.
    rewrite (Permutation_length Hperm). reflexivity.
Qed.

Lemma calculateProjectSummary_counts_witness :
  ∃ s, Analyzer.calculateProjectSummary
         [Analyzer.failed "x"; packageA; packageB] = Some s
       ∧ distributionTotal (Analyzer.riskDistribution s) = 2
       ∧ length (Analyzer.highestRiskPackages s) = 2%nat.
Proof.
  eexists. split; [reflexivity |].
  destruct (calculateProjectSummary_counts
              [Analyzer.failed "x"; packageA; packageB] _ eq_refl)
    as (_ & Hd & Hl).
  split; [exact Hd | exact Hl].
Defined.

Lemma round_mean (a : Z) (n : nat) :
  n ≠ 0%nat →
  Js.round (inject_Z a / inject_Z (Z.of_nat n))%Q
  = (2 * a + Z.of_nat n) / (2 * Z.of_nat n).
Proof.
  intros Hn. destruct n as [| n]; [congruence |].
  assert (Heq : (inject_Z a / inject_Z (Z.of_nat (S n))
                 == a # Pos.of_succ_nat n)%Q).
  { unfold Qdiv, Qinv, inject_Z, Qeq, Qmult. simpl. lia. }
  unfold Js.round. rewrite Heq.
  fold (Js.round (a # Pos.of_succ_nat n)). rewrite round_fraction.
  rewrite Zpos_P_of_succ_nat, <- Nat2Z.inj_succ. reflexivity.
Qed.

Lemma mean_bounds (t n a b : Z) :
  0 < n → a * n <= t <= b * n → a <= (2 * t + n) / (2 * n) <= b.
Proof.
  intros Hn Ht. split.
  - apply Z.div_le_lower_bound; nia.
  - apply Z.lt_succ_r, Z.div_lt_upper_bound; nia.
Qed.

Lemma sumOf_bounds {X : Type} (f : X → Z) (l : list X) (lo hi : Z) :
  (∀ x, x ∈ l → lo <= f x <= hi) →
  lo * Z.of_nat (length l) <= sumOf f l <= hi * Z.of_nat (length l).
Proof.
  induction l as [| x l IH]; intros Hl; [simpl; lia |].
  change (sumOf f (x :: l)) with (f x + sumOf f l).
  pose proof (Hl x (list_elem_of_here _ _)) as Hx.
  assert (IH' := IH (λ y Hy, Hl y (list_elem_of_further _ _ _ Hy))).
  simpl length. lia.
Qed.

(** X26.  The average score of a project summary lies between the lowest
    and the highest total of the scored packages (so between 0 and 100 for
    totals in that range), and the first entry of the highest-risk list
    carries the lowest total, which the average is never below. *)
Theorem calculateProjectSummary_average (pkgs : list Analyzer.PackageResult)
    (s : Analyzer.ProjectSummary) (lo hi : Z) :
  Analyzer.calculateProjectSummary pkgs = Some s →
  (∀ p, p ∈ pkgs → hasScore p → lo <= totalOf p <= hi) →
  lo <= Analyzer.averageScore s <= hi
  ∧ ∃ e, head (Analyzer.highestRiskPackages s) = Some e
         ∧ Analyzer.entryScore e <= Analyzer.averageScore s
         ∧ ∀ p, p ∈ pkgs → hasScore p → Analyzer.entryScore e <= totalOf p.
Proof.
  intros Hs Hbounds. destruct (summary_of pkgs s Hs) as [Hne Hsum].
  destruct Hsum as (Havg & _ & _ & _ & _ & sorted & Hhigh & Hperm & Hsorted & _).
  set (l := filter hasScore pkgs) in *.
  assert (Hlen : length l ≠ 0%nat) by (destruct l; [congruence | discriminate]).
  assert (Hmean : ∀ a b, (∀ p, p ∈ l → a <= totalOf p <= b) →
                         a <= Analyzer.averageScore s <= b).
  { intros a b Hab. rewrite Havg, round_mean by exact Hlen.
    apply mean_bounds; [lia | apply sumOf_bounds, Hab]. }
  assert (Hl : ∀ p, p ∈ l ↔ p ∈ pkgs ∧ hasScore p).
  { intros p. subst l. rewrite list_elem_of_filter. tauto. }
  split.
  - apply Hmean. intros p Hp. apply Hl in Hp as [Hp Hsc].
    apply Hbounds; assumption.
  - destruct sorted as [| p0 sorted'].
    { apply Permutation_nil_l in Hperm. congruence. }
    exists (entryOf p0). rewrite Hhigh. split; [reflexivity |].
    assert (Hmin : ∀ p, p ∈ l → totalOf p0 <= totalOf p).
    { intros p Hp. rewrite <- Hperm in Hp.
      apply elem_of_cons in Hp as [-> | Hp]; [lia |].
      apply StronglySorted_inv in Hsorted as [_ Hall].
      exact (proj1 (Forall_forall _ _) Hall p Hp). }
    cbn [entryOf Analyzer.entryScore]. split.
    + assert (Hp0 : p0 ∈ l) by (rewrite <- Hperm; apply list_elem_of_here).
      apply Hl in Hp0 as [Hp0 Hsc0].
      destruct (Hbounds p0 Hp0 Hsc0) as [_ Hhi].
      apply (Hmean (totalOf p0) hi). intros p Hp. split; [apply Hmin, Hp |].
      apply Hl in Hp as [Hp Hsc]. apply Hbounds; assumption.
    + intros p Hp Hsc. apply Hmin, Hl. split; assumption.
Qed.

Lemma calculateProjectSummary_average_witness :
  ∃ s, Analyzer.calculateProjectSummary twoPackages = Some s
       ∧ 60 <= Analyzer.averageScore s <= 80.
Proof.
  eexists. split; [reflexivity |].
  apply (calculateProjectSummary_average twoPackages _ 60 80 eq_refl).
  intros p Hp _.
  repeat (apply elem_of_cons in Hp as [-> | Hp]; [vm_compute; split; discriminate |]).
  inversion Hp.
Defined.

Lemma filter_index_split {V : Type} (o : list (string * V)) :
  filter (λ p, is_Some (Js.arrayIndex p.1)) o
  ++ filter (λ p, Js.arrayIndex p.1 = None) o ≡ₚ o.
Proof.
  induction o as [| p o IH]; [reflexivity |].
  rewrite !filter_cons.
  destruct (Js.arrayIndex p.1) as [n |] eqn:Hp.
  - rewrite decide_True by (eexists; reflexivity).
    rewrite decide_False by discriminate.
    simpl. rewrite IH. reflexivity.
  - rewrite decide_False by (intros [n Hn]; discriminate).
    rewrite decide_True by reflexivity.
    rewrite <- Permutation_middle, IH. reflexivity.
Qed.

Lemma entries_enumerates {V : Type} (o : list (string * V)) :
  enumerates o (Js.entries o).
Proof.
  unfold enumerates, Js.entries. split.
  - rewrite (sort_perm (λ a b : string * V, Js.indexOf a - Js.indexOf b)).
    apply filter_index_split.
  - eexists. split; [reflexivity | split].
    + rewrite (sort_perm (λ a b : string * V, Js.indexOf a - Js.indexOf b)).
      apply Forall_forall. intros p Hp.
      apply list_elem_of_filter in Hp as [Hp _]. exact Hp.
    + apply (sort_sorted _ Js.indexOf). intros a b. lia.
Qed.

Lemma entries_plain {V : Type} (o : list (string * V)) :
  Forall (λ p, Js.arrayIndex p.1 = None) o → Js.entries o = o.
Proof.
  intros H. unfold Js.entries.
  assert (H1 : filter (λ p : string * V, is_Some (Js.arrayIndex p.1)) o = []).
  { induction H as [| p o Hp _ IH]; [reflexivity |].
    rewrite filter_cons, decide_False; [exact IH |].
    rewrite Hp. intros [n Hn]. discriminate. }
  assert (H2 : filter (λ p : string * V, Js.arrayIndex p.1 = None) o = o).
  { clear H1. induction H as [| p o Hp _ IH]; [reflexivity |].
    rewrite filter_cons, decide_True by exact Hp. f_equal. exact IH. }
  rewrite H1, H2. reflexivity.
Qed.

(** X27.  [extractDependencies] lists the production dependencies with
    type "production", followed by the development dependencies with type
    "development" when (and only when) they are asked for.  Each section
    is listed as [Object.entries] enumerates it: every declared dependency
    once, names that are array indices first, in ascending order of the
    index, all other names in the order of the manifest; so a section
    without such names is listed in the order of the manifest.  Nothing is
    merged across the sections, and a missing section contributes
    nothing. *)
Theorem extractDependencies_sections (packageJson : Analyzer.PackageJson)
    (includeDev : bool) :
  let out := Analyzer.extractDependencies packageJson includeDev in
  let production := default [] (Analyzer.pj_dependencies packageJson) in
  let development :=
    if includeDev then default [] (Analyzer.pj_devDependencies packageJson)
    else [] in
  let listed (type : string) :=
    entryOfDependency <$> filter (λ d, Analyzer.dep_type d = type) out in
  entryOfDependency <$> out = listed "production" ++ listed "development"
  ∧ enumerates production (listed "production")
  ∧ enumerates development (listed "development")
  ∧ (Forall (λ p, Js.arrayIndex p.1 = None) production →
     listed "production" = production)
  ∧ (Forall (λ p, Js.arrayIndex p.1 = None) development →
     listed "development" = development)
  ∧ length out = (length production + length development)%nat.
Proof.
  cbv zeta.
  set (production := default [] (Analyzer.pj_dependencies packageJson)).
  set (development := if includeDev then _ else _).
  assert (Hout : Analyzer.extractDependencies packageJson includeDev
                 = (Analyzer.dependency "production"
                    <$> Js.entries production)
                   ++ (Analyzer.dependency "development"
                       <$> Js.entries development)).
  { unfold Analyzer.extractDependencies, production, development. cbv zeta.
    destruct (Analyzer.pj_dependencies packageJson) as [prod |],
      includeDev, (Analyzer.pj_devDependencies packageJson) as [dev |];
      simpl; rewrite ?app_nil_r; reflexivity. }
  rewrite Hout.
  assert (Hround : ∀ (type : string) (l : list (string * string)),
            entryOfDependency <$> (Analyzer.dependency type <$> l) = l).
  { intros type l. induction l as [| [n v] l IH]; [reflexivity |].
    cbn [fmap list_fmap]. f_equal. exact IH. }
  assert (Hkeep : ∀ (type : string) (l : list (string * string)),
            filter (λ d, Analyzer.dep_type d = type)
              (Analyzer.dependency type <$> l)
            = Analyzer.dependency type <$> l).
  { intros type l. induction l as [| e l IH]; [reflexivity |].
    cbn [fmap list_fmap]. rewrite filter_cons, decide_True by reflexivity.
    f_equal. exact IH. }
  assert (Hdrop : ∀ (type type' : string) (l : list (string * string)),
            type ≠ type' →
            filter (λ d, Analyzer.dep_type d = type)
              (Analyzer.dependency type' <$> l) = []).
  { intros type type' l Hne. apply filter_none. intros d Hd Ht.
    apply list_elem_of_fmap in Hd as (e & -> & _). simpl in Ht. congruence. }
  assert (Hprod : entryOfDependency
                    <$> filter (λ d, Analyzer.dep_type d = "production")
                          ((Analyzer.dependency "production"
                            <$> Js.entries production)
                           ++ (Analyzer.dependency "development"
                               <$> Js.entries development))
                  = Js.entries production).
  { rewrite filter_app, Hkeep, Hdrop by discriminate.
    rewrite app_nil_r. apply Hround. }
  assert (Hdev : entryOfDependency
                   <$> filter (λ d, Analyzer.dep_type d = "development")
                         ((Analyzer.dependency "production"
                           <$> Js.entries production)
                          ++ (Analyzer.dependency "development"
                              <$> Js.entries development))
                 = Js.entries development).
  { rewrite filter_app, Hkeep, Hdrop by discriminate. apply Hround. }
  rewrite Hprod, Hdev.
  split; [| split; [| split; [| split; [| split]]]].
  - rewrite fmap_app, !Hround. reflexivity.
  - apply entries_enumerates.
  - apply entries_enumerates.
  - apply entries_plain.
  - apply entries_plain.
  - rewrite length_app, !length_fmap.
    destruct (entries_enumerates production) as [Hp _].
    destruct (entries_enumerates development) as [Hd _].
    rewrite (Permutation_length Hp), (Permutation_length Hd). reflexivity.
Qed.

(** ** The command line *)

Lemma num_or_some (n : Z) : Js.num_or (Some n) 0 = n.
Proof. simpl. destruct (Z.eqb_spec n 0); congruence. Qed.

(** X28.  The [analyze] command ends with exit code 1 when
    [analyzeProject] throws, as it does for a manifest that cannot be read,
    although no package is rated then.  When [analyzeProject] returns, the
    exit code is 1 exactly when at least one scored package is rated
    CRITICAL or more than three are rated HIGH, and 0 otherwise; packages
    without a score, and a project without a summary, never make it
    fail. *)
Theorem analyzeExitCode_spec (pkgs : list Analyzer.PackageResult) :
  let code :=
    Cli.analyzeExitCode
      (Cli.Returned (Analyzer.calculateProjectSummary pkgs)) in
  (code = 1
   ↔ 0 < countLevel Calculator.CRITICAL pkgs
     ∨ 3 < countLevel Calculator.HIGH pkgs)
  ∧ (code = 0 ∨ code = 1)
  ∧ Cli.analyzeExitCode (Cli.Returned None) = 0
  ∧ Cli.analyzeExitCode Cli.Thrown = 1.
Proof.
  cbv zeta.
  match goal with
  | |- ?A ∧ ?B ∧ _ =>
    enough (H : A ∧ B)
      by (destruct H as [H1 H2];
          split; [exact H1 | split; [exact H2 | split; reflexivity]])
  end.
  destruct (Analyzer.calculateProjectSummary pkgs) as [s |] eqn:Hs.
  - destruct (summary_of pkgs s Hs) as [_ Hsum].
    destruct Hsum as (_ & _ & _ & _ & Hdist & _).
    unfold Cli.analyzeExitCode. cbv zeta. rewrite Hdist.
    cbn [Analyzer.nCRITICAL Analyzer.nHIGH]. rewrite !num_or_some.
    rewrite !countLevel_filter.
    destruct (Z.ltb_spec 0 (countLevel Calculator.CRITICAL pkgs));
      [split; [split; [intros _; left; assumption | reflexivity] | right; reflexivity] |].
    destruct (Z.ltb_spec 3 (countLevel Calculator.HIGH pkgs));
      [split; [split; [intros _; right; assumption | reflexivity] | right; reflexivity] |].
    split; [| left; reflexivity]. split; [discriminate | lia].
  - cbn [Cli.analyzeExitCode]. split; [| left; reflexivity].
    split; [discriminate |].
    assert (Hnone : filter hasScore pkgs = []).
    { destruct (filter hasScore pkgs) as [| p l] eqn:Hf; [reflexivity |].
      destruct (calculateProjectSummary_scored pkgs) as (s & Hs' & _).
      { rewrite Hf. discriminate. }
      congruence. }
    rewrite <- (countLevel_filter Calculator.CRITICAL),
            <- (countLevel_filter Calculator.HIGH), Hnone.
    unfold countLevel. simpl. lia.
Qed.

(** X29.  The [check] command ends with exit code 0 exactly when the
    package was found in the registry and its total score is at least 40
    (so it is rated LOW, MEDIUM or ELEVATED); a failed analysis ends with
    exit code 1. *)
Theorem checkExitCode_spec (name : string) (tr : Analyzer.TransitiveResult)
    (pm : DepsDev.PackageMetrics) :
  let result := Analyzer.analyzed name tr pm in
  (Cli.checkExitCode result = 0
   ↔ DepsDev.found pm = true ∧ 40 <= totalOf result)
  ∧ (Cli.checkExitCode result = 0 ∨ Cli.checkExitCode result = 1)
  ∧ Cli.checkExitCode (Analyzer.failed name) = 1.
Proof.
  cbv zeta.
  assert (Hfound : DepsDev.found (Analyzer.overrideCounts pm tr)
                   = DepsDev.found pm).
  { unfold Analyzer.overrideCounts.
    destruct (DepsDev.complexity pm); [| reflexivity].
    destruct (0 <? Analyzer.totalPackagesInTree tr); reflexivity. }
  unfold Cli.checkExitCode, totalOf, Analyzer.analyzed. cbv zeta.
  cbn [Analyzer.pkgFound Analyzer.score from_option Analyzer.failed].
  rewrite Hfound, riskLevel_of_total.
  set (t := Calculator.totalScore _). clearbody t.
  destruct (DepsDev.found pm); cbn [negb].
  - unfold Calculator.getRiskLevel.
    repeat match goal with
           | |- context [?a <=? ?b] => destruct (Z.leb_spec a b)
           end; intuition (try discriminate; try lia).
  - intuition (try discriminate; try lia).
Qed.

(** ** The formatter *)

(** X30.  [formatScore] colours a score like [formatRisk] colours the risk
    level of that score, from 20 upwards; below 20 the score is red like a
    HIGH one while the level CRITICAL is white on red. *)
Theorem formatScore_matches_risk (score : Z) :
  (20 <= score →
   Formatter.formatScore score
   = Formatter.formatRisk (Calculator.getRiskLevel score))
  ∧ (score < 20 →
     Formatter.formatScore score = Formatter.red
     ∧ Formatter.formatRisk (Calculator.getRiskLevel score)
       = Formatter.whiteOnRed).
Proof.
  unfold Formatter.formatScore, Calculator.getRiskLevel.
  split; intros H;
    repeat match goal with
           | |- context [?a <=? ?b] => destruct (Z.leb_spec a b)
           end; try lia; repeat split.
Qed.

Lemma formatScore_matches_risk_witness :
  Formatter.formatScore 45
  = Formatter.formatRisk (Calculator.getRiskLevel 45)
  ∧ Formatter.formatScore 12 = Formatter.red.
Proof.
  split.
  - apply (proj1 (formatScore_matches_risk 45)). lia.
  - apply (proj2 (formatScore_matches_risk 12)). lia.
Defined.
